(** * adv-crawler: URL utilities and the crawl controller

    A shallow embedding of [crawler/utils/url_utils.py] and
    [crawler/core/crawler.py] / [crawler/core/pipeline.py], together with
    the part of Python's [str] and [urllib.parse] (CPython 3.11) that
    these files call.

    Python strings are modelled as [string] (sequences of 8-bit
    characters); [str.lower] is modelled on the ASCII range, which is
    where URLs live, and statements that depend on it carry an [isascii]
    hypothesis.  Python exceptions are modelled by the [outcome] type. *)

From stdpp Require Import gmap strings list.
From Stdlib Require Import ZArith NArith Ascii String Lia.

Open Scope string_scope.

(** ** Exceptions *)

(** The exceptions of class [Exception] *)
Inductive exn :=
| ValueError (msg : string)
| Exception (msg : string).

(** The other exceptions of class [BaseException], which
    [except Exception] does not catch: [asyncio.CancelledError] is
    raised inside a task that is cancelled, as the library does with a
    request handler at its time-out *)
Inductive base_exn :=
| CancelledError
| KeyboardInterrupt
| SystemExit.

(** How a call ends: it returns, or raises an [Exception], or raises
    another [BaseException] *)
Inductive outcome (A : Type) :=
| Ok (a : A)
| Raise (e : exn)
| RaiseBase (b : base_exn).
Arguments Ok {A} a.
Arguments Raise {A} e.
Arguments RaiseBase {A} b.

Global Instance outcome_ret : MRet outcome := fun _ a => Ok a.
Global Instance outcome_bind : MBind outcome := fun _ _ k m =>
  match m with
  | Ok a => k a
  | Raise e => Raise e
  | RaiseBase b => RaiseBase b
  end.

(** ** Python [str] methods used by the sources *)

Module PyStr.

Definition is_upper (c : ascii) : bool :=
  let n := nat_of_ascii c in (65 <=? n)%nat && (n <=? 90)%nat.
Definition is_lower (c : ascii) : bool :=
  let n := nat_of_ascii c in (97 <=? n)%nat && (n <=? 122)%nat.
Definition is_digit (c : ascii) : bool :=
  let n := nat_of_ascii c in (48 <=? n)%nat && (n <=? 57)%nat.
Definition is_alpha (c : ascii) : bool := is_upper c || is_lower c.
Definition is_ascii (c : ascii) : bool := (nat_of_ascii c <? 128)%nat.

Definition lower_char (c : ascii) : ascii :=
  if is_upper c then ascii_of_nat (nat_of_ascii c + 32) else c.

(** [s.lower()] *)
Fixpoint lower (s : string) : string :=
  match s with
  | "" => ""
  | String c r => String (lower_char c) (lower r)
  end.

Fixpoint forall_chars (p : ascii -> bool) (s : string) : bool :=
  match s with
  | "" => true
  | String c r => p c && forall_chars p r
  end.

(** [s.isascii()] *)
Definition isascii (s : string) : bool := forall_chars is_ascii s.

(** [s.isdigit()], for ASCII strings; false on the empty string *)
Definition isdigit (s : string) : bool :=
  negb (s =? "") && forall_chars is_digit s.

(** [int(s)] for a string of decimal digits *)
Fixpoint int_acc (acc : N) (s : string) : N :=
  match s with
  | "" => acc
  | String c r => int_acc (10 * acc + (N_of_ascii c - 48))%N r
  end.
Definition int (s : string) : N := int_acc 0 s.

(** [s[:n]] and [s[n:]] for [0 <= n] *)
Fixpoint take (n : nat) (s : string) : string :=
  match n, s with
  | S k, String c r => String c (take k r)
  | _, _ => ""
  end.
Fixpoint drop (n : nat) (s : string) : string :=
  match n, s with
  | S k, String _ r => drop k r
  | _, _ => s
  end.

(** [s.find(c)] for a one-character [c]; [None] stands for [-1] *)
Fixpoint find (c : ascii) (s : string) : option nat :=
  match s with
  | "" => None
  | String a r => if Ascii.eqb a c then Some 0%nat else S <$> find c r
  end.

(** [s.find(c, start)] for [0 <= start] *)
Definition find_from (c : ascii) (start : nat) (s : string) : option nat :=
  if (start <=? String.length s)%nat
  then Nat.add start <$> find c (drop start s)
  else None.

(** [s.rfind(c)] *)
Fixpoint rfind (c : ascii) (s : string) : option nat :=
  match s with
  | "" => None
  | String a r =>
      match rfind c r with
      | Some i => Some (S i)
      | None => if Ascii.eqb a c then Some 0%nat else None
      end
  end.

(** [c in s] *)
Definition contains (c : ascii) (s : string) : bool :=
  match find c s with Some _ => true | None => false end.

(** [s.partition(c)]: (head, separator found, tail) *)
Definition partition (c : ascii) (s : string) : string * bool * string :=
  match find c s with
  | Some i => (take i s, true, drop (S i) s)
  | None => (s, false, "")
  end.

(** [s.rpartition(c)] *)
Definition rpartition (c : ascii) (s : string) : string * bool * string :=
  match rfind c s with
  | Some i => (take i s, true, drop (S i) s)
  | None => ("", false, s)
  end.

(** [s.rstrip(c)] for a one-character [c] *)
Fixpoint rstrip (c : ascii) (s : string) : string :=
  match s with
  | "" => ""
  | String a r =>
      match rstrip c r with
      | "" => if Ascii.eqb a c then "" else String a ""
      | r' => String a r'
      end
  end.

(** [s.lstrip(chars)], the character set given as a predicate *)
Fixpoint lstrip (p : ascii -> bool) (s : string) : string :=
  match s with
  | "" => ""
  | String a r => if p a then lstrip p r else s
  end.

(** [s.startswith(p)] and [s.endswith(p)] *)
Definition startswith (s p : string) : bool := String.prefix p s.
Definition endswith (s p : string) : bool :=
  (String.length p <=? String.length s)%nat
  && (drop (String.length s - String.length p) s =? p).

(** [s.replace(old, new)] for a non-empty [old]: occurrences are
    replaced from the left and do not overlap.  [skip] counts the
    characters of a matched occurrence still to be passed over. *)
Fixpoint replace_go (old new : string) (skip : nat) (s : string) : string :=
  match s with
  | "" => ""
  | String a r =>
      match skip with
      | S k => replace_go old new k r
      | O =>
          if String.prefix old s
          then new +:+ replace_go old new (String.length old - 1) r
          else String a (replace_go old new 0 r)
      end
  end.
Definition replace (old new s : string) : string := replace_go old new 0 s.

End PyStr.

(** ** Library functions that are taken as given

    [_check_bracketed_host] of [urllib.parse] validates a bracketed host
    with [ipaddress.ip_address] and a regular expression, and
    [_checknetloc] inspects a non-ASCII netloc with [unicodedata]; both
    only decide whether [ValueError] is raised.  [urljoin] is called by
    the crawler on every extracted link.  [markdown_writer] is how
    [MarkdownWriter(output_dir, base_domain)] ends, of
    [crawler/storage/writer.py], and [playwright_crawler] how the
    construction of the library's [PlaywrightCrawler] ends. *)

Class Externals := {
  bracketed_host_valid : string -> bool;
  nfkc_netloc_valid : string -> bool;
  urljoin : string -> string -> outcome string;
  markdown_writer : string -> outcome unit;
  playwright_crawler : outcome unit
}.

(** ** [urllib.parse] (CPython 3.11): [urlparse] and [urlunparse] *)

Module Urllib.
Import PyStr.

Definition uses_netloc : list string :=
  [""; "ftp"; "http"; "gopher"; "nntp"; "telnet"; "imap"; "wais"; "file";
   "mms"; "https"; "shttp"; "snews"; "prospero"; "rtsp"; "rtspu"; "rsync";
   "svn"; "svn+ssh"; "sftp"; "nfs"; "git"; "git+ssh"; "ws"; "wss"].

Definition uses_params : list string :=
  [""; "ftp"; "hdl"; "prospero"; "http"; "imap"; "https"; "shttp"; "rtsp";
   "rtspu"; "sip"; "sips"; "mms"; "sftp"; "tel"].

Definition mem (s : string) (l : list string) : bool :=
  existsb (String.eqb s) l.

(** [c in scheme_chars] *)
Definition scheme_char (c : ascii) : bool :=
  is_alpha c || is_digit c
  || Ascii.eqb c "+" || Ascii.eqb c "-" || Ascii.eqb c ".".

(** [c in _WHATWG_C0_CONTROL_OR_SPACE] *)
Definition c0_control_or_space (c : ascii) : bool :=
  (nat_of_ascii c <=? 32)%nat.

Definition TAB : string := String "009" "".
Definition CR : string := String "013" "".
Definition LF : string := String "010" "".

Record ParseResult := {
  scheme : string;
  netloc : string;
  path : string;
  params : string;
  query : string;
  fragment : string
}.

(** [_hostinfo]: the host and port substrings of the netloc *)
Definition _hostinfo (netloc : string) : string * option string :=
  let '(_, _, hostinfo) := rpartition "@" netloc in
  let '(_, have_open_br, bracketed) := partition "[" hostinfo in
  let '(hostname, port) :=
    if have_open_br
    then let '(hostname, _, port) := partition "]" bracketed in
         let '(_, _, port) := partition ":" port in
         (hostname, port)
    else let '(hostname, _, port) := partition ":" hostinfo in
         (hostname, port) in
  (hostname, if port =? "" then None else Some port).

(** the [hostname] property; [None] is Python's [None] *)
Definition hostname (p : ParseResult) : option string :=
  let hostname := fst (_hostinfo (netloc p)) in
  if hostname =? "" then None
  else
    let '(hostname, percent, zone) := partition "%" hostname in
    Some (lower hostname +:+ (if percent then "%" else "") +:+ zone).

(** the [port] property *)
Definition port (p : ParseResult) : outcome (option N) :=
  match snd (_hostinfo (netloc p)) with
  | None => Ok None
  | Some port =>
      if isdigit port && isascii port
      then let port := int port in
           if (port <=? 65535)%N then Ok (Some port)
           else Raise (ValueError "Port out of range 0-65535")
      else Raise (ValueError "Port could not be cast to integer value")
  end.

Definition _splitnetloc (url : string) (start : nat) : string * string :=
  let delim :=
    fold_left
      (fun delim c =>
         match find_from c start url with
         | Some wdelim => Nat.min delim wdelim
         | None => delim
         end)
      ["/"; "?"; "#"]%char (String.length url) in
  (take (delim - start) (drop start url), drop delim url).

Section WithExternals.
Context `{!Externals}.

Definition _checknetloc (netloc : string) : outcome unit :=
  if (netloc =? "") || isascii netloc then Ok tt
  else if nfkc_netloc_valid netloc then Ok tt
  else Raise (ValueError "netloc contains invalid characters under NFKC normalization").

Definition _check_bracketed_host (hostname : string) : outcome unit :=
  if bracketed_host_valid hostname then Ok tt
  else Raise (ValueError "invalid bracketed host").

Definition _check_bracketed_netloc (netloc : string) : outcome unit :=
  let '(_, _, hostname_and_port) := rpartition "@" netloc in
  let '(before_bracket, have_open_br, bracketed) :=
    partition "[" hostname_and_port in
  if have_open_br then
    if negb (before_bracket =? "") then Raise (ValueError "Invalid IPv6 URL")
    else
      let '(hostname, _, port) := partition "]" bracketed in
      if negb (port =? "") && negb (startswith port ":")
      then Raise (ValueError "Invalid IPv6 URL")
      else _check_bracketed_host hostname
  else
    let '(hostname, _, port) := partition ":" hostname_and_port in
    _check_bracketed_host hostname.

(** [urlsplit(url)]: (scheme, netloc, url, query, fragment) *)
Definition urlsplit (url : string)
  : outcome (string * string * string * string * string) :=
  let url := lstrip c0_control_or_space url in
  let url := replace LF "" (replace CR "" (replace TAB "" url)) in
  let '(scheme, url) :=
    match find ":" url with
    | Some (S i) =>
        if is_alpha (default "000"%char (String.get 0 url))
           && forall_chars scheme_char (take (S i) url)
        then (lower (take (S i) url), drop (S (S i)) url)
        else ("", url)
    | _ => ("", url)
    end in
  '(netloc, url) ←
    (if take 2 url =? "//" then
       let '(netloc, url) := _splitnetloc url 2 in
       if (contains "[" netloc && negb (contains "]" netloc))
          || (contains "]" netloc && negb (contains "[" netloc))
       then Raise (ValueError "Invalid IPv6 URL")
       else
         _ ← (if contains "[" netloc && contains "]" netloc
              then _check_bracketed_netloc netloc else Ok tt);
         Ok (netloc, url)
     else Ok ("", url));
  let '(url, fragment) :=
    if contains "#" url
    then let '(u, _, f) := partition "#" url in (u, f)
    else (url, "") in
  let '(url, query) :=
    if contains "?" url
    then let '(u, _, q) := partition "?" url in (u, q)
    else (url, "") in
  _ ← _checknetloc netloc;
  Ok (scheme, netloc, url, query, fragment).

Definition _splitparams (url : string) : string * string :=
  let i :=
    if contains "/" url
    then find_from ";" (default 0%nat (rfind "/" url)) url
    else find ";" url in
  match i with
  | None => (url, "")
  | Some i => (take i url, drop (S i) url)
  end.

(** [urlparse(url)] *)
Definition urlparse (url : string) : outcome ParseResult :=
  '(scheme, netloc, url, query, fragment) ← urlsplit url;
  let '(url, params) :=
    if mem scheme uses_params && contains ";" url
    then _splitparams url
    else (url, "") in
  Ok {| scheme := scheme; netloc := netloc; path := url;
        params := params; query := query; fragment := fragment |}.

End WithExternals.

(** [urlunsplit((scheme, netloc, url, query, fragment))]; the netloc
    may be [None] *)
Definition urlunsplit (scheme : string) (netloc : option string)
    (url query fragment : string) : string :=
  let netloc := default "" netloc in
  let url :=
    if negb (netloc =? "")
       || (negb (scheme =? "") && mem scheme uses_netloc
           && negb (take 2 url =? "//"))
    then
      let url :=
        if negb (url =? "") && negb (take 1 url =? "/")
        then "/" +:+ url else url in
      "//" +:+ netloc +:+ url
    else url in
  let url := if negb (scheme =? "") then scheme +:+ ":" +:+ url else url in
  let url := if negb (query =? "") then url +:+ "?" +:+ query else url in
  let url := if negb (fragment =? "") then url +:+ "#" +:+ fragment else url in
  url.

(** [urlunparse((scheme, netloc, url, params, query, fragment))] *)
Definition urlunparse (scheme : string) (netloc : option string)
    (url params query fragment : string) : string :=
  let url := if negb (params =? "") then url +:+ ";" +:+ params else url in
  urlunsplit scheme netloc url query fragment.

End Urllib.

(** ** [crawler/utils/url_utils.py]: class [URLUtils] *)

Module URLUtils.
Import PyStr Urllib.

Section WithExternals.
Context `{!Externals}.

(** Normalize a URL for consistent comparison *)
Definition normalize_url (url : string) : outcome string :=
  parsed ← urlparse (lower url);
  (* Remove default ports *)
  let netloc := Some (netloc parsed) in
  port ← port parsed;
  let netloc :=
    if bool_decide (port = Some 80%N) && (scheme parsed =? "http")
    then hostname parsed
    else if bool_decide (port = Some 443%N) && (scheme parsed =? "https")
    then hostname parsed
    else netloc in
  (* Remove trailing slash from path *)
  let path := rstrip "/" (path parsed) in
  let path := if path =? "" then "/" else path in
  (* Remove fragment *)
  Ok (urlunparse (scheme parsed) netloc path (params parsed)
        (query parsed) "").

(** Check if a URL is valid *)
Definition is_valid_url (url : string) : bool :=
  match urlparse url with
  | Ok result => negb (scheme result =? "") && negb (netloc result =? "")
  | Raise _ | RaiseBase _ => false
  end.

(** Check if a URL belongs to the same domain *)
Definition is_same_domain (url domain : string) : bool :=
  match urlparse url with
  | Ok parsed =>
      let url_domain := lower (netloc parsed) in
      let domain := lower domain in
      (* Remove www. prefix for comparison *)
      let url_domain := replace "www." "" url_domain in
      let domain := replace "www." "" domain in
      (url_domain =? domain) || endswith url_domain ("." +:+ domain)
  | Raise _ | RaiseBase _ => false
  end.

(** Extract domain from URL *)
Definition get_domain (url : string) : option string :=
  match urlparse url with
  | Ok parsed => Some (netloc parsed)
  | Raise _ | RaiseBase _ => None
  end.

(** Convert a relative URL to absolute *)
Definition make_absolute (base_url relative_url : string) : outcome string :=
  urljoin base_url relative_url.

(** File extensions to skip; a set in the source, and the loop over it
    returns the same in any order *)
Definition skip_extensions : list string :=
  [".pdf"; ".doc"; ".docx"; ".xls"; ".xlsx"; ".ppt"; ".pptx";
   ".zip"; ".rar"; ".tar"; ".gz"; ".7z";
   ".mp3"; ".mp4"; ".avi"; ".mov"; ".wmv"; ".flv";
   ".jpg"; ".jpeg"; ".png"; ".gif"; ".bmp"; ".svg"; ".ico";
   ".exe"; ".dmg"; ".pkg"; ".deb"; ".rpm"].

(** The loop of [is_crawlable] *)
Fixpoint no_skipped_extension (path : string) (exts : list string) : bool :=
  match exts with
  | [] => true
  | ext :: exts =>
      if endswith path ext then false else no_skipped_extension path exts
  end.

(** Check if URL should be crawled (exclude certain file types); there
    is no [try] here, an exception of [urlparse] reaches the caller *)
Definition is_crawlable (url : string) : outcome bool :=
  parsed ← urlparse (lower url);
  let path := path parsed in
  Ok (no_skipped_extension path skip_extensions).

End WithExternals.
End URLUtils.

(** ** [crawler/core/crawler.py]: class [WebCrawler] *)

Module Request.
(** A request of the crawl queue: its URL and its [user_data] dict *)
Record t := { url : string; user_data : gmap string Z }.

Global Instance eq_dec : EqDecision t.
Proof. solve_decision. Defined.

(** [request.user_data.get('depth', 0)] *)
Definition depth (r : t) : Z := default 0%Z (user_data r !! "depth").

(** [{'url': url, 'user_data': {'depth': d}}] *)
Definition make (url : string) (d : Z) : t :=
  {| url := url; user_data := {[ "depth" := d ]} |}.
End Request.

Module Link.
(** An entry of [processed_links]: keys ['url'], ['text'], ['is_external'] *)
Record t := { url : string; text : string; is_external : bool }.
End Link.

Module Crawler.
Import PyStr URLUtils.

Inductive LogRecord :=
| info_limit_reached (max_pages : Z)
| info_crawling (page_count max_pages : Z) (url : string)
| error_processing (url : string) (e : exn)
| error_failed (url : string) (e : exn)
| info_completed (page_count : Z)
| info_pipeline_starting
| debug_pre_crawl
| debug_post_crawl
| info_pipeline_completed
| error_pipeline_failed (e : exn).

(** The [config] dict; a key that may be absent is an [option] *)
Record Config := {
  cfg_start_url : string;
  cfg_max_depth : option Z;
  cfg_max_pages : option Z;
  cfg_follow_external : option bool;
  cfg_include_assets : option bool
}.

(** The crawler object, with the two stateful collaborators it drives:
    the request queue of the crawling library (the requests accepted by
    [add_requests], oldest first) and the logger. *)
Record WebCrawler := {
  start_url : string;
  max_depth : Z;
  max_pages : Z;
  follow_external : bool;
  include_assets : bool;
  base_domain : string;
  visited_urls : gset string;
  page_count : Z;
  request_queue : list Request.t;
  log : list LogRecord
}.

Definition set_visited_urls (v : gset string) (self : WebCrawler) :=
  {| start_url := start_url self; max_depth := max_depth self;
     max_pages := max_pages self; follow_external := follow_external self;
     include_assets := include_assets self; base_domain := base_domain self;
     visited_urls := v; page_count := page_count self;
     request_queue := request_queue self; log := log self |}.
Definition set_page_count (n : Z) (self : WebCrawler) :=
  {| start_url := start_url self; max_depth := max_depth self;
     max_pages := max_pages self; follow_external := follow_external self;
     include_assets := include_assets self; base_domain := base_domain self;
     visited_urls := visited_urls self; page_count := n;
     request_queue := request_queue self; log := log self |}.
Definition set_request_queue (q : list Request.t) (self : WebCrawler) :=
  {| start_url := start_url self; max_depth := max_depth self;
     max_pages := max_pages self; follow_external := follow_external self;
     include_assets := include_assets self; base_domain := base_domain self;
     visited_urls := visited_urls self; page_count := page_count self;
     request_queue := q; log := log self |}.
Definition set_log (l : list LogRecord) (self : WebCrawler) :=
  {| start_url := start_url self; max_depth := max_depth self;
     max_pages := max_pages self; follow_external := follow_external self;
     include_assets := include_assets self; base_domain := base_domain self;
     visited_urls := visited_urls self; page_count := page_count self;
     request_queue := request_queue self; log := l |}.

(** *** The monad of the methods: state [self], and exceptions that
    leave the state as it was when they were raised *)

Definition action (A : Type) : Type := WebCrawler -> WebCrawler * outcome A.

Global Instance action_ret : MRet action := fun _ a self => (self, Ok a).
Global Instance action_bind : MBind action := fun _ _ k m self =>
  match m self with
  | (self', Ok a) => k a self'
  | (self', Raise e) => (self', Raise e)
  | (self', RaiseBase b) => (self', RaiseBase b)
  end.

Definition get : action WebCrawler := fun self => (self, Ok self).
Definition modify (f : WebCrawler -> WebCrawler) : action unit :=
  fun self => (f self, Ok tt).
Definition lift {A} (m : outcome A) : action A := fun self => (self, m).

(** [try: m except Exception as e: h e]; a [BaseException] that is no
    [Exception] is not caught *)
Definition try_ {A} (m : action A) (h : exn -> action A) : action A :=
  fun self =>
    match m self with
    | (self', Ok a) => (self', Ok a)
    | (self', Raise e) => h e self'
    | (self', RaiseBase b) => (self', RaiseBase b)
    end.

Definition logger (r : LogRecord) : action unit :=
  modify (fun self => set_log (log self ++ [r]) self).

(** *** What one handler invocation sees of the outside world *)

Definition Assets : Type := list (string * list string).

(** The rendered page: the result of each awaited call on it *)
Record Page := {
  title : outcome string;
  content : outcome string;
  inner_text : outcome string;
  anchors : outcome (list (string * string));
  asset_urls : outcome Assets
}.

(** The crawling context of one request, with the results of
    [self.writer.save_page] and of [asyncio.sleep(self.delay)] during
    this invocation *)
Record Context := {
  request : Request.t;
  page : Page;
  add_requests : Request.t -> outcome unit;
  save_page : string -> string -> string -> string -> list Link.t ->
              Assets -> outcome unit;
  sleep : outcome unit
}.

Section WithExternals.
Context `{!Externals}.

(** Setup the crawlee playwright crawler *)
Definition _setup_crawler : outcome unit := playwright_crawler.

(** [WebCrawler.__init__]; the writer and the library crawler it
    constructs hold no state of this model *)
Definition __init__ (config : Config) : outcome WebCrawler :=
  parsed ← Urllib.urlparse (cfg_start_url config);
  _ ← markdown_writer (Urllib.netloc parsed);
  (* Initialize crawler *)
  _ ← _setup_crawler;
  Ok {| start_url := cfg_start_url config;
        max_depth := default 3%Z (cfg_max_depth config);
        max_pages := default 100%Z (cfg_max_pages config);
        follow_external := default false (cfg_follow_external config);
        include_assets := default false (cfg_include_assets config);
        base_domain := Urllib.netloc parsed;
        visited_urls := ∅;
        page_count := 0;
        request_queue := [];
        log := [] |}.

(** Extract readable text content from the page *)
Definition _extract_text_content (page : Page) : action string :=
  lift (inner_text page).

Fixpoint process_links (base_domain current_url : string)
    (links : list (string * string)) : outcome (list Link.t) :=
  match links with
  | [] => Ok []
  | (href, text) :: links =>
      if href =? "" then process_links base_domain current_url links
      else
        absolute_url ← urljoin current_url href;
        let link :=
          {| Link.url := absolute_url;
             Link.text := text;
             Link.is_external :=
               negb (is_same_domain absolute_url base_domain) |} in
        processed_links ← process_links base_domain current_url links;
        Ok (link :: processed_links)
  end.

(** Extract all links from the page *)
Definition _extract_links (page : Page) (current_url : string)
  : action (list Link.t) :=
  links ← lift (anchors page);
  self ← get;
  lift (process_links (base_domain self) current_url links).

Fixpoint join_all (current_url : string) (urls : list string)
  : outcome (list string) :=
  match urls with
  | [] => Ok []
  | url :: urls =>
      u ← urljoin current_url url;
      us ← join_all current_url urls;
      Ok (u :: us)
  end.

Fixpoint join_assets (current_url : string) (assets : Assets)
  : outcome Assets :=
  match assets with
  | [] => Ok []
  | (asset_type, urls) :: assets =>
      urls ← join_all current_url urls;
      assets ← join_assets current_url assets;
      Ok ((asset_type, urls) :: assets)
  end.

(** Extract asset URLs (CSS, JS, images) *)
Definition _extract_assets (page : Page) (current_url : string)
  : action Assets :=
  assets ← lift (asset_urls page);
  lift (join_assets current_url assets).

(** One iteration of the loop of [_enqueue_links] *)
Definition enqueue_link (context : Context) (current_depth : Z)
    (link_data : Link.t) : action unit :=
  let url := Link.url link_data in
  let is_external := Link.is_external link_data in
  self ← get;
  (* Skip if already visited *)
  if bool_decide (url ∈ visited_urls self) then mret tt
  (* Skip external links if not following them *)
  else if is_external && negb (follow_external self) then mret tt
  (* Skip non-HTTP(S) URLs *)
  else if negb (startswith url "http://" || startswith url "https://")
  then mret tt
  (* Add to queue *)
  else
    let r := Request.make url (current_depth + 1) in
    lift (add_requests context r);;
    modify (fun self => set_request_queue (request_queue self ++ [r]) self).

Fixpoint enqueue_loop (context : Context) (current_depth : Z)
    (links : list Link.t) : action unit :=
  match links with
  | [] => mret tt
  | link_data :: links =>
      enqueue_link context current_depth link_data;;
      enqueue_loop context current_depth links
  end.

(** Add discovered links to the crawl queue *)
Definition _enqueue_links (context : Context) (links : list Link.t)
    (current_url : string) : action unit :=
  let current_depth := Request.depth (request context) in
  self ← get;
  if (current_depth >=? max_depth self)%Z then mret tt
  else enqueue_loop context current_depth links.

(** Handle each crawled page *)
Definition _handle_request (context : Context) : action unit :=
  let page := page context in
  let request := request context in
  let url := Request.url request in
  self ← get;
  (* Check if we've reached the maximum number of pages *)
  if (page_count self >=? max_pages self)%Z
  then logger (info_limit_reached (max_pages self))
  else
    (* Mark URL as visited *)
    modify (fun self => set_visited_urls ({[ url ]} ∪ visited_urls self) self);;
    modify (fun self => set_page_count (page_count self + 1) self);;
    self ← get;
    logger (info_crawling (page_count self) (max_pages self) url);;
    (* Extract page content *)
    try_
      (title ← lift (title page);
       html_content ← lift (content page);
       text_content ← _extract_text_content page;
       links ← _extract_links page url;
       assets ← (if include_assets self
                 then _extract_assets page url else mret []);
       (* Save page content as markdown *)
       lift (save_page context url title text_content html_content
               links assets);;
       (* Add delay between requests *)
       lift (sleep context);;
       (* Enqueue new URLs *)
       _enqueue_links context links url)
      (fun e => logger (error_processing url e)).

(** Handle failed requests *)
Definition _handle_failed_request (context : Context) (error : exn)
  : action unit :=
  logger (error_failed (Request.url (request context)) error).

(** *** The crawl as the library runs it

    The library calls the request handler on requests of its queue;
    handlers in flight interleave at their [await]s.  Up to the loop of
    [_enqueue_links] a handler touches the shared state only in its
    first lines, which no [await] separates; from there on each loop
    iteration is one step, and other handlers may run in between.
    A [Task] is a handler suspended inside that loop. *)

Record Task := { context : Context; pending : list Link.t }.

Record Run := { state : WebCrawler; tasks : list Task }.

Inductive Event :=
| Begin (context : Context)
| Resume (k : nat)
| Failed (context : Context) (error : exn).

(** The [try] body of [_handle_request] up to [_enqueue_links] *)
Definition render_and_save (context : Context) : action (list Link.t) :=
  let page := page context in
  let url := Request.url (request context) in
  self ← get;
  title ← lift (title page);
  html_content ← lift (content page);
  text_content ← _extract_text_content page;
  links ← _extract_links page url;
  assets ← (if include_assets self
            then _extract_assets page url else mret []);
  lift (save_page context url title text_content html_content
          links assets);;
  lift (sleep context);;
  mret links.

(** [_handle_request] until it first suspends inside the loop; when an
    awaited call raises a [BaseException] that is no [Exception], the
    handler ends there and nothing is logged *)
Definition begin_request (context : Context) (self : WebCrawler)
  : WebCrawler * option Task :=
  let url := Request.url (request context) in
  if (page_count self >=? max_pages self)%Z
  then (fst (logger (info_limit_reached (max_pages self)) self), None)
  else
    let self := set_visited_urls ({[ url ]} ∪ visited_urls self) self in
    let self := set_page_count (page_count self + 1) self in
    let self :=
      fst (logger (info_crawling (page_count self) (max_pages self) url)
             self) in
    match render_and_save context self with
    | (self, Raise e) => (fst (logger (error_processing url e) self), None)
    | (self, RaiseBase _) => (self, None)
    | (self, Ok links) =>
        if (Request.depth (request context) >=? max_depth self)%Z
        then (self, None)
        else
          match links with
          | [] => (self, None)
          | _ => (self, Some {| context := context; pending := links |})
          end
    end.

(** One loop iteration of a suspended handler *)
Definition resume (t : Task) (self : WebCrawler)
  : WebCrawler * option Task :=
  let url := Request.url (request (context t)) in
  match pending t with
  | [] => (self, None)
  | link_data :: links =>
      match enqueue_link (context t)
              (Request.depth (request (context t))) link_data self with
      | (self, Raise e) =>
          (fst (logger (error_processing url e) self), None)
      | (self, RaiseBase _) => (self, None)
      | (self, Ok _) =>
          match links with
          | [] => (self, None)
          | _ => (self, Some {| context := context t; pending := links |})
          end
      end
  end.

Definition exec (m : Run) (ev : Event) : Run :=
  match ev with
  | Begin context =>
      if bool_decide (request context ∈ request_queue (state m)) then
        match begin_request context (state m) with
        | (self, Some t) => {| state := self; tasks := tasks m ++ [t] |}
        | (self, None) => {| state := self; tasks := tasks m |}
        end
      else m
  | Resume k =>
      match tasks m !! k with
      | None => m
      | Some t =>
          match resume t (state m) with
          | (self, Some t') => {| state := self; tasks := <[k := t']> (tasks m) |}
          | (self, None) => {| state := self; tasks := delete k (tasks m) |}
          end
      end
  | Failed context error =>
      if bool_decide (request context ∈ request_queue (state m)) then
        {| state := fst (_handle_failed_request context error (state m));
           tasks := tasks m |}
      else m
  end.

Definition run (events : list Event) (m : Run) : Run :=
  fold_left exec events m.

(** What the crawling library does in one crawl: whether it accepts
    the seed, the events of its run, and how [run()] ends *)
Record Library := {
  crawler_add_requests : Request.t -> outcome unit;
  crawler_run : list Event;
  crawler_run_result : outcome unit
}.

(** Start the crawling process *)
Definition crawl (lib : Library) : action unit :=
  (* Add the starting URL to the queue *)
  self ← get;
  let r := Request.make (start_url self) 0 in
  lift (crawler_add_requests lib r);;
  modify (fun self => set_request_queue (request_queue self ++ [r]) self);;
  (* Run the crawler *)
  modify (fun s => state (run (crawler_run lib) {| state := s; tasks := [] |}));;
  lift (crawler_run_result lib);;
  self ← get;
  logger (info_completed (page_count self)).

End WithExternals.
End Crawler.

(** ** [crawler/core/pipeline.py]: class [CrawlerPipeline] *)

Module CrawlerPipeline.
Import Crawler.

Section WithExternals.
Context `{!Externals}.

Definition __init__ (config : Config) : outcome WebCrawler :=
  Crawler.__init__ config.

(** Pre-crawl setup and validation *)
Definition _pre_crawl : action unit := logger debug_pre_crawl.

(** Post-crawl cleanup and reporting *)
Definition _post_crawl : action unit := logger debug_post_crawl.

(** Async pipeline execution *)
Definition _run_async (lib : Library) : action unit :=
  logger info_pipeline_starting;;
  (* Pre-crawl setup *)
  _pre_crawl;;
  (* Run the crawler *)
  crawl lib;;
  (* Post-crawl cleanup *)
  _post_crawl;;
  logger info_pipeline_completed.

(** Run the crawler pipeline: an [Exception] is logged and raised
    again *)
Definition run (lib : Library) : action unit :=
  try_ (_run_async lib)
    (fun e => logger (error_pipeline_failed e);; lift (Raise e)).


End WithExternals.
End CrawlerPipeline.

(** * Auxiliary definitions for the statements *)

Import PyStr Urllib URLUtils Crawler.

Open Scope list_scope.

(** The fields set once by the constructor *)
Definition same_config (s s' : WebCrawler) : Prop :=
  start_url s' = start_url s /\ max_depth s' = max_depth s
  /\ max_pages s' = max_pages s /\ follow_external s' = follow_external s
  /\ include_assets s' = include_assets s /\ base_domain s' = base_domain s.

(** [s'] differs from [s] by log records only *)
Definition same_but_log (s s' : WebCrawler) : Prop :=
  same_config s s' /\ visited_urls s' = visited_urls s
  /\ page_count s' = page_count s /\ request_queue s' = request_queue s.

(** The assets handed to the writer: those of the page when
    [include_assets] is set, none otherwise *)
Definition assets_for `{!Externals} (self : WebCrawler) (page : Page)
    (current_url : string) : outcome Assets :=
  if include_assets self
  then assets ← asset_urls page; join_assets current_url assets
  else Ok [].

(** What a crawler may become while links are enqueued: requests are
    appended to the queue, each for a URL that is not in [visited_urls],
    at depth [d]; nothing else changes but the log *)
Definition enqueued (d : Z) (s s' : WebCrawler) : Prop :=
  same_config s s' /\ visited_urls s' = visited_urls s
  /\ page_count s' = page_count s
  /\ exists added,
       request_queue s' = request_queue s ++ added
       /\ Forall (fun r => (Request.url r ∉ visited_urls s)
                           /\ Request.depth r = d) added.


(** The page counter is within its ceiling *)
Definition within_page_limit (s : WebCrawler) : Prop :=
  (page_count s <= max_pages s)%Z.

(** Every queued request is at depth [max_depth] at most, and every
    handler suspended in the enqueue loop handles a request above it *)
Definition depth_bounded (m : Run) : Prop :=
  Forall (fun r => (Request.depth r <= max_depth (state m))%Z)
    (request_queue (state m))
  /\ Forall (fun t => (Request.depth (request (context t))
                       < max_depth (state m))%Z) (tasks m).

(** The crawler once [crawl] has queued the seed *)
Definition seeded (s : WebCrawler) : WebCrawler :=
  set_request_queue (request_queue s ++ [Request.make (start_url s) 0]) s.

(** The crawler after the first lines of [_handle_request] below the
    page limit: the URL marked as visited, the page counted and logged *)
Definition counted (url : string) (s : WebCrawler) : WebCrawler :=
  set_log (log s ++ [info_crawling (page_count s + 1) (max_pages s) url])
    (set_page_count (page_count s + 1)
       (set_visited_urls ({[ url ]} ∪ visited_urls s) s)).

(** *** Strings *)

(** [c] does not occur in [s] *)
Definition lacks (c : ascii) (s : string) : bool :=
  forall_chars (fun x => negb (Ascii.eqb x c)) s.

(** The longest prefix of [s] without a character that satisfies [p],
    and the rest: how [find], [partition] and [_splitnetloc] cut a string *)
Fixpoint span (p : ascii -> bool) (s : string) : string * string :=
  match s with
  | "" => ("", "")
  | String a r =>
      if p a then ("", s) else let '(h, t) := span p r in (String a h, t)
  end.

(** The first character of a non-empty string satisfies [p] *)
Definition head_is (p : ascii -> bool) (s : string) : bool :=
  match s with
  | "" => false
  | String a _ => p a
  end.

(** [pat] occurs somewhere in [s] *)
Fixpoint occurs (pat s : string) : bool :=
  String.prefix pat s
  || match s with
     | "" => false
     | String _ r => occurs pat r
     end.

(** [s] without a leading ["www."] *)
Definition strip_www (s : string) : string :=
  if startswith s "www." then drop 4 s else s.

(** The comparison at the end of [is_same_domain] *)
Definition same_or_subdomain (host domain : string) : bool :=
  (host =? domain) || endswith host ("." +:+ domain).

(** *** The steps of [urlsplit] *)

(** The URL without leading control characters and spaces, and without
    tabs and line breaks *)
Definition clean (url : string) : string :=
  replace LF "" (replace CR "" (replace TAB ""
    (lstrip c0_control_or_space url))).

Definition split_scheme (url : string) : string * string :=
  match find ":" url with
  | Some (S i) =>
      if is_alpha (default "000"%char (String.get 0 url))
         && forall_chars scheme_char (take (S i) url)
      then (lower (take (S i) url), drop (S (S i)) url)
      else ("", url)
  | _ => ("", url)
  end.

Definition split_netloc `{!Externals} (url : string)
  : outcome (string * string) :=
  if take 2 url =? "//" then
    let '(netloc, url) := _splitnetloc url 2 in
    if (contains "[" netloc && negb (contains "]" netloc))
       || (contains "]" netloc && negb (contains "[" netloc))
    then Raise (ValueError "Invalid IPv6 URL")
    else
      _ ← (if contains "[" netloc && contains "]" netloc
           then _check_bracketed_netloc netloc else Ok tt);
      Ok (netloc, url)
  else Ok ("", url).

Definition split_at (c : ascii) (url : string) : string * string :=
  if contains c url
  then let '(u, _, f) := partition c url in (u, f)
  else (url, "").

(** A character that ends the netloc *)
Definition is_delim (c : ascii) : bool :=
  Ascii.eqb c "/" || Ascii.eqb c "?" || Ascii.eqb c "#".

(** A character of a lower-cased ASCII URL that [urlsplit] keeps *)
Definition plain_char (c : ascii) : bool :=
  is_ascii c && negb (is_upper c)
  && negb (Ascii.eqb c "009") && negb (Ascii.eqb c "013")
  && negb (Ascii.eqb c "010").

Definition plain (s : string) : bool := forall_chars plain_char s.

(** What [urlparse] returns on a lower-cased ASCII URL *)
Record well_parsed (p : ParseResult) : Prop := {
  wp_scheme :
    scheme p = ""
    \/ (head_is is_alpha (scheme p) = true
        /\ forall_chars scheme_char (scheme p) = true);
  wp_plain :
    plain (scheme p) = true /\ plain (netloc p) = true
    /\ plain (path p) = true /\ plain (params p) = true
    /\ plain (query p) = true;
  wp_netloc :
    lacks "/" (netloc p) = true /\ lacks "?" (netloc p) = true
    /\ lacks "#" (netloc p) = true
    /\ contains "]" (netloc p) = contains "[" (netloc p);
  wp_path :
    (netloc p <> "" ->
     path p = "" \/ head_is (fun c => Ascii.eqb c "/") (path p) = true)
    /\ lacks "?" (path p) = true /\ lacks "#" (path p) = true;
  wp_params :
    lacks "/" (params p) = true /\ lacks "?" (params p) = true
    /\ lacks "#" (params p) = true
    /\ (params p <> "" -> mem (scheme p) uses_params = true);
  wp_query : lacks "#" (query p) = true
}.

(** The netloc and the path that [normalize_url] puts back together *)
Definition norm_netloc (p : ParseResult) (port : option N) : option string :=
  if bool_decide (port = Some 80%N) && (scheme p =? "http")
  then hostname p
  else if bool_decide (port = Some 443%N) && (scheme p =? "https")
  then hostname p
  else Some (netloc p).

Definition norm_path (p : ParseResult) : string :=
  let path := rstrip "/" (path p) in
  if path =? "" then "/" else path.

(** A URL written out from its components, the way [urlunparse] writes
    one that has a netloc and an absolute path *)
Definition canonical (scheme netloc path params query : string) : string :=
  (if scheme =? "" then "" else scheme +:+ ":")
  +:+ "//" +:+ netloc
  +:+ ((path +:+ (if params =? "" then "" else ";" +:+ params))
       +:+ (if query =? "" then "" else "?" +:+ query)).

(** *** Concrete inputs *)

(** An instance of the library functions: every bracketed host is
    accepted, and every extracted [href] is absolute already, as the
    ones the browser reports are *)
Definition absolute_hrefs : Externals :=
  {| bracketed_host_valid := fun _ => true;
     nfkc_netloc_valid := fun _ => true;
     urljoin := fun _ url => Ok url;
     markdown_writer := fun _ => Ok tt;
     playwright_crawler := Ok tt |}.

Definition example_config : Config :=
  {| cfg_start_url := "https://example.com/";
     cfg_max_depth := Some 1%Z;
     cfg_max_pages := Some 2%Z;
     cfg_follow_external := None;
     cfg_include_assets := None |}.

Definition example_crawler : WebCrawler :=
  {| start_url := "https://example.com/";
     max_depth := 1; max_pages := 2;
     follow_external := false; include_assets := false;
     base_domain := "example.com";
     visited_urls := ∅; page_count := 0;
     request_queue := []; log := [] |}.

(** A page with three anchors, two of them for the same canonical URL *)
Definition example_page : Page :=
  {| title := Ok "Example";
     content := Ok "<html></html>";
     inner_text := Ok "Example";
     anchors := Ok [("https://example.com/a", "a");
                    ("https://example.com/a/", "a again");
                    ("https://example.org/", "elsewhere")];
     asset_urls := Ok [] |}.

Definition example_context (url : string) (depth : Z) : Context :=
  {| request := Request.make url depth;
     page := example_page;
     add_requests := fun _ => Ok tt;
     save_page := fun _ _ _ _ _ _ => Ok tt;
     sleep := Ok tt |}.

(** The same page when the writer fails *)
Definition unwritable_context : Context :=
  {| request := Request.make "https://example.com/" 0;
     page := example_page;
     add_requests := fun _ => Ok tt;
     save_page := fun _ _ _ _ _ _ => Raise (Exception "disk full");
     sleep := Ok tt |}.

(** A run in which two handlers interleave inside their enqueue loops *)
Definition example_events : list Event :=
  [Begin (example_context "https://example.com/" 0);
   Resume 0; Resume 0;
   Begin (example_context "https://example.com/a" 1);
   Resume 0;
   Begin (example_context "https://example.com/a/" 1)].



(** *** Further notions for the crawl *)

(** The test of [_enqueue_links] on the scheme of a link *)
Definition is_http (url : string) : bool :=
  startswith url "http://" || startswith url "https://".

(** A link as [_extract_links] flags it *)
Definition flagged `{!Externals} (s : WebCrawler) (l : Link.t) : Prop :=
  Link.is_external l = negb (is_same_domain (Link.url l) (base_domain s)).

(** A request that [_enqueue_links] may have queued *)
Definition in_scope `{!Externals} (s : WebCrawler) (r : Request.t) : Prop :=
  is_http (Request.url r) = true
  /\ (1 <= Request.depth r)%Z
  /\ (follow_external s = false ->
      is_same_domain (Request.url r) (base_domain s) = true).

(** The queue holds the seed and requests in scope, and the handlers
    suspended in the enqueue loop hold links flagged by [_extract_links] *)
Definition scope_kept `{!Externals} (m : Run) : Prop :=
  Forall (fun r => r = Request.make (start_url (state m)) 0
                   \/ in_scope (state m) r)
    (request_queue (state m))
  /\ Forall (fun t => (0 <= Request.depth (request (context t)))%Z
                      /\ Forall (flagged (state m)) (pending t)) (tasks m).


(** The page number that a log record announces, when it is a
    "Crawling [n/max]" record *)
Definition crawling_number (r : LogRecord) : option Z :=
  match r with
  | info_crawling n _ _ => Some n
  | _ => None
  end.

Definition crawling_numbers (l : list LogRecord) : list Z :=
  omap crawling_number l.

(** The "Crawling" records of the log number the pages 1, 2, ... up to
    [page_count] *)
Definition numbered (s : WebCrawler) : Prop :=
  (0 <= page_count s)%Z
  /\ crawling_numbers (log s) = Z.of_nat <$> seq 1 (Z.to_nat (page_count s)).

(** [s'] has the log of [s] and then records that announce no page *)
Definition logged_on (s s' : WebCrawler) : Prop :=
  exists more, log s' = log s ++ more /\ crawling_numbers more = [].

(** *** Further notions for URLs *)

(** [s] without tabs and line breaks, the way [urlsplit] removes them *)
Definition remove_unsafe (s : string) : string :=
  replace LF "" (replace CR "" (replace TAB "" s)).

(** What [urlparse] makes of the part of a URL that follows the netloc *)
Definition parse_rest (scheme netloc rest : string) : ParseResult :=
  let '(url, fragment) := split_at "#" rest in
  let '(url, query) := split_at "?" url in
  let '(url, params) :=
    if mem scheme uses_params && contains ";" url
    then _splitparams url else (url, "") in
  {| scheme := scheme; netloc := netloc; path := url; params := params;
     query := query; fragment := fragment |}.

(** A character of a host name: a letter, a digit, a dot or a hyphen *)
Definition host_char (c : ascii) : bool :=
  is_alpha c || is_digit c || Ascii.eqb c "." || Ascii.eqb c "-".

(** A character that [urlsplit] leaves in a netloc as it is: an ASCII
    character that is no control character or space, no delimiter of
    the netloc and no bracket *)
Definition netloc_char (c : ascii) : bool :=
  is_ascii c && negb (c0_control_or_space c) && negb (is_delim c)
  && negb (Ascii.eqb c "[") && negb (Ascii.eqb c "]").

(** *** Further concrete inputs *)

(** A crawler that has used up its two pages *)
Definition spent_crawler : WebCrawler :=
  set_page_count 2 (seeded example_crawler).

(** A configuration that allows no page at all *)
Definition no_budget_config : Config :=
  {| cfg_start_url := "https://example.com/";
     cfg_max_depth := None;
     cfg_max_pages := Some 0%Z;
     cfg_follow_external := None;
     cfg_include_assets := None |}.

Definition no_budget_crawler : WebCrawler :=
  {| start_url := "https://example.com/";
     max_depth := 3; max_pages := 0;
     follow_external := false; include_assets := false;
     base_domain := "example.com";
     visited_urls := ∅; page_count := 0;
     request_queue := []; log := [] |}.


(** A context in which the library refuses one URL *)
Definition refusing_context : Context :=
  {| request := Request.make "https://example.com/" 0;
     page := example_page;
     add_requests := fun r =>
       if Request.url r =? "https://example.com/b"
       then Raise (Exception "queue closed") else Ok tt;
     save_page := fun _ _ _ _ _ _ => Ok tt;
     sleep := Ok tt |}.

Definition internal_link (url : string) : Link.t :=
  {| Link.url := url; Link.text := ""; Link.is_external := false |}.

(** A page with a style sheet and two images *)
Definition page_with_assets : Page :=
  {| title := Ok "Example";
     content := Ok "<html></html>";
     inner_text := Ok "Example";
     anchors := Ok [("", "nowhere"); ("https://example.com/a", "a")];
     asset_urls := Ok [("css", ["https://example.com/s.css"]);
                       ("js", []);
                       ("images", ["https://example.com/1.png";
                                   "https://example.com/2.png"])] |}.

(** * Properties *)

(** ** The crawl controller *)

Ltac unfold_action :=
  unfold logger, modify, get, lift, try_, mbind, action_bind, mret,
    action_ret in *; cbn in *.

Section CrawlerFacts.
Context `{!Externals}.

Lemma same_config_refl s : same_config s s.
Proof. by repeat split. Qed.

Lemma same_config_trans s1 s2 s3 :
  same_config s1 s2 -> same_config s2 s3 -> same_config s1 s3.
Proof. unfold same_config. intuition congruence. Qed.

Lemma same_but_log_refl s : same_but_log s s.
Proof. repeat split. Qed.

Lemma logger_same_but_log r s : same_but_log s (fst (logger r s)).
Proof. repeat split. Qed.

(** [render_and_save] reads the page and calls the writer: the crawler
    is as it was *)
Lemma render_and_save_state context s :
  fst (render_and_save context s) = s.
Proof.
  unfold render_and_save, _extract_text_content, _extract_links,
    _extract_assets.
  unfold_action.
  destruct (title (page context)); [|done..].
  destruct (content (page context)); [|done..].
  destruct (inner_text (page context)); [|done..].
  destruct (anchors (page context)); [|done..].
  destruct (process_links _ _ _); [|done..].
  destruct (include_assets s).
  - destruct (asset_urls (page context)); [|done..].
    destruct (join_assets _ _); [|done..].
    destruct (save_page _ _ _ _ _ _ _); [|done..].
    by destruct (sleep context).
  - destruct (save_page _ _ _ _ _ _ _); [|done..].
    by destruct (sleep context).
Qed.

(** The ways one loop iteration can end: the link is skipped, the
    library refuses the request, the call of the library is interrupted,
    or the request joins the queue *)
Lemma enqueue_link_cases context d link_data s :
  enqueue_link context d link_data s = (s, Ok tt)
  \/ (exists e, enqueue_link context d link_data s = (s, Raise e))
  \/ (exists b, enqueue_link context d link_data s = (s, RaiseBase b))
  \/ ((Link.url link_data ∉ visited_urls s)
      /\ enqueue_link context d link_data s =
         (set_request_queue
            (request_queue s ++ [Request.make (Link.url link_data) (d + 1)]) s,
          Ok tt)).
Proof.
  unfold enqueue_link. unfold_action.
  case_bool_decide as Hv; [by left|].
  destruct (Link.is_external link_data && negb (follow_external s));
    [by left|].
  destruct (negb _); [by left|].
  destruct (add_requests context _) as [[]|e|b] eqn:Ha.
  - right; right; right. by split.
  - right; left. by exists e.
  - right; right; left. by exists b.
Qed.

Lemma enqueued_refl d s : enqueued d s s.
Proof.
  repeat split. exists []. split; [by rewrite app_nil_r | constructor].
Qed.

Lemma enqueued_trans d s1 s2 s3 :
  enqueued d s1 s2 -> enqueued d s2 s3 -> enqueued d s1 s3.
Proof.
  intros (Hc1 & Hv1 & Hp1 & a1 & Hq1 & Ha1) (Hc2 & Hv2 & Hp2 & a2 & Hq2 & Ha2).
  split; [by eapply same_config_trans|].
  split; [congruence|]. split; [congruence|].
  exists (a1 ++ a2). split.
  - by rewrite Hq2, Hq1, app_assoc.
  - apply Forall_app. split; [done|]. by rewrite Hv1 in Ha2.
Qed.

Lemma enqueued_log d s s' s'' :
  enqueued d s s' -> same_but_log s' s'' -> enqueued d s s''.
Proof.
  intros (Hc1 & Hv1 & Hp1 & a1 & Hq1 & Ha1) (Hc2 & Hv2 & Hp2 & Hq2).
  split; [by eapply same_config_trans|].
  split; [congruence|]. split; [congruence|].
  exists a1. split; [congruence|done].
Qed.

Lemma depth_make url d : Request.depth (Request.make url d) = d.
Proof. unfold Request.depth, Request.make. cbn. by rewrite lookup_singleton_eq. Qed.

Lemma enqueue_link_enqueued context d link_data s :
  enqueued (d + 1) s (fst (enqueue_link context d link_data s)).
Proof.
  destruct (enqueue_link_cases context d link_data s)
    as [-> | [[e ->] | [[b ->] | [Hv ->]]]]; try apply enqueued_refl.
  repeat split. eexists. split; [done|].
  constructor; [|constructor]. split; [done|]. apply depth_make.
Qed.

Lemma enqueue_loop_enqueued context d links s :
  enqueued (d + 1) s (fst (enqueue_loop context d links s)).
Proof.
  revert s. induction links as [|l links IH]; intros s; [apply enqueued_refl|].
  cbn. unfold mbind, action_bind.
  pose proof (enqueue_link_enqueued context d l s) as Hl.
  destruct (enqueue_link context d l s) as [s1 [[]|e|b]]; cbn in *; [|done..].
  eapply enqueued_trans; [done|]. apply IH.
Qed.

Lemma enqueue_links_enqueued context links current_url s :
  enqueued (Request.depth (request context) + 1) s
    (fst (_enqueue_links context links current_url s)).
Proof.
  unfold _enqueue_links. unfold_action.
  destruct (_ >=? _)%Z; [apply enqueued_refl|].
  apply enqueue_loop_enqueued.
Qed.

(** [_enqueue_links] adds nothing once the request is at [max_depth] *)
Lemma enqueue_links_at_max_depth context links current_url s :
  (max_depth s <= Request.depth (request context))%Z ->
  _enqueue_links context links current_url s = (s, Ok tt).
Proof.
  intros Hd. unfold _enqueue_links. unfold_action.
  destruct (Z.geb_spec (Request.depth (request context)) (max_depth s)); [done|lia].
Qed.

Lemma begin_request_unfold context s :
  begin_request context s =
  let url := Request.url (request context) in
  if (page_count s >=? max_pages s)%Z
  then (set_log (log s ++ [info_limit_reached (max_pages s)]) s, None)
  else
    match render_and_save context (counted url s) with
    | (s1, Raise e) => (set_log (log s1 ++ [error_processing url e]) s1, None)
    | (s1, RaiseBase _) => (s1, None)
    | (s1, Ok links) =>
        if (Request.depth (request context) >=? max_depth s1)%Z
        then (s1, None)
        else
          match links with
          | [] => (s1, None)
          | _ => (s1, Some {| context := context; pending := links |})
          end
    end.
Proof. reflexivity. Qed.

(** The first lines of the handler, up to the enqueue loop *)
Lemma begin_request_spec context s :
  let s' := fst (begin_request context s) in
  same_config s s'
  /\ request_queue s' = request_queue s
  /\ (((max_pages s <= page_count s)%Z
       /\ page_count s' = page_count s
       /\ visited_urls s' = visited_urls s
       /\ snd (begin_request context s) = None)
      \/ ((page_count s < max_pages s)%Z
          /\ page_count s' = (page_count s + 1)%Z
          /\ visited_urls s' =
             {[ Request.url (request context) ]} ∪ visited_urls s))
  /\ (forall t, snd (begin_request context s) = Some t ->
       Crawler.context t = context
       /\ (Request.depth (request context) < max_depth s)%Z).
Proof.
  unfold begin_request.
  destruct (Z.geb_spec (page_count s) (max_pages s)) as [Hge|Hlt]; cbn.
  { split_and!; [done..| |done]. left. split_and!; [lia|done..]. }
  match goal with
  | |- context [render_and_save context ?s1] =>
      pose proof (render_and_save_state context s1) as Hr;
      destruct (render_and_save context s1) as [s2 [links|e|b]]
  end; cbn in Hr; subst s2; cbn.
  - destruct (Z.geb_spec (Request.depth (request context)) (max_depth s))
      as [Hd|Hd]; cbn.
    { split_and!; [done..| |done]. right. split_and!; [lia|done..]. }
    destruct links as [|l links]; cbn.
    { split_and!; [done..| |done]. right. split_and!; [lia|done..]. }
    split_and!; [done..| |].
    + right. split_and!; [lia|done..].
    + intros t [= <-]. done.
  - split_and!; [done..| |done]. right. split_and!; [lia|done..].
  - split_and!; [done..| |done]. right. split_and!; [lia|done..].
Qed.

(** One loop iteration of a suspended handler *)
Lemma resume_spec t s :
  enqueued (Request.depth (request (context t)) + 1) s (fst (resume t s))
  /\ (forall t', snd (resume t s) = Some t' -> context t' = context t).
Proof.
  unfold resume. destruct (pending t) as [|l links]; cbn.
  { split; [apply enqueued_refl | done]. }
  pose proof (enqueue_link_enqueued (context t)
                (Request.depth (request (context t))) l s) as Hl.
  destruct (enqueue_link _ _ l s) as [s1 [[]|e|b]]; cbn in *.
  - destruct links; cbn; (split; [done|]); [done|]. by intros t' [= <-].
  - split; [|done..]. eapply enqueued_log; [done|]. apply logger_same_but_log.
  - by split.
Qed.

(** No event changes what the constructor has set *)
Lemma exec_same_config m ev : same_config (state m) (state (exec m ev)).
Proof.
  destruct ev as [context|k|context error]; cbn.
  - case_bool_decide; [|apply same_config_refl].
    pose proof (begin_request_spec context (state m)) as (Hc & _).
    by destruct (begin_request context (state m)) as [s' [t|]].
  - destruct (tasks m !! k) as [t|]; [|apply same_config_refl].
    pose proof (resume_spec t (state m)) as ((Hc & _) & _).
    by destruct (resume t (state m)) as [s' [t'|]].
  - case_bool_decide; by repeat split.
Qed.

Lemma run_same_config events m : same_config (state m) (state (run events m)).
Proof.
  revert m. induction events as [|ev events IH]; intros m;
    [apply same_config_refl|].
  cbn. eapply same_config_trans; [apply exec_same_config | apply IH].
Qed.

(** *** The page counter *)

Lemma exec_within_page_limit m ev :
  within_page_limit (state m) -> within_page_limit (state (exec m ev)).
Proof.
  unfold within_page_limit. intros Hm.
  destruct ev as [context|k|context error]; cbn.
  - case_bool_decide; [|done..].
    pose proof (begin_request_spec context (state m))
      as ((_ & _ & Hmax & _) & _ & Hcases & _).
    destruct (begin_request context (state m)) as [s' [t|]]; cbn in *;
      rewrite Hmax; destruct Hcases as [(_ & -> & _)|(? & -> & _)]; lia.
  - destruct (tasks m !! k) as [t|]; [|done..].
    pose proof (resume_spec t (state m))
      as (((_ & _ & Hmax & _) & _ & Hp & _) & _).
    destruct (resume t (state m)) as [s' [t'|]]; cbn in *; lia.
  - case_bool_decide; done.
Qed.

Lemma run_within_page_limit events m :
  within_page_limit (state m) -> within_page_limit (state (run events m)).
Proof.
  revert m. induction events as [|ev events IH]; intros m Hm; [done|].
  cbn. apply IH. by apply exec_within_page_limit.
Qed.

(** The handler as the source has it, run from its first line to its
    last without interruption: the part up to [_enqueue_links] raises
    an [Exception], and the error is logged, or another
    [BaseException], which is passed on, or hands its links to the
    loop *)
Lemma handle_request_unfold context s :
  _handle_request context s =
  let url := Request.url (request context) in
  if (page_count s >=? max_pages s)%Z
  then logger (info_limit_reached (max_pages s)) s
  else
    match render_and_save context (counted url s) with
    | (_, Raise e) => logger (error_processing url e) (counted url s)
    | (_, RaiseBase b) => (counted url s, RaiseBase b)
    | (_, Ok links) =>
        try_ (_enqueue_links context links url)
          (fun e => logger (error_processing url e)) (counted url s)
    end.
Proof.
  unfold _handle_request, render_and_save, _extract_text_content,
    _extract_links, _extract_assets, counted.
  unfold_action.
  destruct (page_count s >=? max_pages s)%Z; [done|].
  destruct (title (page context)); [|done..].
  destruct (content (page context)); [|done..].
  destruct (inner_text (page context)); [|done..].
  destruct (anchors (page context)); [|done..].
  destruct (process_links _ _ _); [|done..].
  destruct (include_assets s).
  - destruct (asset_urls (page context)); [|done..].
    destruct (join_assets _ _); [|done..].
    destruct (save_page _ _ _ _ _ _ _); [|done..].
    by destruct (sleep context).
  - destruct (save_page _ _ _ _ _ _ _); [|done..].
    by destruct (sleep context).
Qed.

(** The handler never lets an [Exception] out, and leaves a crawler
    that differs from the one after its first lines by queued links and
    log records *)
Lemma handle_request_spec context s :
  (forall e, snd (_handle_request context s) <> Raise e)
  /\ (((max_pages s <= page_count s)%Z
       /\ same_but_log s (fst (_handle_request context s)))
      \/ ((page_count s < max_pages s)%Z
          /\ enqueued (Request.depth (request context) + 1)
               (counted (Request.url (request context)) s)
               (fst (_handle_request context s)))).
Proof.
  rewrite handle_request_unfold. cbn zeta.
  destruct (Z.geb_spec (page_count s) (max_pages s)) as [Hge|Hlt].
  { split; [done|]. left. split; [lia|]. apply logger_same_but_log. }
  set (s1 := counted _ s).
  destruct (render_and_save context s1) as [s2 [links|e|b]].
  - unfold try_.
    pose proof (enqueue_links_enqueued context links
                  (Request.url (request context)) s1) as He.
    destruct (_enqueue_links context links _ s1) as [s3 [[]|e|b]]; cbn in *.
    + split; [done|]. right. by split.
    + split; [done|]. right. split; [done|].
      eapply enqueued_log; [done|]. apply logger_same_but_log.
    + split; [done|]. right. by split.
  - split; [done|]. right. split; [done|].
    eapply enqueued_log; [apply enqueued_refl|]. apply logger_same_but_log.
  - split; [done|]. right. split; [done|]. apply enqueued_refl.
Qed.

Lemma handle_request_within_page_limit context s :
  within_page_limit s -> within_page_limit (fst (_handle_request context s)).
Proof.
  unfold within_page_limit. intros Hs.
  destruct (handle_request_spec context s)
    as (_ & [(_ & (_ & _ & Hm & _) & _ & Hp & _)
            |(Hlt & (_ & _ & Hm & _) & _ & Hp & _)]).
  - lia.
  - rewrite Hp, Hm. cbn. lia.
Qed.

(** *** The depth of queued requests *)

Lemma exec_depth_bounded m ev : depth_bounded m -> depth_bounded (exec m ev).
Proof.
  unfold depth_bounded. intros [Hq Ht].
  pose proof (exec_same_config m ev) as (_ & Hd & _). rewrite Hd. clear Hd.
  destruct ev as [context|k|context error]; cbn.
  - case_bool_decide; [|done..].
    pose proof (begin_request_spec context (state m))
      as (_ & Hqueue & _ & Htask).
    destruct (begin_request context (state m)) as [s' [t|]]; cbn in *;
      rewrite Hqueue; (split; [done|]); [|done..].
    apply Forall_app. split; [done|]. constructor; [|constructor].
    destruct (Htask t eq_refl) as [-> ?]. done.
  - destruct (tasks m !! k) as [t|] eqn:Hk; [|done..].
    pose proof (resume_spec t (state m))
      as ((_ & _ & _ & added & Hqueue & Hadded) & Htask).
    assert (Request.depth (request (context t)) < max_depth (state m))%Z
      as Hlt by (eapply (Forall_lookup_1 _ _ _ _ Ht); done).
    assert (Forall (fun r => (Request.depth r <= max_depth (state m))%Z)
              (request_queue (state m) ++ added)) as Hq'.
    { apply Forall_app. split; [done|].
      eapply Forall_impl; [done|]. cbn. intros r [_ ->]. lia. }
    destruct (resume t (state m)) as [s' [t'|]]; cbn in *;
      rewrite Hqueue; (split; [done|]).
    + apply Forall_insert; [done|]. by rewrite (Htask t' eq_refl).
    + by apply Forall_delete.
  - case_bool_decide; done.
Qed.

Lemma run_depth_bounded events m : depth_bounded m -> depth_bounded (run events m).
Proof.
  revert m. induction events as [|ev events IH]; intros m Hm; [done|].
  cbn. apply IH. by apply exec_depth_bounded.
Qed.

(** What the constructor leaves *)
Lemma init_spec config crawler :
  __init__ config = Ok crawler ->
  start_url crawler = cfg_start_url config
  /\ max_depth crawler = default 3%Z (cfg_max_depth config)
  /\ max_pages crawler = default 100%Z (cfg_max_pages config)
  /\ visited_urls crawler = ∅
  /\ page_count crawler = 0%Z
  /\ request_queue crawler = []
  /\ log crawler = [].
Proof.
  unfold __init__, _setup_crawler. destruct (urlparse _); cbn; [|done..].
  destruct (markdown_writer _); cbn; [|done..].
  destruct playwright_crawler; cbn; [|done..].
  by intros [= <-].
Qed.


End CrawlerFacts.

(** *** The handler as a sequence of events *)

Section HandlerAsEvents.
Context `{!Externals}.

Lemma resume_loop context links s ts :
  links <> [] ->
  exists n,
    run (replicate n (Resume (List.length ts)))
      {| state := s;
         tasks := ts ++ [{| context := context; pending := links |}] |}
    = {| state :=
           fst (try_ (enqueue_loop context
                        (Request.depth (request context)) links)
                  (fun e => logger (error_processing
                                      (Request.url (request context)) e)) s);
         tasks := ts |}.
Proof.
  revert s. induction links as [|l links IH]; intros s Hne; [done|].
  set (t := {| context := context; pending := l :: links |}).
  assert ((ts ++ [t]) !! List.length ts = Some t) as Hk
    by (rewrite lookup_app_r, Nat.sub_diag; done).
  assert (delete (List.length ts) (ts ++ [t]) = ts) as Hdel.
  { rewrite delete_take_drop, take_app_length, drop_ge, app_nil_r;
      [done | rewrite length_app; cbn; lia]. }
  subst t.
  destruct (enqueue_link context (Request.depth (request context)) l s)
    as [s1 [[]|e|b]] eqn:Hl.
  - destruct links as [|l' links].
    + exists 1%nat. cbn [replicate run fold_left exec state tasks].
      rewrite Hk. unfold resume. cbn [pending Crawler.context]. rewrite Hl.
      cbn [state tasks]. rewrite Hdel. f_equal.
      unfold try_. cbn [enqueue_loop]. unfold mbind, action_bind.
      by rewrite Hl.
    + destruct (IH s1) as [n Hn]; [done|].
      exists (S n). cbn [replicate run fold_left exec state tasks]. rewrite Hk.
      unfold resume. cbn [pending Crawler.context]. rewrite Hl.
      cbn [state tasks].
      assert (<[List.length ts := {| context := context; pending := l' :: links |}]>
                (ts ++ [{| context := context; pending := l :: l' :: links |}])
              = ts ++ [{| context := context; pending := l' :: links |}])
        as -> by (rewrite insert_app_r_alt, Nat.sub_diag; done).
      unfold run in Hn. rewrite Hn. f_equal.
      unfold try_. cbn [enqueue_loop]. unfold mbind, action_bind.
      by rewrite Hl.
  - exists 1%nat. cbn [replicate run fold_left exec state tasks].
    rewrite Hk. unfold resume. cbn [pending Crawler.context]. rewrite Hl.
    cbn [state tasks fst]. rewrite Hdel. f_equal.
    unfold try_. cbn [enqueue_loop]. unfold mbind, action_bind.
    by rewrite Hl.
  - exists 1%nat. cbn [replicate run fold_left exec state tasks].
    rewrite Hk. unfold resume. cbn [pending Crawler.context]. rewrite Hl.
    cbn [state tasks fst]. rewrite Hdel. f_equal.
    unfold try_. cbn [enqueue_loop]. unfold mbind, action_bind.
    by rewrite Hl.
Qed.

(** [_handle_request], run without interruption, is the event [Begin]
    followed by the loop iterations of the task it leaves *)
Lemma handle_request_as_events context s ts :
  request context ∈ request_queue s ->
  exists n,
    run (Begin context :: replicate n (Resume (List.length ts)))
      {| state := s; tasks := ts |}
    = {| state := fst (_handle_request context s); tasks := ts |}.
Proof.
  intros Hin.
  rewrite handle_request_unfold. cbn zeta.
  cbn [run fold_left exec state tasks]. rewrite bool_decide_true by done.
  unfold begin_request.
  destruct (page_count s >=? max_pages s)%Z; [by exists 0%nat|].
  fold (counted (Request.url (request context)) s).
  pose proof (render_and_save_state context
                (counted (Request.url (request context)) s)) as Hr.
  destruct (render_and_save context _) as [s1 [links|e|b]]; cbn in Hr;
    subst s1; [|by exists 0%nat..].
  unfold _enqueue_links. unfold try_ at 1. unfold_action.
  destruct (Request.depth (request context) >=? _)%Z; [by exists 0%nat|].
  destruct links as [|l links]; [by exists 0%nat|].
  destruct (resume_loop context (l :: links)
              (counted (Request.url (request context)) s) ts) as [n Hn]; [done|].
  exists n. unfold run in Hn. rewrite Hn. f_equal.
Qed.

End HandlerAsEvents.

(** *** What the controller guarantees *)

Section CrawlerClaims.
Context `{!Externals}.

(** The queue only grows, at its end *)
Lemma exec_queue_grows m ev :
  exists added,
    request_queue (state (exec m ev)) = request_queue (state m) ++ added.
Proof.
  destruct ev as [context|k|context error]; cbn.
  - case_bool_decide; [|exists []; by rewrite app_nil_r].
    pose proof (begin_request_spec context (state m)) as (_ & Hq & _).
    exists []. rewrite app_nil_r.
    by destruct (begin_request context (state m)) as [s' [t|]].
  - destruct (tasks m !! k) as [t|]; [|exists []; by rewrite app_nil_r].
    pose proof (resume_spec t (state m))
      as ((_ & _ & _ & added & Hq & _) & _).
    exists added. by destruct (resume t (state m)) as [s' [t'|]].
  - exists []. rewrite app_nil_r. by case_bool_decide.
Qed.


(** C2.  At every observation point of a crawl run the count of visited
    pages is at most [max_pages]: the crawler is constructed with a
    ceiling that is not negative, the seed is queued, and whatever events
    the library then performs, handlers interleaving in any way,
    [page_count] stays within the ceiling. *)
Theorem page_count_never_exceeds_max_pages config crawler events :
  __init__ config = Ok crawler ->
  (0 <= max_pages crawler)%Z ->
  (page_count (state (run events {| state := seeded crawler; tasks := [] |}))
   <= max_pages crawler)%Z.
Proof.
  intros Hinit Hmax.
  destruct (init_spec _ _ Hinit) as (_ & _ & _ & _ & Hp & _).
  set (m0 := {| state := seeded crawler; tasks := [] |}).
  pose proof (run_same_config events m0) as (_ & _ & Hm & _).
  pose proof (run_within_page_limit events m0) as Hinv.
  unfold within_page_limit in Hinv. cbn in Hinv, Hm.
  rewrite <- Hm. apply Hinv. lia.
Qed.

(** C3.  Every request ever admitted to the queue is at depth
    [max_depth] at most: the seed is admitted at depth 0, a link found
    on a page at depth [d] is admitted at depth [d + 1] and only when
    [d < max_depth], so that, for a [max_depth] that is not negative, no
    request deeper than [max_depth] is in the queue at any point of any
    run. *)
Theorem admitted_depth_bounded config crawler events r :
  __init__ config = Ok crawler ->
  (0 <= max_depth crawler)%Z ->
  r ∈ request_queue
        (state (run events {| state := seeded crawler; tasks := [] |})) ->
  (Request.depth r <= max_depth crawler)%Z.
Proof.
  intros Hinit Hmax Hr.
  destruct (init_spec _ _ Hinit) as (_ & _ & _ & _ & _ & Hq & _).
  set (m0 := {| state := seeded crawler; tasks := [] |}) in *.
  pose proof (run_same_config events m0) as (_ & Hd & _).
  assert (depth_bounded m0) as H0.
  { split; [|constructor]. cbn. rewrite Hq. cbn.
    constructor; [|constructor]. by rewrite depth_make. }
  destruct (run_depth_bounded events m0 H0) as [Hall _].
  rewrite Forall_forall in Hall. specialize (Hall r Hr).
  cbn in Hd. by rewrite <- Hd.
Qed.

(** C1, as the code has it.  A URL enters [visited_urls] when its
    request is handled, not when it is admitted.  At every step of a
    run, handlers interleaving in any way: a handler that begins adds
    the URL of its own request to [visited_urls], if the request is
    queued and the page limit not reached, and queues nothing; one
    iteration of the enqueue loop of a suspended handler leaves
    [visited_urls] as it is and admits at most one request, for a URL
    string that is not in [visited_urls] at that step; the handler of a
    failed request changes neither. *)
Theorem seen_when_handled_not_when_admitted m ev :
  let s := state m in
  let s' := state (exec m ev) in
  match ev with
  | Begin context =>
      request_queue s' = request_queue s
      /\ visited_urls s'
         = (if bool_decide (request context ∈ request_queue s)
               && (page_count s <? max_pages s)%Z
            then {[ Request.url (request context) ]} ∪ visited_urls s
            else visited_urls s)
  | Resume k =>
      visited_urls s' = visited_urls s
      /\ exists added,
           request_queue s' = request_queue s ++ added
           /\ (List.length added <= 1)%nat
           /\ Forall (fun r => Request.url r ∉ visited_urls s') added
  | Failed _ _ =>
      visited_urls s' = visited_urls s /\ request_queue s' = request_queue s
  end.
Proof.
  destruct ev as [context|k|context error]; cbn.
  - case_bool_decide; cbn [andb]; [|done].
    pose proof (begin_request_spec context (state m)) as (_ & Hq & Hc & _).
    destruct (begin_request context (state m)) as [s' [t|]]; cbn in *;
      (split; [done|]);
      destruct Hc as [(Hge & _ & -> & _)|(Hlt & _ & ->)];
      (destruct (Z.ltb_spec (page_count (state m)) (max_pages (state m)));
       [done || lia|done || lia]).
  - destruct (tasks m !! k) as [t|];
      [|split; [done|]; exists []; rewrite app_nil_r;
       split_and!; [done|cbn; lia|done]].
    assert (visited_urls (fst (resume t (state m))) = visited_urls (state m)
            /\ exists added,
                 request_queue (fst (resume t (state m)))
                 = request_queue (state m) ++ added
                 /\ (List.length added <= 1)%nat
                 /\ Forall (fun r => Request.url r ∉ visited_urls (state m))
                      added) as (Hv & added & Hq & Hlen & Hadded).
    { unfold resume. destruct (pending t) as [|l links]; cbn.
      { split; [done|]. exists []. rewrite app_nil_r.
        split_and!; [done|cbn; lia|done]. }
      destruct (enqueue_link_cases (context t)
                  (Request.depth (request (context t))) l (state m))
        as [-> | [[e ->] | [[b ->] | [Hv ->]]]]; cbn.
      - split; [by destruct links|]. exists []. rewrite app_nil_r.
        split_and!; [by destruct links|cbn; lia|done].
      - split; [done|]. exists []. rewrite app_nil_r.
        split_and!; [done|cbn; lia|done].
      - split; [done|]. exists []. rewrite app_nil_r.
        split_and!; [done|cbn; lia|done].
      - split; [by destruct links|]. eexists [_].
        split; [by destruct links|]. split; [cbn; lia|].
        by constructor. }
    destruct (resume t (state m)) as [s' [t'|]]; cbn in *;
      (split; [done|]); exists added; by rewrite Hv.
  - by case_bool_decide.
Qed.

(** C8.  When the page was rendered and its links extracted but the
    writer fails, the handler returns normally: the page has been
    counted once, the failure is in the log, nothing was queued; and the
    run goes on with the events that follow. *)
Theorem persistence_failure_is_counted_and_logged
    context s t h x a links assets e :
  let url := Request.url (request context) in
  let s' := set_log (log (counted url s) ++ [error_processing url e])
              (counted url s) in
  (page_count s < max_pages s)%Z ->
  title (page context) = Ok t ->
  content (page context) = Ok h ->
  inner_text (page context) = Ok x ->
  anchors (page context) = Ok a ->
  process_links (base_domain s) url a = Ok links ->
  assets_for s (page context) url = Ok assets ->
  save_page context url t x h links assets = Raise e ->
  _handle_request context s = (s', Ok tt)
  /\ page_count s' = (page_count s + 1)%Z
  /\ request_queue s' = request_queue s
  /\ forall m events,
       state m = s -> request context ∈ request_queue s ->
       run (Begin context :: events) m
       = run events {| state := s'; tasks := tasks m |}.
Proof.
  intros url s' Hlt Ht Hc Hx Ha Hl Has Hsave. subst s' url.
  set (url := Request.url (request context)) in *.
  assert (render_and_save context (counted url s) = (counted url s, Raise e))
    as Hr.
  { unfold render_and_save, _extract_text_content, _extract_links,
      _extract_assets. unfold_action. fold url.
    rewrite Ht, Hc, Hx, Ha, Hl.
    unfold assets_for in Has. cbn in Has. unfold mbind, outcome_bind in Has.
    destruct (include_assets s).
    - destruct (asset_urls (page context)); [|done..].
      destruct (join_assets url a0); [|done..].
      injection Has as ->. by rewrite Hsave.
    - injection Has as <-. by rewrite Hsave. }
  split_and!; [|done..|].
  - rewrite handle_request_unfold. cbn zeta. fold url.
    destruct (Z.geb_spec (page_count s) (max_pages s)); [lia|].
    by rewrite Hr.
  - intros m events Hm Hin. cbn [run fold_left exec].
    rewrite Hm, bool_decide_true by done.
    rewrite begin_request_unfold. cbn zeta. fold url.
    destruct (Z.geb_spec (page_count s) (max_pages s)); [lia|].
    by rewrite Hr.
Qed.


End CrawlerClaims.

(** *** The statements at concrete inputs *)

Lemma page_count_never_exceeds_max_pages_witness :
  (0 <= max_pages example_crawler)%Z
  /\ (page_count
        (state (@run absolute_hrefs example_events
                  {| state := seeded example_crawler; tasks := [] |}))
      <= max_pages example_crawler)%Z.
Proof.
  split; [cbn; lia|].
  apply (@page_count_never_exceeds_max_pages absolute_hrefs example_config).
  - vm_compute. reflexivity.
  - cbn. lia.
Defined.

Lemma admitted_depth_bounded_witness :
  (Request.depth (Request.make "https://example.com/a/" 1)
   <= max_depth example_crawler)%Z.
Proof.
  apply (@admitted_depth_bounded absolute_hrefs example_config example_crawler
           example_events).
  - vm_compute. reflexivity.
  - cbn. lia.
  - apply (bool_decide_unpack _). vm_compute. exact I.
Defined.

Lemma persistence_failure_is_counted_and_logged_witness :
  page_count
    (fst (@_handle_request absolute_hrefs unwritable_context
            (seeded example_crawler))) = 1%Z
  /\ snd (@_handle_request absolute_hrefs unwritable_context
            (seeded example_crawler)) = Ok tt.
Proof.
  destruct (@persistence_failure_is_counted_and_logged absolute_hrefs
              unwritable_context (seeded example_crawler)
              "Example" "<html></html>" "Example"
              [("https://example.com/a", "a");
               ("https://example.com/a/", "a again");
               ("https://example.org/", "elsewhere")]
              [{| Link.url := "https://example.com/a"; Link.text := "a";
                  Link.is_external := false |};
               {| Link.url := "https://example.com/a/";
                  Link.text := "a again"; Link.is_external := false |};
               {| Link.url := "https://example.org/";
                  Link.text := "elsewhere"; Link.is_external := true |}]
              [] (Exception "disk full")) as (Heq & Hcount & _).
  - cbn. lia.
  - reflexivity.
  - reflexivity.
  - reflexivity.
  - reflexivity.
  - vm_compute. reflexivity.
  - reflexivity.
  - reflexivity.
  - rewrite Heq. split; [exact Hcount | reflexivity].
Defined.

(** C1 as stated fails: two links whose URLs normalize to the same
    string are both admitted by one handler invocation, and neither is in
    [visited_urls] afterwards. *)
Lemma same_canonical_url_admitted_twice :
  let context := example_context "https://example.com/" 0 in
  let s' := fst (@_handle_request absolute_hrefs context
                   (seeded example_crawler)) in
  @normalize_url absolute_hrefs "https://example.com/a"
  = @normalize_url absolute_hrefs "https://example.com/a/"
  /\ request_queue s'
     = [Request.make "https://example.com/" 0;
        Request.make "https://example.com/a" 1;
        Request.make "https://example.com/a/" 1]
  /\ bool_decide ("https://example.com/a" ∈ visited_urls s') = false
  /\ bool_decide ("https://example.com/a/" ∈ visited_urls s') = false.
Proof. vm_compute. done. Qed.


(** ** Strings *)

(** Let the reduction tactics unfold [+:+] on a string that starts with a
    known character *)
Arguments String.append !_ _ / : simpl nomatch.

Section Strings.
Implicit Types (s a b : string) (c : ascii) (P Q : ascii -> bool).

Lemma append_nil_r s : s +:+ "" = s.
Proof. induction s as [|x s IH]; cbn; [done|]. by rewrite IH. Qed.

Lemma append_assoc a b s : (a +:+ b) +:+ s = a +:+ (b +:+ s).
Proof. induction a as [|x a IH]; cbn; [done|]. by rewrite IH. Qed.

Lemma length_append a b :
  String.length (a +:+ b) = (String.length a + String.length b)%nat.
Proof. induction a as [|x a IH]; cbn; [done|]. by rewrite IH. Qed.

Lemma eqb_empty s : (s =? "") = true <-> s = "".
Proof. apply String.eqb_eq. Qed.

Lemma eqb_empty_false s : (s =? "") = false <-> s <> "".
Proof. apply String.eqb_neq. Qed.

(** *** [take] and [drop] *)

Lemma str_take_drop n s : take n s +:+ drop n s = s.
Proof.
  revert s. induction n as [|n IH]; intros [|x s]; cbn; try done.
  by rewrite IH.
Qed.

Lemma take_append_length a b : take (String.length a) (a +:+ b) = a.
Proof. induction a as [|x a IH]; cbn; [by destruct b|]. by rewrite IH. Qed.

Lemma drop_append_length a b : drop (String.length a) (a +:+ b) = b.
Proof. induction a as [|x a IH]; cbn; [by destruct b|]. done. Qed.

Lemma drop_append_cons a c b : drop (S (String.length a)) (a +:+ String c b) = b.
Proof. induction a as [|x a IH]; cbn; [by destruct b|]. done. Qed.

Lemma drop_append_le n a b :
  (n <= String.length a)%nat -> drop n (a +:+ b) = drop n a +:+ b.
Proof.
  revert a. induction n as [|n IH]; intros [|x a] Hn; cbn in *;
    try done; try (by destruct b); try lia.
  apply IH. lia.
Qed.

Lemma str_length_drop n s : String.length (drop n s) = (String.length s - n)%nat.
Proof.
  revert s. induction n as [|n IH]; intros [|x s]; cbn; try done; lia.
Qed.

Lemma str_drop_0 s : drop 0 s = s.
Proof. by destruct s. Qed.

Lemma str_drop_drop n m s : drop m (drop n s) = drop (n + m) s.
Proof.
  revert s. induction n as [|n IH]; intros s; [by rewrite str_drop_0|].
  destruct s as [|x s]; [by destruct m|]. apply IH.
Qed.

Lemma str_take_add n m s : take (n + m) s = take n s +:+ take m (drop n s).
Proof.
  revert s. induction n as [|n IH]; intros s; [by rewrite str_drop_0|].
  destruct s as [|x s]; cbn; [by destruct m|]. by rewrite IH.
Qed.

Lemma str_take_all s : take (String.length s) s = s.
Proof. induction s as [|x s IH]; cbn; [done|]. by rewrite IH. Qed.

Lemma str_drop_all s : drop (String.length s) s = "".
Proof. induction s as [|x s IH]; cbn; done. Qed.

(** *** Strings of characters that satisfy a predicate *)

Lemma forall_chars_append P a b :
  forall_chars P (a +:+ b) = forall_chars P a && forall_chars P b.
Proof.
  induction a as [|x a IH]; cbn; [done|]. by rewrite IH, andb_assoc.
Qed.

Lemma forall_chars_impl P Q s :
  (forall c, P c = true -> Q c = true) ->
  forall_chars P s = true -> forall_chars Q s = true.
Proof.
  intros HPQ. induction s as [|x s IH]; cbn; [done|].
  intros [Hx Hs]%andb_true_iff. rewrite (HPQ _ Hx). by apply IH.
Qed.

Lemma forall_chars_and P Q s :
  forall_chars P s = true -> forall_chars Q s = true ->
  forall_chars (fun c => P c && Q c) s = true.
Proof.
  induction s as [|x s IH]; cbn; [done|].
  intros [-> ?]%andb_true_iff [-> ?]%andb_true_iff. cbn. by apply IH.
Qed.

Lemma forall_chars_take P n s :
  forall_chars P s = true -> forall_chars P (take n s) = true.
Proof.
  intros Hs. rewrite <- (str_take_drop n s), forall_chars_append in Hs.
  by apply andb_true_iff in Hs as [? _].
Qed.

Lemma forall_chars_drop P n s :
  forall_chars P s = true -> forall_chars P (drop n s) = true.
Proof.
  intros Hs. rewrite <- (str_take_drop n s), forall_chars_append in Hs.
  by apply andb_true_iff in Hs as [_ ?].
Qed.

(** *** [lower] *)

Lemma lower_char_idem c : lower_char (lower_char c) = lower_char c.
Proof. by destruct c as [[] [] [] [] [] [] [] []]. Qed.

Lemma lower_char_not_upper c : is_upper (lower_char c) = false.
Proof. by destruct c as [[] [] [] [] [] [] [] []]. Qed.

Lemma lower_char_fixed c : is_upper c = false -> lower_char c = c.
Proof. unfold lower_char. by intros ->. Qed.

Lemma lower_char_ascii c : is_ascii c = true -> is_ascii (lower_char c) = true.
Proof. by destruct c as [[] [] [] [] [] [] [] []]. Qed.

Lemma lower_idem s : lower (lower s) = lower s.
Proof.
  induction s as [|x s IH]; cbn; [done|]. by rewrite lower_char_idem, IH.
Qed.

Lemma lower_append a b : lower (a +:+ b) = lower a +:+ lower b.
Proof. induction a as [|x a IH]; cbn; [done|]. by rewrite IH. Qed.

Lemma lower_fixed s :
  forall_chars (fun c => negb (is_upper c)) s = true -> lower s = s.
Proof.
  induction s as [|x s IH]; cbn; [done|].
  intros [Hx Hs]%andb_true_iff.
  rewrite lower_char_fixed, IH; [done..|]. by destruct (is_upper x).
Qed.

Lemma lower_not_upper s :
  forall_chars (fun c => negb (is_upper c)) (lower s) = true.
Proof.
  induction s as [|x s IH]; cbn; [done|].
  by rewrite lower_char_not_upper, IH.
Qed.

Lemma lower_forall_chars P s :
  (forall c, P c = true -> P (lower_char c) = true) ->
  forall_chars P s = true -> forall_chars P (lower s) = true.
Proof.
  intros HP. induction s as [|x s IH]; cbn; [done|].
  intros [Hx Hs]%andb_true_iff. by rewrite (HP _ Hx), IH.
Qed.

(** *** [span], and [find], [contains], [partition] through it *)

Lemma span_spec P s :
  s = fst (span P s) +:+ snd (span P s)
  /\ forall_chars (fun c => negb (P c)) (fst (span P s)) = true
  /\ (snd (span P s) = "" \/ head_is P (snd (span P s)) = true).
Proof.
  induction s as [|x s (IH1 & IH2 & IH3)]; cbn; [by auto|].
  destruct (P x) eqn:Hx; cbn; [by rewrite Hx; auto|].
  destruct (span P s) as [h t]; cbn in *. rewrite Hx. cbn.
  split; [by rewrite <- IH1|]. done.
Qed.

Lemma span_append_stop P a c b :
  forall_chars (fun x => negb (P x)) a = true -> P c = true ->
  span P (a +:+ String c b) = (a, String c b).
Proof.
  intros Ha Hc. induction a as [|x a IH]; cbn in *; [by rewrite Hc|].
  apply andb_true_iff in Ha as [Hx Ha]. apply negb_true_iff in Hx.
  by rewrite Hx, IH.
Qed.

Lemma span_all P a :
  forall_chars (fun x => negb (P x)) a = true -> span P a = (a, "").
Proof.
  intros Ha. induction a as [|x a IH]; cbn in *; [done|].
  apply andb_true_iff in Ha as [Hx Ha]. apply negb_true_iff in Hx.
  by rewrite Hx, IH.
Qed.

Lemma find_span c s :
  find c s =
  match snd (span (fun x => Ascii.eqb x c) s) with
  | "" => None
  | _ => Some (String.length (fst (span (fun x => Ascii.eqb x c) s)))
  end.
Proof.
  induction s as [|x s IH]; cbn; [done|].
  destruct (Ascii.eqb x c); cbn; [done|]. rewrite IH.
  by destruct (span _ s) as [h [|y t]].
Qed.

Lemma take_span P s :
  take (String.length (fst (span P s))) s = fst (span P s).
Proof.
  destruct (span_spec P s) as (Hs & _). rewrite Hs at 2.
  apply take_append_length.
Qed.

Lemma drop_span P s :
  drop (String.length (fst (span P s))) s = snd (span P s).
Proof.
  destruct (span_spec P s) as (Hs & _). rewrite Hs at 2.
  apply drop_append_length.
Qed.

Lemma partition_span c s :
  partition c s =
  match span (fun x => Ascii.eqb x c) s with
  | (h, "") => (h, false, "")
  | (h, String _ t) => (h, true, t)
  end.
Proof.
  unfold partition. rewrite find_span.
  pose proof (take_span (fun x => Ascii.eqb x c) s) as Ht.
  pose proof (drop_span (fun x => Ascii.eqb x c) s) as Hd.
  destruct (span_spec (fun x => Ascii.eqb x c) s) as (Hs & _).
  destruct (span _ s) as [h [|y t]]; cbn in *.
  - rewrite append_nil_r in Hs. by rewrite <- Hs.
  - rewrite Ht. f_equal. rewrite Hs. apply drop_append_cons.
Qed.

Lemma contains_lacks c s : contains c s = negb (lacks c s).
Proof.
  unfold contains, lacks. induction s as [|x s IH]; cbn; [done|].
  destruct (Ascii.eqb x c); cbn; [done|].
  rewrite <- IH. by destruct (find c s).
Qed.

Lemma lacks_append c a b : lacks c (a +:+ b) = lacks c a && lacks c b.
Proof. apply forall_chars_append. Qed.

Lemma lacks_take c n s : lacks c s = true -> lacks c (take n s) = true.
Proof. apply forall_chars_take. Qed.

Lemma lacks_drop c n s : lacks c s = true -> lacks c (drop n s) = true.
Proof. apply forall_chars_drop. Qed.

(** [partition] cuts at the first occurrence *)
Lemma partition_spec c s :
  let '(h, found, t) := partition c s in
  lacks c h = true
  /\ (if found then s = h +:+ String c t else s = h /\ t = "").
Proof.
  rewrite partition_span.
  destruct (span_spec (fun x => Ascii.eqb x c) s) as (Hs & Hh & Ht).
  destruct (span _ s) as [h [|y t]]; cbn in *.
  - rewrite append_nil_r in Hs. done.
  - destruct Ht as [|Hy]; [done|]. apply Ascii.eqb_eq in Hy as ->. done.
Qed.

Lemma partition_append c a b :
  lacks c a = true -> partition c (a +:+ String c b) = (a, true, b).
Proof.
  intros Ha. rewrite partition_span, span_append_stop; [done| |].
  - eapply forall_chars_impl; [|exact Ha]. done.
  - apply Ascii.eqb_refl.
Qed.

Lemma partition_lacks c a : lacks c a = true -> partition c a = (a, false, "").
Proof.
  intros Ha. rewrite partition_span, span_all; [done|].
  eapply forall_chars_impl; [|exact Ha]. done.
Qed.

(** Whatever [partition] returns is made of the characters of [s] *)
Lemma partition_forall_chars P c s :
  forall_chars P s = true ->
  forall_chars P (partition c s).1.1 = true
  /\ forall_chars P (partition c s).2 = true.
Proof.
  intros Hs. pose proof (partition_spec c s) as Hp.
  destruct (partition c s) as [[h []] t]; cbn; destruct Hp as [_ Hp].
  - rewrite Hp, forall_chars_append in Hs. cbn in Hs.
    apply andb_true_iff in Hs as [? [? ?]%andb_true_iff]. done.
  - destruct Hp as [<- ->]. done.
Qed.

(** *** [rfind] and [rpartition] *)

Lemma rfind_lacks c s : lacks c s = true -> rfind c s = None.
Proof.
  unfold lacks. induction s as [|x s IH]; cbn; [done|].
  intros [Hx Hs]%andb_true_iff. rewrite (IH Hs).
  by apply negb_true_iff in Hx as ->.
Qed.

Lemma rfind_spec c s :
  match rfind c s with
  | Some i =>
      (i < String.length s)%nat
      /\ s = take i s +:+ String c (drop (S i) s)
      /\ lacks c (drop (S i) s) = true
  | None => lacks c s = true
  end.
Proof.
  unfold lacks. induction s as [|x s IH]; cbn; [done|].
  destruct (rfind c s) as [i|].
  - destruct IH as (Hi & Hs & Hl). split; [cbn; lia|]. split; [|exact Hl].
    change (String x s = String x (take i s +:+ String c (drop (S i) s))).
    by rewrite <- Hs.
  - destruct (Ascii.eqb_spec x c) as [->|Hx]; cbn.
    + split; [lia|]. by destruct s.
    + done.
Qed.

Lemma rfind_append_lacks c a b :
  lacks c b = true -> rfind c (a +:+ b) = rfind c a.
Proof.
  intros Hb. induction a as [|x a IH]; cbn; [by apply rfind_lacks|].
  by rewrite IH.
Qed.

Lemma rpartition_spec c s :
  let '(h, found, t) := rpartition c s in
  lacks c t = true
  /\ (if found then s = h +:+ String c t else h = "" /\ t = s).
Proof.
  unfold rpartition. pose proof (rfind_spec c s) as Hr.
  destruct (rfind c s) as [i|]; [|done..].
  by destruct Hr as (_ & Hs & Hl).
Qed.

Lemma rpartition_lacks c s :
  lacks c s = true -> rpartition c s = ("", false, s).
Proof. intros Hs. unfold rpartition. by rewrite rfind_lacks. Qed.

(** *** [rstrip], [lstrip] and the removal of a character *)

Lemma rstrip_spec c s :
  exists t, s = rstrip c s +:+ t
            /\ forall_chars (fun x => Ascii.eqb x c) t = true.
Proof.
  induction s as [|x s (t & Hs & Ht)]; cbn; [by exists ""|].
  destruct (rstrip c s) as [|y r] eqn:Hr.
  - destruct (Ascii.eqb x c) eqn:Hx.
    + exists (String x s). cbn. rewrite Hx. cbn in Hs. by rewrite Hs.
    + exists s. cbn in *. by subst.
  - exists t. cbn in *. by rewrite <- Hs.
Qed.

Lemma rstrip_forall_chars P c s :
  forall_chars P s = true -> forall_chars P (rstrip c s) = true.
Proof.
  intros Hs. destruct (rstrip_spec c s) as (t & Heq & _).
  rewrite Heq, forall_chars_append in Hs.
  by apply andb_true_iff in Hs as [? _].
Qed.

Lemma rstrip_head P c s :
  head_is P s = true -> rstrip c s = "" \/ head_is P (rstrip c s) = true.
Proof.
  destruct s as [|x s]; cbn; [done|]. intros Hx.
  destruct (rstrip c s); [destruct (Ascii.eqb x c)|]; cbn; auto.
Qed.

Lemma rstrip_idem c s : rstrip c (rstrip c s) = rstrip c s.
Proof.
  induction s as [|x s IH]; cbn; [done|].
  destruct (rstrip c s) as [|y r] eqn:Hr.
  - destruct (Ascii.eqb x c) eqn:Hx; cbn; [done|]. by rewrite Hx.
  - cbn in *. by rewrite IH.
Qed.

Lemma lstrip_head P s : head_is P s = false -> lstrip P s = s.
Proof. destruct s as [|x s]; cbn; [done|]. by intros ->. Qed.

Lemma lstrip_spec P s :
  exists n, lstrip P s = drop n s /\ head_is P (lstrip P s) = false.
Proof.
  induction s as [|x s (n & Hn & Hh)]; cbn; [by exists 0%nat|].
  destruct (P x) eqn:Hx.
  - by exists (S n).
  - exists 0%nat. cbn. by rewrite Hx.
Qed.

Lemma prefix_empty s : String.prefix "" s = true.
Proof. by destruct s. Qed.

Lemma remove_char_spec P c s :
  let r := replace (String c "") "" s in
  lacks c r = true
  /\ (forall_chars P s = true -> forall_chars P r = true)
  /\ (lacks c s = true -> r = s)
  /\ (forall Q, head_is Q r = true -> exists x, Q x = true /\ x <> c).
Proof.
  unfold replace, lacks. induction s as [|x s (IH1 & IH2 & IH3 & IH4)]; cbn.
  { split_and!; try done. }
  destruct (ascii_dec c x) as [<-|Hx]; cbn; rewrite ?prefix_empty.
  - split_and!; [done| |by rewrite Ascii.eqb_refl|done].
    intros [_ ?]%andb_true_iff. auto.
  - assert (Ascii.eqb x c = false) as Hxc
      by (apply Ascii.eqb_neq; congruence).
    rewrite Hxc. cbn. split_and!; [done| | |].
    + intros [-> ?]%andb_true_iff. cbn. auto.
    + intros Hs. by rewrite IH3.
    + intros Q HQ. exists x. split; [done|congruence].
Qed.

(** *** [replace] of a pattern that does not occur *)

Lemma replace_absent pat s :
  occurs pat s = false -> replace pat "" s = s.
Proof.
  unfold replace. induction s as [|x s IH]; cbn; [done|].
  intros [-> Hs]%orb_false_iff. by rewrite IH.
Qed.

Lemma prefix_true pat s :
  String.prefix pat s = true -> exists r, s = pat +:+ r.
Proof.
  revert s. induction pat as [|a pat IH]; intros s Hp; [by exists s|].
  destruct s as [|b s]; [done|]. cbn [String.prefix] in Hp.
  destruct (ascii_dec a b) as [->|]; [|done..].
  destruct (IH s Hp) as [r ->]. by exists r.
Qed.

Lemma replace_www s :
  occurs "www." (strip_www s) = false -> replace "www." "" s = strip_www s.
Proof.
  unfold strip_www, startswith.
  destruct (String.prefix "www." s) eqn:Hp; [|apply replace_absent].
  apply prefix_true in Hp as [r ->]. cbn [drop String.append].
  intros Hr. unfold replace. cbn. rewrite prefix_empty.
  apply (replace_absent "www." r Hr).
Qed.

End Strings.

(** ** [urlsplit] and [urlparse], step by step *)

Section Urlsplit.
Context `{!Externals}.
Implicit Types (s a b url : string) (c : ascii) (P : ascii -> bool).

Lemma urlsplit_unfold url :
  urlsplit url =
  let url := clean url in
  let '(scheme, url) := split_scheme url in
  '(netloc, url) ← split_netloc url;
  let '(url, fragment) := split_at "#" url in
  let '(url, query) := split_at "?" url in
  _ ← _checknetloc netloc;
  Ok (scheme, netloc, url, query, fragment).
Proof. reflexivity. Qed.

Lemma plain_char_lacks c x :
  plain_char x = true -> (c = "009" \/ c = "013" \/ c = "010")%char ->
  negb (Ascii.eqb x c) = true.
Proof.
  unfold plain_char. intros Hx Hc.
  repeat (apply andb_true_iff in Hx as [Hx ?]).
  by destruct Hc as [->| [->| ->]].
Qed.

Lemma plain_lacks c s :
  plain s = true -> (c = "009" \/ c = "013" \/ c = "010")%char ->
  lacks c s = true.
Proof.
  intros Hs Hc. eapply forall_chars_impl; [|exact Hs].
  intros x Hx. by apply plain_char_lacks.
Qed.

(** *** Cleaning *)

Lemma clean_plain url :
  isascii url = true -> plain (clean (lower url)) = true.
Proof.
  intros Ha. unfold clean, plain.
  set (P := fun c => is_ascii c && negb (is_upper c)).
  assert (forall_chars P (lower url) = true) as H0.
  { unfold P, isascii in *. clear -Ha.
    induction url as [|x url IH]; cbn [forall_chars lower] in *; [done|].
    apply andb_true_iff in Ha as [Hx Ha].
    by rewrite lower_char_ascii, lower_char_not_upper, IH. }
  destruct (lstrip_spec c0_control_or_space (lower url)) as (n & -> & _).
  apply (forall_chars_drop _ n) in H0.
  set (u0 := drop n (lower url)) in *.
  destruct (remove_char_spec P "009" u0) as (L1 & F1 & _).
  set (u1 := replace TAB "" u0) in *.
  destruct (remove_char_spec P "013" u1) as (L2 & F2 & _).
  destruct (remove_char_spec (fun x => negb (Ascii.eqb x "009")) "013" u1)
    as (_ & G2 & _).
  set (u2 := replace CR "" u1) in *.
  destruct (remove_char_spec P "010" u2) as (L3 & F3 & _).
  destruct (remove_char_spec (fun x => negb (Ascii.eqb x "009")) "010" u2)
    as (_ & G3 & _).
  destruct (remove_char_spec (fun x => negb (Ascii.eqb x "013")) "010" u2)
    as (_ & G3' & _).
  specialize (F3 (F2 (F1 H0))). specialize (G3 (G2 L1)). specialize (G3' L2).
  unfold lacks in *.
  pose proof (forall_chars_and _ _ _
                (forall_chars_and _ _ _ (forall_chars_and _ _ _ F3 G3) G3') L3)
    as Hall.
  eapply forall_chars_impl; [|exact Hall]. done.
Qed.

Lemma clean_id url :
  head_is c0_control_or_space url = false -> plain url = true ->
  clean url = url.
Proof.
  intros Hh Hp. unfold clean, TAB, CR, LF. rewrite lstrip_head by done.
  destruct (remove_char_spec plain_char "009" url) as (_ & _ & H1 & _).
  destruct (remove_char_spec plain_char "013" url) as (_ & _ & H2 & _).
  destruct (remove_char_spec plain_char "010" url) as (_ & _ & H3 & _).
  cbn zeta in *.
  rewrite H1, H2, H3; [done|apply plain_lacks; auto..].
Qed.

(** *** The scheme *)

Lemma lower_char_alpha c : is_alpha c = true -> is_alpha (lower_char c) = true.
Proof. by destruct c as [[] [] [] [] [] [] [] []]. Qed.

Lemma lower_char_scheme c :
  scheme_char c = true -> scheme_char (lower_char c) = true.
Proof. by destruct c as [[] [] [] [] [] [] [] []]. Qed.

Lemma scheme_char_plain c :
  scheme_char c = true -> is_upper c = false -> plain_char c = true.
Proof. by destruct c as [[] [] [] [] [] [] [] []]. Qed.

Lemma scheme_char_not_colon c :
  scheme_char c = true -> negb (Ascii.eqb c ":") = true.
Proof. by destruct c as [[] [] [] [] [] [] [] []]. Qed.

Lemma alpha_not_c0 c : is_alpha c = true -> c0_control_or_space c = false.
Proof. by destruct c as [[] [] [] [] [] [] [] []]. Qed.

Lemma head_is_get P url :
  P "000"%char = false -> P (default "000"%char (String.get 0 url)) = head_is P url.
Proof. by destruct url. Qed.

Lemma head_is_impl P (Q : ascii -> bool) s :
  (forall c, P c = true -> Q c = true) -> head_is P s = true -> head_is Q s = true.
Proof. destruct s; cbn; [done|]. auto. Qed.

Lemma head_is_append P a b : head_is P a = true -> head_is P (a +:+ b) = true.
Proof. by destruct a. Qed.

(** The scheme that [urlsplit] finds is empty or a lower-case scheme
    name, and what is left is an end of the URL *)
Lemma split_scheme_spec url :
  let '(s, rest) := split_scheme url in
  (exists n, rest = drop n url)
  /\ (s = "" \/ (head_is is_alpha s = true
                 /\ forall_chars scheme_char s = true
                 /\ plain s = true)).
Proof.
  unfold split_scheme.
  destruct (find ":" url) as [[|i]|]; try (split; [by exists 0%nat; rewrite str_drop_0 | by left]).
  rewrite head_is_get by done.
  destruct (head_is is_alpha url) eqn:Hh;
    destruct (forall_chars scheme_char (take (S i) url)) eqn:Hs; cbn [andb];
    try (split; [by exists 0%nat; rewrite str_drop_0 | by left]).
  split; [by eexists|]. right. split_and!.
  - destruct url as [|x url]; [done|]. cbn in *. by apply lower_char_alpha.
  - apply lower_forall_chars; [apply lower_char_scheme | done].
  - unfold plain.
    pose proof (forall_chars_and _ _ _
                  (lower_forall_chars _ _ lower_char_scheme Hs)
                  (lower_not_upper (take (S i) url))) as Hall.
    eapply forall_chars_impl; [|exact Hall]. cbn. intros c [? ?]%andb_true_iff.
    apply scheme_char_plain; [done|]. by destruct (is_upper c).
Qed.

Lemma plain_lower s : plain s = true -> lower s = s.
Proof.
  intros Hs. apply lower_fixed. eapply forall_chars_impl; [|exact Hs].
  unfold plain_char. intros c Hc.
  by repeat (apply andb_true_iff in Hc as [Hc ?]).
Qed.

Lemma find_append c a b :
  lacks c a = true -> find c (a +:+ String c b) = Some (String.length a).
Proof.
  intros Ha. rewrite find_span, span_append_stop; [done| |apply Ascii.eqb_refl].
  eapply forall_chars_impl; [|exact Ha]. done.
Qed.

Lemma split_scheme_found s rest :
  head_is is_alpha s = true -> forall_chars scheme_char s = true ->
  lower s = s ->
  split_scheme (s +:+ String ":" rest) = (s, rest).
Proof.
  intros Hh Hs Hl. unfold split_scheme.
  rewrite find_append
    by (eapply forall_chars_impl; [apply scheme_char_not_colon | exact Hs]).
  destruct s as [|x s]; [done|]. cbn [String.length].
  rewrite head_is_get by done.
  rewrite (head_is_append _ (String x s)) by done.
  change (S (String.length s)) with (String.length (String x s)).
  by rewrite take_append_length, Hs, drop_append_cons, Hl.
Qed.

Lemma split_scheme_none url :
  head_is is_alpha url = false -> split_scheme url = ("", url).
Proof.
  intros Hh. unfold split_scheme. rewrite head_is_get, Hh by done.
  by destruct (find ":" url) as [[|i]|].
Qed.

(** *** The netloc *)

Lemma first_delim t :
  let k := String.length (fst (span is_delim t)) in
  (k <= String.length t)%nat
  /\ (forall c, is_delim c = true ->
       match find c t with Some w => (k <= w)%nat | None => True end)
  /\ (k = String.length t \/ find "/" t = Some k \/ find "?" t = Some k
      \/ find "#" t = Some k).
Proof.
  induction t as [|x t (IH1 & IH2 & IH3)]; cbn.
  { split_and!; [lia|done|by left]. }
  destruct (is_delim x) eqn:Hx; cbn.
  - split_and!; [lia| |].
    { intros c _. destruct (Ascii.eqb x c); [lia|].
      destruct (find c t); cbn; [lia|done]. }
    right. unfold is_delim in Hx.
    destruct (Ascii.eqb x "/"); [by left|].
    destruct (Ascii.eqb x "?"); [by right; left|].
    destruct (Ascii.eqb x "#"); [by right; right|done].
  - destruct (span is_delim t) as [h r]; cbn in *.
    assert (forall c, is_delim c = true -> Ascii.eqb x c = false) as Hne.
    { intros c Hc. destruct (Ascii.eqb_spec x c) as [->|]; congruence. }
    split_and!; [lia| |].
    + intros c Hc. rewrite (Hne c Hc). specialize (IH2 c Hc).
      destruct (find c t); cbn; [lia|done].
    + rewrite !Hne by done.
      destruct IH3 as [->|[->|[->| ->]]]; auto.
Qed.

Lemma splitnetloc_span (x y : ascii) (t : string) :
  _splitnetloc (String x (String y t)) 2 = span is_delim t.
Proof.
  unfold _splitnetloc, find_from.
  cbn [fold_left String.length Nat.leb drop].
  destruct (first_delim t) as (Hk & Hle & Hfound). cbn zeta in *.
  set (k := String.length (fst (span is_delim t))) in *.
  pose proof (Hle "/"%char eq_refl) as H1.
  pose proof (Hle "?"%char eq_refl) as H2.
  pose proof (Hle "#"%char eq_refl) as H3.
  match goal with
  | |- (take (?d - 2) t, _) = _ => assert (d = 2 + k)%nat as ->
  end.
  { destruct (find "/" t) as [w1|], (find "?" t) as [w2|],
      (find "#" t) as [w3|]; cbn;
      destruct Hfound as [Hf|[Hf|[Hf|Hf]]]; try done;
      try (injection Hf as ->); lia. }
  replace (2 + k - 2)%nat with k by lia. cbn [Nat.add drop].
  unfold k. rewrite take_span, drop_span. by destruct (span is_delim t).
Qed.

Lemma take_2_slashes url :
  (take 2 url =? "//") = true -> exists t, url = String "/" (String "/" t).
Proof.
  destruct url as [|x [|y t]]; cbn [take]; intros Heq%String.eqb_eq;
    try (by inversion Heq).
  injection Heq as -> ->. by exists t.
Qed.

Lemma is_delim_lacks s :
  forall_chars (fun c => negb (is_delim c)) s = true ->
  lacks "/" s = true /\ lacks "?" s = true /\ lacks "#" s = true.
Proof.
  intros Hs. unfold lacks.
  split_and!; (eapply forall_chars_impl; [|exact Hs]); cbn; intros c;
    unfold is_delim; intros Hc;
    destruct (Ascii.eqb c "/"), (Ascii.eqb c "?"), (Ascii.eqb c "#"); done.
Qed.

Lemma lacks_is_delim s :
  lacks "/" s = true -> lacks "?" s = true -> lacks "#" s = true ->
  forall_chars (fun c => negb (is_delim c)) s = true.
Proof.
  intros H1 H2 H3.
  pose proof (forall_chars_and _ _ _ (forall_chars_and _ _ _ H1 H2) H3) as Hall.
  eapply forall_chars_impl; [|exact Hall]. cbn. intros c. unfold is_delim.
  by destruct (Ascii.eqb c "/"), (Ascii.eqb c "?"), (Ascii.eqb c "#").
Qed.

(** What [urlsplit] takes for the netloc: nothing, when the URL does not
    go on with two slashes; otherwise what follows them up to the first
    of [/], [?] and [#], with brackets that match *)
Lemma split_netloc_spec url n rest :
  split_netloc url = Ok (n, rest) ->
  (n = "" /\ rest = url)
  \/ (url = "//" +:+ n +:+ rest
      /\ lacks "/" n = true /\ lacks "?" n = true /\ lacks "#" n = true
      /\ (rest = "" \/ head_is is_delim rest = true)
      /\ contains "]" n = contains "[" n).
Proof.
  unfold split_netloc.
  destruct (take 2 url =? "//") eqn:H2; [|intros [= <- <-]; by left].
  apply take_2_slashes in H2 as [t ->]. rewrite splitnetloc_span.
  destruct (span_spec is_delim t) as (Ht & Hn & Hrest).
  destruct (span is_delim t) as [n' rest']; cbn in Ht, Hn, Hrest.
  destruct (contains "[" n') eqn:Hb1, (contains "]" n') eqn:Hb2; cbn;
    try done.
  - destruct (_check_bracketed_netloc n'); cbn; [|done..].
    intros [= <- <-]. right. rewrite Hb1, Hb2.
    destruct (is_delim_lacks _ Hn) as (? & ? & ?). split_and!; try done.
    cbn. by rewrite Ht.
  - intros [= <- <-]. right. rewrite Hb1, Hb2.
    destruct (is_delim_lacks _ Hn) as (? & ? & ?). split_and!; try done.
    cbn. by rewrite Ht.
Qed.

Lemma split_netloc_found n rest :
  lacks "/" n = true -> lacks "?" n = true -> lacks "#" n = true ->
  lacks "[" n = true -> lacks "]" n = true ->
  head_is is_delim rest = true ->
  split_netloc ("//" +:+ n +:+ rest) = Ok (n, rest).
Proof.
  intros H1 H2 H3 Hb1 Hb2 Hrest. unfold split_netloc.
  cbn [String.append take String.eqb Ascii.eqb Bool.eqb].
  change (("/" =? "/")%char) with true. cbn [String.eqb andb].
  rewrite splitnetloc_span.
  destruct rest as [|c rest]; [done|]. cbn in Hrest.
  rewrite span_append_stop by (by apply lacks_is_delim || done).
  rewrite !contains_lacks, Hb1, Hb2. done.
Qed.

(** *** The fragment and the query *)

Lemma split_at_spec c url :
  let '(u, f) := split_at c url in
  lacks c u = true /\ ((url = u /\ f = "") \/ url = u +:+ String c f).
Proof.
  unfold split_at. rewrite contains_lacks.
  destruct (lacks c url) eqn:Hl; cbn; [by auto|].
  pose proof (partition_spec c url) as Hp.
  destruct (partition c url) as [[u []] f]; destruct Hp as [Hu Hp];
    (split; [done|]); [by right|by left].
Qed.

Lemma split_at_lacks c url : lacks c url = true -> split_at c url = (url, "").
Proof. intros Hl. unfold split_at. by rewrite contains_lacks, Hl. Qed.

Lemma split_at_found c u f :
  lacks c u = true -> split_at c (u +:+ String c f) = (u, f).
Proof.
  intros Hu. unfold split_at.
  rewrite contains_lacks, lacks_append, Hu. cbn.
  rewrite Ascii.eqb_refl. cbn. by rewrite partition_append.
Qed.

(** *** The parameters *)

Lemma find_spec c s i :
  find c s = Some i -> s = take i s +:+ String c (drop (S i) s).
Proof.
  intros Hf. pose proof (partition_spec c s) as Hp.
  unfold partition in Hp. rewrite Hf in Hp. by destruct Hp.
Qed.

Lemma find_from_spec c j s i :
  find_from c j s = Some i ->
  (j <= i)%nat /\ s = take i s +:+ String c (drop (S i) s).
Proof.
  unfold find_from. destruct (j <=? String.length s)%nat; [|done..].
  destruct (find c (drop j s)) as [k|] eqn:Hf; [|done..].
  intros [= <-]. split; [lia|].
  apply find_spec in Hf.
  rewrite str_take_add, append_assoc, <- (Nat.add_succ_r j k), <- str_drop_drop, <- Hf.
  by rewrite str_take_drop.
Qed.

Lemma rfind_default_lacks c s :
  lacks c (drop (S (default 0%nat (rfind c s))) s) = true.
Proof.
  pose proof (rfind_spec c s) as Hr.
  destruct (rfind c s) as [j|]; cbn [default].
  - by destruct Hr as (_ & _ & ?).
  - by apply lacks_drop.
Qed.

(** [_splitparams] leaves the URL whole or cuts it at a [;] behind which
    there is no [/] *)
Lemma splitparams_spec url :
  let '(pa, par) := _splitparams url in
  (url = pa /\ par = "")
  \/ (url = pa +:+ String ";" par /\ lacks "/" par = true).
Proof.
  unfold _splitparams. rewrite contains_lacks.
  destruct (lacks "/" url) eqn:Hl; cbn [negb].
  - destruct (find ";" url) as [i|] eqn:Hf; [|by left].
    right. split; [by apply find_spec|]. by apply lacks_drop.
  - destruct (find_from ";" _ url) as [i|] eqn:Hf; [|by left].
    apply find_from_spec in Hf as [Hj Hf]. right. split; [done|].
    pose proof (rfind_default_lacks "/" url) as Hr.
    set (j := default 0%nat (rfind "/" url)) in *.
    replace (S i) with (S j + (i - j))%nat by lia.
    rewrite <- str_drop_drop. by apply lacks_drop.
Qed.

Lemma splitparams_found pa par :
  head_is (fun c => Ascii.eqb c "/") pa = true ->
  lacks ";" pa = true -> lacks "/" par = true ->
  _splitparams (pa +:+ String ";" par) = (pa, par).
Proof.
  intros Hh Hpa Hpar. unfold _splitparams.
  assert (lacks "/" pa = false) as Hs.
  { destruct pa as [|x pa]; [done|]. cbn in *. by rewrite Hh. }
  rewrite contains_lacks, lacks_append, Hs. cbn [andb negb].
  rewrite rfind_append_lacks by done.
  pose proof (rfind_spec "/" pa) as Hr.
  destruct (rfind "/" pa) as [j|]; [|congruence].
  destruct Hr as (Hj & _). change (default 0%nat (Some j)) with j.
  unfold find_from.
  rewrite length_append. cbn [String.length].
  destruct (Nat.leb_spec j (String.length pa + S (String.length par))); [|lia].
  rewrite drop_append_le by lia.
  rewrite find_append by (by apply lacks_drop). cbn [fmap option_fmap option_map].
  rewrite str_length_drop.
  replace (j + (String.length pa - j))%nat with (String.length pa) by lia.
  by rewrite take_append_length, drop_append_cons.
Qed.

Lemma urlparse_unfold url :
  urlparse url =
  '(scheme, netloc, url, query, fragment) ← urlsplit url;
  let '(url, params) :=
    if mem scheme uses_params && contains ";" url
    then _splitparams url else (url, "") in
  Ok {| scheme := scheme; netloc := netloc; path := url; params := params;
        query := query; fragment := fragment |}.
Proof. reflexivity. Qed.

(** *** Every component is made of characters of the URL *)

Lemma forall_chars_cut P a c b :
  forall_chars P (a +:+ String c b) = true ->
  forall_chars P a = true /\ forall_chars P b = true.
Proof.
  rewrite forall_chars_append. cbn.
  by intros [? [? ?]%andb_true_iff]%andb_true_iff.
Qed.

Lemma split_scheme_rest P url :
  forall_chars P url = true -> forall_chars P (split_scheme url).2 = true.
Proof.
  intros Hu. pose proof (split_scheme_spec url) as Hs.
  destruct (split_scheme url) as [s rest]. destruct Hs as [[n ->] _].
  by apply forall_chars_drop.
Qed.

Lemma split_netloc_forall P url n rest :
  split_netloc url = Ok (n, rest) -> forall_chars P url = true ->
  forall_chars P n = true /\ forall_chars P rest = true.
Proof.
  intros [[-> ->]|(-> & _)]%split_netloc_spec Hu; [done|].
  cbn in Hu. apply andb_true_iff in Hu as [_ [_ Hu]%andb_true_iff].
  rewrite forall_chars_append in Hu. by apply andb_true_iff in Hu.
Qed.

Lemma split_at_forall P c url :
  forall_chars P url = true ->
  forall_chars P (split_at c url).1 = true
  /\ forall_chars P (split_at c url).2 = true.
Proof.
  intros Hu. pose proof (split_at_spec c url) as Hs.
  destruct (split_at c url) as [u f]. destruct Hs as [_ [[-> ->]| ->]]; [done|].
  by apply forall_chars_cut in Hu.
Qed.

Lemma splitparams_forall P url :
  forall_chars P url = true ->
  forall_chars P (_splitparams url).1 = true
  /\ forall_chars P (_splitparams url).2 = true.
Proof.
  intros Hu. pose proof (splitparams_spec url) as Hs.
  destruct (_splitparams url) as [pa par].
  destruct Hs as [[-> ->]|[-> _]]; [done|]. by apply forall_chars_cut in Hu.
Qed.

(** *** The first character of a component *)

Lemma head_is_prefix P a b :
  head_is P (a +:+ b) = true -> a = "" \/ head_is P a = true.
Proof. destruct a; cbn; auto. Qed.

Lemma head_is_lacks P c a :
  head_is P a = true -> lacks c a = true ->
  head_is (fun x => P x && negb (Ascii.eqb x c)) a = true.
Proof.
  destruct a as [|x a]; cbn; [done|].
  by intros -> [-> _]%andb_true_iff.
Qed.

Lemma split_at_head P c url :
  url = "" \/ head_is P url = true ->
  (split_at c url).1 = ""
  \/ head_is (fun x => P x && negb (Ascii.eqb x c)) (split_at c url).1 = true.
Proof.
  intros Hu. pose proof (split_at_spec c url) as Hs.
  destruct (split_at c url) as [u f]. cbn. destruct Hs as [Hl Hs].
  destruct Hu as [->|Hu].
  - left. destruct Hs as [[<- _]|Hs]; [done|]. by destruct u.
  - assert (u = "" \/ head_is P u = true) as [->|Hh].
    { destruct Hs as [[<- _]| ->]; [by right|]. by eapply head_is_prefix. }
    + by left.
    + right. by apply head_is_lacks.
Qed.

(** *** The components of a parsed URL *)

Lemma delim_slash c :
  is_delim c && negb (Ascii.eqb c "#") && negb (Ascii.eqb c "?") = true ->
  Ascii.eqb c "/" = true.
Proof.
  unfold is_delim.
  by destruct (Ascii.eqb c "/"), (Ascii.eqb c "?"), (Ascii.eqb c "#").
Qed.

Lemma urlparse_well_parsed u p :
  isascii u = true -> urlparse (lower u) = Ok p -> well_parsed p.
Proof.
  intros Ha Hp. rewrite urlparse_unfold, urlsplit_unfold in Hp.
  cbn zeta in Hp.
  pose proof (clean_plain u Ha) as HC. set (C := clean (lower u)) in *.
  pose proof (split_scheme_spec C) as Hs.
  pose proof (split_scheme_rest plain_char C HC) as Hr1.
  destruct (split_scheme C) as [s r1]. cbn in Hr1. destruct Hs as [_ Hs].
  unfold mbind, outcome_bind in Hp.
  destruct (split_netloc r1) as [[n r2]| |] eqn:Hn; [|done..].
  destruct (split_netloc_forall plain_char _ _ _ Hn Hr1) as [Hpn Hpr2].
  apply split_netloc_spec in Hn.
  (* the fragment *)
  pose proof (split_at_spec "#" r2) as H1.
  pose proof (split_at_forall plain_char "#" r2 Hpr2) as H1p.
  pose proof (split_at_head is_delim "#" r2) as H1h.
  destruct (split_at "#" r2) as [u1 f]. cbn in H1p, H1h.
  destruct H1 as [Hl1 _]. destruct H1p as [Hpu1 _].
  (* the query *)
  pose proof (split_at_spec "?" u1) as H2.
  pose proof (split_at_forall plain_char "?" u1 Hpu1) as H2p.
  pose proof (split_at_forall (fun x => negb (Ascii.eqb x "#")) "?" u1 Hl1)
    as H2l.
  pose proof (split_at_head
                (fun x => is_delim x && negb (Ascii.eqb x "#")) "?" u1) as H2h.
  destruct (split_at "?" u1) as [u2 q]. cbn in H2p, H2l, H2h.
  destruct H2 as [Hl2 _]. destruct H2p as [Hpu2 Hpq]. destruct H2l as [Hu2 Hq].
  destruct (_checknetloc n); [|done..].
  assert (plain s = true) as Hps.
  { destruct Hs as [->|(_ & _ & ?)]; done. }
  assert (s = "" \/ (head_is is_alpha s = true
                     /\ forall_chars scheme_char s = true)) as Hs'.
  { destruct Hs as [->|(? & ? & _)]; auto. }
  assert (lacks "/" n = true /\ lacks "?" n = true /\ lacks "#" n = true
          /\ contains "]" n = contains "[" n) as Hnl.
  { destruct Hn as [[-> _]|(_ & ? & ? & ? & _ & ?)]; done. }
  assert (n <> "" ->
          u2 = "" \/ head_is (fun c => Ascii.eqb c "/") u2 = true) as Hhead.
  { intros Hne. destruct Hn as [[-> _]|(_ & _ & _ & _ & Hr2 & _)]; [done|].
    destruct (H2h (H1h Hr2)) as [->|Hh]; [by left|right].
    eapply head_is_impl; [|exact Hh]. apply delim_slash. }
  destruct (mem s uses_params && contains ";" u2) eqn:Hm.
  - apply andb_true_iff in Hm as [Hm _].
    pose proof (splitparams_spec u2) as H3.
    pose proof (splitparams_forall plain_char u2 Hpu2) as [H3p H3p'].
    pose proof (splitparams_forall _ u2 Hl2) as [H3q H3q'].
    pose proof (splitparams_forall _ u2 Hu2) as [H3f H3f'].
    destruct (_splitparams u2) as [pa par]. cbn in *.
    injection Hp as <-. constructor; cbn; try done.
    + split_and!; [|done..]. intros Hne.
      destruct (Hhead Hne) as [Hu|Hu].
      * left. destruct H3 as [[<- _]|[-> _]]; [done|]. by destruct pa.
      * destruct H3 as [[<- _]|[-> _]]; [by right|].
        by eapply head_is_prefix.
    + split_and!; try done. destruct H3 as [[_ ->]|[_ ?]]; done.
  - injection Hp as <-. constructor; cbn; done.
Qed.

(** *** The host *)

Lemma rpartition_forall P c s :
  forall_chars P s = true -> forall_chars P (rpartition c s).2 = true.
Proof.
  intros Hs. pose proof (rpartition_spec c s) as Hr.
  destruct (rpartition c s) as [[h []] t]; cbn; destruct Hr as [_ Hr].
  - rewrite Hr in Hs. by apply forall_chars_cut in Hs as [_ ?].
  - by destruct Hr as [_ ->].
Qed.

(** Without brackets the host is the part of the netloc behind the last
    [@] and before the first [:] that follows *)
Lemma hostname_spec p h :
  plain (netloc p) = true -> lacks "[" (netloc p) = true ->
  hostname p = Some h ->
  h <> "" /\ lacks ":" h = true /\ lacks "@" h = true
  /\ forall P, forall_chars P (netloc p) = true -> forall_chars P h = true.
Proof.
  intros Hp Hb. unfold hostname, _hostinfo.
  pose proof (rpartition_spec "@" (netloc p)) as Hr.
  pose proof (fun P => rpartition_forall P "@" (netloc p)) as Hrf.
  destruct (rpartition "@" (netloc p)) as [[x f] hostinfo].
  cbn in Hrf. destruct Hr as [Hat _].
  rewrite (partition_lacks "[" hostinfo) by (by apply (Hrf _ Hb)).
  pose proof (partition_spec ":" hostinfo) as Hc.
  pose proof (fun P => partition_forall_chars P ":" hostinfo) as Hcf.
  destruct (partition ":" hostinfo) as [[hn fc] port].
  cbn in Hcf |- *. destruct Hc as [Hcolon _].
  destruct (hn =? "") eqn:Hne; [done|]. apply eqb_empty_false in Hne.
  assert (forall P, forall_chars P (netloc p) = true ->
                    forall_chars P hn = true) as Hall.
  { intros P HP. by apply Hcf, Hrf. }
  pose proof (partition_spec "%" hn) as Hz.
  pose proof (partition_forall_chars plain_char "%" hn (Hall _ Hp)) as [Hh1 _].
  destruct (partition "%" hn) as [[h1 pct] zone]. cbn in Hh1.
  destruct Hz as [_ Hz]. rewrite (plain_lower h1) by done.
  intros [= <-].
  assert (h1 +:+ (if pct then "%" else "") +:+ zone = hn) as ->.
  { destruct pct; [by rewrite Hz|].
    destruct Hz as [<- ->]. cbn. by rewrite append_nil_r. }
  split_and!; try done. by destruct (Hcf _ Hat) as [? _].
Qed.

Lemma hostinfo_plain_host h :
  lacks "@" h = true -> lacks "[" h = true -> lacks ":" h = true ->
  _hostinfo h = (h, None).
Proof.
  intros H1 H2 H3. unfold _hostinfo.
  by rewrite rpartition_lacks, (partition_lacks "["), (partition_lacks ":").
Qed.

(** *** Writing a URL out and reading it back *)

Lemma urlunparse_canonical s n pa par q :
  n <> "" -> head_is (fun c => Ascii.eqb c "/") pa = true ->
  urlunparse s (Some n) pa par q "" = canonical s n pa par q.
Proof.
  intros Hn Hpa. unfold urlunparse, urlunsplit, canonical.
  cbn [from_option id].
  apply eqb_empty_false in Hn. rewrite Hn. cbn [negb orb].
  destruct pa as [|x pa]; [done|]. cbn in Hpa. apply Ascii.eqb_eq in Hpa as ->.
  destruct (par =? ""), (s =? ""), (q =? "");
    cbn [negb String.append String.eqb take Ascii.eqb Bool.eqb andb];
    rewrite ?append_nil_r;
    repeat (first [rewrite append_assoc | progress (cbn [String.append])]);
    done.
Qed.

Lemma plain_append a b : plain (a +:+ b) = plain a && plain b.
Proof. apply forall_chars_append. Qed.

Lemma plain_isascii s : plain s = true -> isascii s = true.
Proof.
  apply forall_chars_impl. unfold plain_char. intros c Hc.
  by repeat (apply andb_true_iff in Hc as [Hc ?]).
Qed.

(** [urlparse] reads a URL written out from well-formed components back
    into these components *)
Lemma urlparse_canonical s n pa par q :
  (s = "" \/ (head_is is_alpha s = true
              /\ forall_chars scheme_char s = true)) ->
  plain s = true -> plain n = true -> plain pa = true ->
  plain par = true -> plain q = true ->
  lacks "/" n = true -> lacks "?" n = true -> lacks "#" n = true ->
  lacks "[" n = true -> lacks "]" n = true ->
  head_is (fun c => Ascii.eqb c "/") pa = true ->
  lacks "?" pa = true -> lacks "#" pa = true ->
  (mem s uses_params = true -> lacks ";" pa = true) ->
  lacks "/" par = true -> lacks "?" par = true -> lacks "#" par = true ->
  (par <> "" -> mem s uses_params = true) ->
  lacks "#" q = true ->
  urlparse (canonical s n pa par q)
  = Ok {| scheme := s; netloc := n; path := pa; params := par;
          query := q; fragment := "" |}.
Proof.
  intros Hs Hps Hpn Hppa Hppar Hpq Hn1 Hn2 Hn3 Hn4 Hn5 Hh Hpa2 Hpa3 Hsemi
    Hpar1 Hpar2 Hpar3 Hparm Hq.
  unfold canonical.
  set (pp := pa +:+ (if par =? "" then "" else ";" +:+ par)).
  set (rest2 := pp +:+ (if q =? "" then "" else "?" +:+ q)).
  set (body := "//" +:+ n +:+ rest2).
  assert (plain pp = true /\ lacks "?" pp = true /\ lacks "#" pp = true
          /\ head_is (fun c => Ascii.eqb c "/") pp = true)
    as (Hppp & Hpp2 & Hpp3 & Hhpp).
  { unfold pp. rewrite plain_append, !lacks_append, Hppa, Hpa2, Hpa3.
    split_and!; [| | |by apply head_is_append];
      destruct (par =? ""); cbn; done. }
  assert (plain rest2 = true /\ lacks "#" rest2 = true
          /\ head_is is_delim rest2 = true) as (Hpr & Hr3 & Hhr).
  { unfold rest2. rewrite plain_append, lacks_append, Hppp, Hpp3.
    split_and!;
      [destruct (q =? ""); cbn; done | destruct (q =? ""); cbn; done|].
    apply head_is_append. eapply head_is_impl; [|exact Hhpp].
    intros c Hc. unfold is_delim. by rewrite Hc. }
  assert (plain body = true) as Hpb.
  { unfold body. rewrite !plain_append, Hpn, Hpr. done. }
  rewrite urlparse_unfold, urlsplit_unfold. cbn zeta.
  (* cleaning and the scheme *)
  assert (clean ((if s =? "" then "" else s +:+ ":") +:+ body)
          = (if s =? "" then "" else s +:+ ":") +:+ body
          /\ split_scheme ((if s =? "" then "" else s +:+ ":") +:+ body)
             = (s, body)) as [-> ->].
  { destruct Hs as [->|[Hhs Hss]].
    - cbn [String.eqb String.append]. split.
      + apply clean_id; [done|]. by rewrite Hpb.
      + by apply split_scheme_none.
    - assert ((s =? "") = false) as -> by (by destruct s).
      rewrite append_assoc. cbn [String.append]. split.
      + apply clean_id.
        * destruct s as [|x s]; [done|]. cbn in *. by apply alpha_not_c0.
        * rewrite plain_append.
          change (plain (String ":" body))
            with (plain_char ":" && plain body).
          by rewrite Hps, Hpb.
      + apply split_scheme_found; [done..|]. by apply plain_lower. }
  (* the netloc *)
  unfold body. rewrite split_netloc_found by done.
  cbn [mbind outcome_bind].
  (* fragment and query *)
  rewrite (split_at_lacks "#" rest2) by done.
  assert (split_at "?" rest2 = (pp, q)) as ->.
  { unfold rest2. destruct (q =? "") eqn:Hqe.
    - apply eqb_empty in Hqe as ->. rewrite append_nil_r.
      by apply split_at_lacks.
    - by apply split_at_found. }
  unfold _checknetloc. rewrite (plain_isascii n Hpn), orb_true_r.
  unfold mbind, outcome_bind.
  (* the parameters *)
  assert ((if mem s uses_params && contains ";" pp then _splitparams pp
           else (pp, "")) = (pa, par)) as ->; [|done..].
  unfold pp. destruct (par =? "") eqn:Hpe.
  - apply eqb_empty in Hpe as ->. rewrite append_nil_r.
    destruct (mem s uses_params) eqn:Hm; [|done..].
    by rewrite contains_lacks, Hsemi.
  - apply eqb_empty_false in Hpe. rewrite (Hparm Hpe).
    rewrite contains_lacks, lacks_append.
    assert (lacks ";" (";" +:+ par) = false) as -> by done.
    rewrite andb_false_r. cbn [negb andb].
    apply splitparams_found; auto.
Qed.

End Urlsplit.

(** ** [normalize_url] *)

Section Normalize.
Context `{!Externals}.

Lemma normalize_url_unfold u :
  normalize_url u =
  p ← urlparse (lower u);
  port ← port p;
  Ok (urlunparse (scheme p) (norm_netloc p port) (norm_path p) (params p)
        (query p) "").
Proof. reflexivity. Qed.

(** *** The normal form is in lower case *)

Lemma hostname_plain p h :
  plain (netloc p) = true -> hostname p = Some h -> plain h = true.
Proof.
  intros Hp. unfold hostname, _hostinfo.
  pose proof (rpartition_forall plain_char "@" (netloc p) Hp) as Hr.
  destruct (rpartition "@" (netloc p)) as [[x f] hostinfo]. cbn in Hr.
  pose proof (partition_forall_chars plain_char "[" hostinfo Hr) as [_ Hb].
  destruct (partition "[" hostinfo) as [[y []] bracketed]; cbn in Hb.
  - pose proof (partition_forall_chars plain_char "]" bracketed Hb) as [Hh _].
    destruct (partition "]" bracketed) as [[hn g] port]. cbn in Hh.
    destruct (partition ":" port) as [[? ?] port']. cbn.
    destruct (hn =? ""); [done|].
    pose proof (partition_forall_chars plain_char "%" hn Hh) as [H1 H2].
    destruct (partition "%" hn) as [[h1 pct] zone]. cbn in H1, H2.
    change (plain h1 = true) in H1. change (plain zone = true) in H2.
    intros [= <-]. rewrite !plain_append, (plain_lower h1), H1, H2 by done.
    by destruct pct.
  - pose proof (partition_forall_chars plain_char ":" hostinfo Hr) as [Hh _].
    destruct (partition ":" hostinfo) as [[hn g] port]. cbn in Hh |- *.
    destruct (hn =? ""); [done|].
    pose proof (partition_forall_chars plain_char "%" hn Hh) as [H1 H2].
    destruct (partition "%" hn) as [[h1 pct] zone]. cbn in H1, H2.
    change (plain h1 = true) in H1. change (plain zone = true) in H2.
    intros [= <-]. rewrite !plain_append, (plain_lower h1), H1, H2 by done.
    by destruct pct.
Qed.

Lemma norm_path_plain p : plain (path p) = true -> plain (norm_path p) = true.
Proof.
  intros Hp. unfold norm_path.
  destruct (rstrip "/" (path p) =? ""); [done|].
  by apply rstrip_forall_chars.
Qed.

Lemma urlunparse_plain s n pa par q :
  plain s = true -> plain (default "" n) = true -> plain pa = true ->
  plain par = true -> plain q = true ->
  plain (urlunparse s n pa par q "") = true.
Proof.
  intros Hs Hn Hpa Hpar Hq. unfold urlunparse, urlunsplit.
  repeat match goal with
         | |- context [if ?b then _ else _] => destruct b
         end;
    rewrite ?plain_append, ?Hs, ?Hn, ?Hpa, ?Hpar, ?Hq; done.
Qed.

Lemma normalize_url_plain u r :
  isascii u = true -> normalize_url u = Ok r -> plain r = true.
Proof.
  intros Ha. rewrite normalize_url_unfold. unfold mbind, outcome_bind.
  destruct (urlparse (lower u)) as [p| |] eqn:Hp; [|done..].
  destruct (port p) as [po| |]; [|done..]. intros [= <-].
  destruct (urlparse_well_parsed u p Ha Hp) as [_ (? & Hn & ? & ? & ?) _ _ _ _].
  apply urlunparse_plain; try done; [|by apply norm_path_plain].
  unfold norm_netloc.
  assert (plain (default "" (hostname p)) = true) as Hh.
  { destruct (hostname p) as [h|] eqn:Hh; [|done..]. by eapply hostname_plain. }
  by repeat match goal with
            | |- context [if ?b then _ else _] => destruct b
            end.
Qed.

(** C5, as the code has it.  [normalize_url] lower-cases the whole URL,
    path and query included: two ASCII URLs that differ only in the case
    of their letters have the same normal form, and it contains no
    upper-case letter. *)
Theorem normalize_url_lowers_everything u1 u2 r :
  isascii u1 = true -> isascii u2 = true -> lower u1 = lower u2 ->
  normalize_url u1 = Ok r ->
  normalize_url u2 = Ok r /\ lower r = r.
Proof.
  intros H1 H2 Hl Hr. split.
  - rewrite normalize_url_unfold in Hr |- *. by rewrite <- Hl.
  - apply plain_lower. exact (normalize_url_plain u1 r H1 Hr).
Qed.

(** *** The normal form of a normal form *)

Lemma port_netloc p p' : netloc p' = netloc p -> port p' = port p.
Proof. unfold port. by intros ->. Qed.

Lemma hostname_none p : netloc p = "" -> hostname p = None.
Proof. unfold hostname. by intros ->. Qed.

Lemma norm_path_spec p :
  well_parsed p -> netloc p <> "" ->
  head_is (fun c => Ascii.eqb c "/") (norm_path p) = true
  /\ plain (norm_path p) = true
  /\ lacks "?" (norm_path p) = true /\ lacks "#" (norm_path p) = true
  /\ (lacks ";" (path p) = true -> lacks ";" (norm_path p) = true)
  /\ (let pa := rstrip "/" (norm_path p) in if pa =? "" then "/" else pa)
     = norm_path p.
Proof.
  intros [_ (_ & _ & Hp & _) _ (Hh & H2 & H3) _ _] Hn.
  specialize (Hh Hn). unfold norm_path. cbn zeta.
  destruct (rstrip "/" (path p) =? "") eqn:He; [done|].
  apply eqb_empty_false in He.
  split_and!.
  - destruct Hh as [Hh|Hh]; [by rewrite Hh in He|].
    by destruct (rstrip_head _ "/" _ Hh).
  - by apply rstrip_forall_chars.
  - by apply rstrip_forall_chars.
  - by apply rstrip_forall_chars.
  - intros Hs. by apply rstrip_forall_chars.
  - rewrite rstrip_idem. by apply eqb_empty_false in He as ->.
Qed.

Lemma contains_false_lacks c s : contains c s = false -> lacks c s = true.
Proof. rewrite contains_lacks. by destruct (lacks c s). Qed.

(** The netloc that [normalize_url] writes out, for a URL with a host
    and without brackets, is one that it keeps when it meets it again *)
Lemma norm_netloc_spec p po :
  well_parsed p -> lacks "[" (netloc p) = true -> hostname p <> None ->
  port p = Ok po ->
  exists n,
    norm_netloc p po = Some n /\ n <> "" /\ plain n = true
    /\ lacks "/" n = true /\ lacks "?" n = true /\ lacks "#" n = true
    /\ lacks "[" n = true /\ lacks "]" n = true
    /\ forall p', netloc p' = n -> scheme p' = scheme p ->
         exists po', port p' = Ok po' /\ norm_netloc p' po' = Some n.
Proof.
  intros [_ (_ & Hpn & _) (H1 & H2 & H3 & Hb) _ _ _] Hbr Hh Hport.
  assert (lacks "]" (netloc p) = true) as Hbr'.
  { apply contains_false_lacks. rewrite Hb, contains_lacks, Hbr. done. }
  assert (netloc p <> "") as Hne.
  { intros He. by apply Hh, hostname_none. }
  assert (exists h, hostname p = Some h /\ h <> "" /\ plain h = true
          /\ lacks "/" h = true /\ lacks "?" h = true /\ lacks "#" h = true
          /\ lacks "[" h = true /\ lacks "]" h = true
          /\ forall p', netloc p' = h ->
               port p' = Ok None /\ norm_netloc p' None = Some h)
    as (h & Hhh & Hhne & Hph & Hh1 & Hh2 & Hh3 & Hh4 & Hh5 & Hre).
  { destruct (hostname p) as [h|] eqn:Hhh; [|done..]. exists h.
    destruct (hostname_spec p h Hpn Hbr Hhh) as (? & Hc & Hat & Hall).
    split_and!; try done; try (by apply Hall).
    intros p' Hp'. unfold norm_netloc, port.
    rewrite Hp', (hostinfo_plain_host h) by (done || by apply Hall).
    done. }
  unfold norm_netloc in *.
  destruct (bool_decide (po = Some 80%N) && (scheme p =? "http")) eqn:C1.
  { exists h. split_and!; try done. intros p' Hp' _. exists None.
    destruct (Hre p' Hp') as [? ?]. done. }
  destruct (bool_decide (po = Some 443%N) && (scheme p =? "https")) eqn:C2.
  { exists h. split_and!; try done. intros p' Hp' _. exists None.
    destruct (Hre p' Hp') as [? ?]. done. }
  exists (netloc p). split_and!; try done.
  intros p' Hp' Hs'. exists po. split; [by rewrite (port_netloc p p')|].
  by rewrite Hs', C1, C2, Hp'.
Qed.

(** C10, as the code has it.  [normalize_url] is idempotent on the ASCII
    URLs that have a host, no bracket in the netloc and, where the
    scheme takes parameters, no [;] in the path: the normal form of such
    a URL is its own normal form. *)
Theorem normalize_url_idempotent u p r :
  isascii u = true ->
  urlparse (lower u) = Ok p ->
  hostname p <> None ->
  contains "[" (netloc p) = false ->
  (mem (scheme p) uses_params = true -> contains ";" (path p) = false) ->
  normalize_url u = Ok r ->
  normalize_url r = Ok r.
Proof.
  intros Ha Hp Hh Hbr Hsemi Hr.
  pose proof (normalize_url_plain u r Ha Hr) as Hplain.
  pose proof (urlparse_well_parsed u p Ha Hp) as Hwp.
  rewrite normalize_url_unfold in Hr. rewrite Hp in Hr.
  unfold mbind, outcome_bind in Hr.
  destruct (port p) as [po| |] eqn:Hport; [|done..]. injection Hr as Hr.
  apply contains_false_lacks in Hbr.
  destruct (norm_netloc_spec p po Hwp Hbr Hh Hport)
    as (n & Hn & Hne & Hpn & Hn1 & Hn2 & Hn3 & Hn4 & Hn5 & Hre).
  assert (netloc p <> "") as Hnp.
  { intros He. by apply Hh, hostname_none. }
  destruct (norm_path_spec p Hwp Hnp) as (Hph & Hpp & Hp2 & Hp3 & Hp4 & Hp5).
  rewrite Hn, urlunparse_canonical in Hr by done.
  destruct Hwp as [Hs (Hps & _ & _ & Hppar & Hpq) _ _ (Hr1 & Hr2 & Hr3 & Hr4) Hq].
  set (p' := {| scheme := scheme p; netloc := n; path := norm_path p;
                params := params p; query := query p; fragment := "" |}).
  assert (urlparse r = Ok p') as Hp'.
  { rewrite <- Hr. apply urlparse_canonical; try done.
    intros Hm. apply Hp4, contains_false_lacks, Hsemi, Hm. }
  rewrite normalize_url_unfold, (plain_lower r Hplain), Hp'.
  unfold mbind, outcome_bind.
  destruct (Hre p' eq_refl eq_refl) as (po' & -> & Hn').
  rewrite Hn'. f_equal. rewrite <- Hr.
  change (scheme p') with (scheme p). change (params p') with (params p).
  change (query p') with (query p).
  assert (norm_path p' = norm_path p) as -> by exact Hp5.
  by apply urlunparse_canonical.
Qed.

End Normalize.

(** ** The URL utilities *)

Section UrlEvaluations.
Context `{!Externals}.

(** C6.  [normalize_url] is not total: a port that is not a number makes
    the [port] property raise, and nothing catches the exception. *)
Theorem normalize_url_raises_on_malformed_port :
  normalize_url "http://example.com:abc/"
  = Raise (ValueError "Port could not be cast to integer value").
Proof. vm_compute. reflexivity. Qed.

(** The parser itself raises on an unbalanced bracket *)
Lemma normalize_url_raises_on_open_bracket :
  normalize_url "http://[::1/" = Raise (ValueError "Invalid IPv6 URL").
Proof. vm_compute. reflexivity. Qed.

(** C4.  The example of the specification holds, but removing a default
    port also removes the user information: two URLs that differ only in
    the presence of the default port normalize to different strings. *)
Theorem default_port_removal_drops_userinfo :
  normalize_url "HTTP://Example.com:80/a/" = normalize_url "http://example.com/a"
  /\ normalize_url "http://user@example.com:80/a" = Ok "http://example.com/a"
  /\ normalize_url "http://user@example.com/a" = Ok "http://user@example.com/a".
Proof. vm_compute. done. Qed.

(** A trailing slash behind a [;] is not removed the same way either *)
Lemma trailing_slash_after_semicolon :
  normalize_url "http://example.com/;/" = Ok "http://example.com/;"
  /\ normalize_url "http://example.com/;" = Ok "http://example.com/".
Proof. vm_compute. done. Qed.

(** *** [is_same_domain] *)

Lemma is_same_domain_parse_error url domain e :
  urlparse url = Raise e -> is_same_domain url domain = false.
Proof. unfold is_same_domain. by intros ->. Qed.

(** C7, as the code has it.  [is_same_domain] never raises; it compares
    the netloc of the URL, which is the host together with any user
    information and port, with the domain, both lower-cased; when
    ["www."] occurs in neither except as a prefix, the answer is whether
    the netloc without that prefix equals the domain without it or ends
    with a dot followed by that domain.  The two examples of the
    specification hold. *)
Theorem is_same_domain_compares_netloc url domain p :
  urlparse url = Ok p ->
  occurs "www." (strip_www (lower (netloc p))) = false ->
  occurs "www." (strip_www (lower domain)) = false ->
  is_same_domain url domain
  = same_or_subdomain (strip_www (lower (netloc p)))
      (strip_www (lower domain))
  /\ is_same_domain "https://blog.example.com/x" "example.com" = true
  /\ is_same_domain "https://example.org" "example.com" = false.
Proof.
  intros Hp Hn Hd. split; [|by vm_compute].
  unfold is_same_domain. rewrite Hp.
  by rewrite (replace_www _ Hn), (replace_www _ Hd).
Qed.

End UrlEvaluations.

Lemma is_same_domain_compares_netloc_witness :
  @is_same_domain absolute_hrefs "https://WWW.Example.com:8080/x"
    "www.example.com:8080" = true.
Proof.
  destruct (@is_same_domain_compares_netloc absolute_hrefs
              "https://WWW.Example.com:8080/x" "www.example.com:8080"
              {| scheme := "https"; netloc := "WWW.Example.com:8080";
                 path := "/x"; params := ""; query := ""; fragment := "" |})
    as [-> _].
  - vm_compute. reflexivity.
  - vm_compute. reflexivity.
  - vm_compute. reflexivity.
  - vm_compute. reflexivity.
Defined.

(** C7 as stated fails: the host of the URL is the base domain, but the
    port is part of what is compared. *)
Lemma is_same_domain_compares_port :
  (p ← @urlparse absolute_hrefs "http://example.com:8080/x"; Ok (hostname p))
  = Ok (Some "example.com")
  /\ @is_same_domain absolute_hrefs "http://example.com:8080/x" "example.com"
     = false.
Proof. vm_compute. done. Qed.

(** ["www."] is removed wherever it occurs, not only as a prefix *)
Lemma is_same_domain_removes_inner_www :
  @is_same_domain absolute_hrefs "http://mywww.example.com/" "myexample.com"
  = true.
Proof. vm_compute. reflexivity. Qed.

(** C5 as stated fails: two URLs that differ in the case of the path and
    of the query normalize to the same string, all in lower case. *)
Lemma path_case_is_not_preserved :
  @normalize_url absolute_hrefs "http://example.com/Path?Q=A"
  = Ok "http://example.com/path?q=a"
  /\ @normalize_url absolute_hrefs "http://example.com/path?q=a"
     = Ok "http://example.com/path?q=a".
Proof. vm_compute. done. Qed.

(** C10 as stated fails: the normal form of this URL is not its own
    normal form. *)
Lemma normalize_url_not_idempotent :
  @normalize_url absolute_hrefs "http://example.com/a/;/"
  = Ok "http://example.com/a/;"
  /\ @normalize_url absolute_hrefs "http://example.com/a/;"
     = Ok "http://example.com/a".
Proof. vm_compute. done. Qed.

(** Two more ways to lose idempotence: an empty host, and a bracketed
    host with a default port *)
Lemma normalize_url_not_idempotent_empty_host :
  @normalize_url absolute_hrefs "http:////a" = Ok "http://a"
  /\ @normalize_url absolute_hrefs "http://a" = Ok "http://a/".
Proof. vm_compute. done. Qed.

Lemma normalize_url_not_idempotent_bracketed_host :
  @normalize_url absolute_hrefs "http://[::1]:80/x" = Ok "http://::1/x"
  /\ @normalize_url absolute_hrefs "http://::1/x"
     = Raise (ValueError "Port could not be cast to integer value").
Proof. vm_compute. done. Qed.

Lemma normalize_url_lowers_everything_witness :
  @normalize_url absolute_hrefs "http://example.com/path?q=a"
  = Ok "http://example.com/path?q=a"
  /\ lower "http://example.com/path?q=a" = "http://example.com/path?q=a".
Proof.
  apply (@normalize_url_lowers_everything absolute_hrefs
           "HTTP://Example.com/Path?Q=A" "http://example.com/path?q=a").
  - vm_compute. reflexivity.
  - vm_compute. reflexivity.
  - vm_compute. reflexivity.
  - vm_compute. reflexivity.
Defined.

Lemma normalize_url_idempotent_witness :
  @normalize_url absolute_hrefs "http://example.com/a/b?x=1"
  = Ok "http://example.com/a/b?x=1".
Proof.
  apply (@normalize_url_idempotent absolute_hrefs
           "HTTP://User@Example.com:80/a/b/?x=1#f"
           {| scheme := "http"; netloc := "user@example.com:80";
              path := "/a/b/"; params := ""; query := "x=1";
              fragment := "f" |}).
  - vm_compute. reflexivity.
  - vm_compute. reflexivity.
  - vm_compute. discriminate.
  - vm_compute. reflexivity.
  - intros _. vm_compute. reflexivity.
  - vm_compute. reflexivity.
Defined.

(** * Further properties *)

(** ** The crawl *)

Section CrawlScope.
Context `{!Externals}.

(** One loop iteration queues nothing, or queues the link, which then is
    an http(s) link, not yet visited, and internal unless external links
    are followed *)
Lemma enqueue_link_admits context d l s :
  let s' := fst (enqueue_link context d l s) in
  s' = s
  \/ (s' = set_request_queue
             (request_queue s ++ [Request.make (Link.url l) (d + 1)]) s
      /\ snd (enqueue_link context d l s) = Ok tt
      /\ (Link.url l ∉ visited_urls s)
      /\ is_http (Link.url l) = true
      /\ (Link.is_external l = false \/ follow_external s = true)).
Proof.
  unfold enqueue_link, is_http. unfold_action.
  case_bool_decide as Hv; [by left|].
  destruct (Link.is_external l) eqn:Hx, (follow_external s) eqn:Hf; cbn;
    try (by left);
    (destruct (startswith (Link.url l) "http://"
               || startswith (Link.url l) "https://") eqn:Hh; cbn;
       [|by left]);
    (destruct (add_requests context _) as [[]|e|?]; cbn; [|by left..]);
    right; split_and!; auto.
Qed.

(** The links that the handler extracts are flagged against the base
    domain *)
Lemma process_links_flagged s current_url anchors links :
  process_links (base_domain s) current_url anchors = Ok links ->
  Forall (flagged s) links.
Proof.
  revert links. induction anchors as [|[href text] anchors IH]; intros links.
  { intros [= <-]. constructor. }
  cbn. destruct (href =? ""); [apply IH|].
  unfold mbind, outcome_bind.
  destruct (urljoin current_url href) as [u| |]; [|done..].
  destruct (process_links _ _ anchors) as [ls| |]; [|done..].
  intros [= <-]. constructor; [done|]. by apply IH.
Qed.

Lemma render_and_save_links context s links :
  snd (render_and_save context s) = Ok links -> Forall (flagged s) links.
Proof.
  unfold render_and_save, _extract_text_content, _extract_links,
    _extract_assets. unfold_action.
  destruct (title (page context)); [|done..].
  destruct (content (page context)); [|done..].
  destruct (inner_text (page context)); [|done..].
  destruct (anchors (page context)); [|done..].
  destruct (process_links _ _ _) as [ls| |] eqn:Hl; [|done..].
  apply process_links_flagged in Hl.
  destruct (include_assets s).
  - destruct (asset_urls (page context)); [|done..].
    destruct (join_assets _ _); [|done..].
    destruct (save_page _ _ _ _ _ _ _); [|done..].
    destruct (sleep context); [|done..]. by intros [= <-].
  - destruct (save_page _ _ _ _ _ _ _); [|done..].
    destruct (sleep context); [|done..]. by intros [= <-].
Qed.

Lemma flagged_same_config s s' l : same_config s s' -> flagged s l -> flagged s' l.
Proof. unfold flagged. by intros (_ & _ & _ & _ & _ & ->). Qed.

Lemma in_scope_same_config s s' r :
  same_config s s' -> in_scope s r -> in_scope s' r.
Proof. unfold in_scope. by intros (_ & _ & _ & -> & _ & ->). Qed.

Lemma begin_request_flagged context s t :
  snd (begin_request context s) = Some t ->
  Crawler.context t = context /\ Forall (flagged s) (pending t).
Proof.
  rewrite begin_request_unfold. cbn zeta.
  destruct (page_count s >=? max_pages s)%Z; [done|].
  pose proof (render_and_save_state context
                (counted (Request.url (request context)) s)) as Hs.
  pose proof (render_and_save_links context
                (counted (Request.url (request context)) s)) as Hl.
  destruct (render_and_save context _) as [s1 [links|e|?]]; cbn in Hs, Hl;
    subst s1; [|done..].
  destruct (_ >=? _)%Z; [done|]. destruct links as [|l links]; [done|].
  cbn. intros [= <-]. cbn. split; [done|].
  eapply Forall_impl; [by apply Hl|]. intros l'.
  apply flagged_same_config. by repeat split.
Qed.

(** What one loop iteration of a suspended handler adds to the queue is
    in scope *)
Lemma resume_in_scope t s :
  (0 <= Request.depth (request (Crawler.context t)))%Z ->
  Forall (flagged s) (pending t) ->
  (exists added,
     request_queue (fst (resume t s)) = request_queue s ++ added
     /\ Forall (in_scope s) added)
  /\ forall t', snd (resume t s) = Some t' ->
       Crawler.context t' = Crawler.context t /\ Forall (flagged s) (pending t').
Proof.
  intros Hd Hp. unfold resume. destruct (pending t) as [|l links].
  { cbn. split; [|done..]. exists []. by rewrite app_nil_r. }
  apply Forall_cons in Hp as [Hl Hlinks].
  pose proof (enqueue_link_admits (Crawler.context t)
                (Request.depth (request (Crawler.context t))) l s) as Ha.
  cbn zeta in Ha.
  assert (exists added,
            request_queue (fst (enqueue_link (Crawler.context t)
                                  (Request.depth (request (Crawler.context t))) l s))
            = request_queue s ++ added /\ Forall (in_scope s) added) as Hq.
  { destruct Ha as [->|(-> & _ & _ & Hh & Hx)].
    - exists []. by rewrite app_nil_r.
    - eexists. split; [done|]. constructor; [|constructor].
      unfold in_scope. cbn. rewrite depth_make. split_and!; [done|lia|].
      intros Hf. unfold flagged in Hl.
      destruct Hx as [Hx|Hx]; [|congruence].
      rewrite Hx in Hl. by destruct (is_same_domain _ _). }
  destruct (enqueue_link _ _ l s) as [s1 [[]|e|?]]; cbn in *.
  - destruct links as [|l' links]; cbn; (split; [done|]); [done|].
    by intros t' [= <-].
  - split; [done|]. done.
  - split; [done|]. done.
Qed.

Lemma exec_scope_kept m ev : scope_kept m -> scope_kept (exec m ev).
Proof.
  intros [Hq Ht].
  pose proof (exec_same_config m ev) as Hc.
  assert (forall r, r = Request.make (start_url (state m)) 0
                    \/ in_scope (state m) r ->
                    r = Request.make (start_url (state (exec m ev))) 0
                    \/ in_scope (state (exec m ev)) r) as Hr.
  { intros r [->|Hr].
    - left. by destruct Hc as (-> & _).
    - right. by eapply in_scope_same_config. }
  assert (forall t, (0 <= Request.depth (request (Crawler.context t)))%Z
                    /\ Forall (flagged (state m)) (pending t) ->
                    (0 <= Request.depth (request (Crawler.context t)))%Z
                    /\ Forall (flagged (state (exec m ev))) (pending t))
    as Hf.
  { intros t [? Hp]. split; [done|]. eapply Forall_impl; [exact Hp|].
    intros l. by apply flagged_same_config. }
  split.
  - destruct (exec_queue_grows m ev) as [added Hadd].
    assert (Forall (in_scope (state m)) added) as Hin.
    { destruct ev as [context|k|context error]; cbn in Hadd.
      - case_bool_decide; cbn in Hadd.
        + pose proof (begin_request_spec context (state m)) as (_ & Hqueue & _).
          destruct (begin_request context (state m)) as [s' [t|]];
            cbn in *; rewrite Hqueue in Hadd;
            rewrite <- (app_nil_r (request_queue (state m))) in Hadd at 1;
            apply app_inv_head in Hadd as <-; constructor.
        + rewrite <- (app_nil_r (request_queue (state m))) in Hadd at 1.
          apply app_inv_head in Hadd as <-. constructor.
      - destruct (tasks m !! k) as [t|] eqn:Hk; cbn in Hadd.
        + destruct (Forall_lookup_1 _ _ _ _ Ht Hk) as [Hd Hp].
          destruct (resume_in_scope t (state m) Hd Hp)
            as [(added' & Hq' & Hin) _].
          destruct (resume t (state m)) as [s' [t'|]]; cbn in *;
            rewrite Hq' in Hadd; by apply app_inv_head in Hadd as <-.
        + rewrite <- (app_nil_r (request_queue (state m))) in Hadd at 1.
          apply app_inv_head in Hadd as <-. constructor.
      - case_bool_decide; cbn in Hadd;
          rewrite <- (app_nil_r (request_queue (state m))) in Hadd at 1;
          apply app_inv_head in Hadd as <-; constructor. }
    rewrite Hadd. apply Forall_app. split.
    + eapply Forall_impl; [exact Hq|]. exact Hr.
    + eapply Forall_impl; [exact Hin|]. intros r Hin'. apply Hr. by right.
  - destruct ev as [context|k|context error]; cbn in Hf |- *.
    + case_bool_decide as Hin; [|by eapply Forall_impl; [exact Ht|]].
      pose proof (begin_request_flagged context (state m)) as Hb.
      destruct (begin_request context (state m)) as [s' [t|]]; cbn in *;
        [|by eapply Forall_impl; [exact Ht|]].
      apply Forall_app. split; [by eapply Forall_impl; [exact Ht|]|].
      constructor; [|constructor]. apply Hf.
      destruct (Hb t eq_refl) as [-> Hp]. split; [|done..].
      rewrite Forall_forall in Hq.
      destruct (Hq _ Hin) as [->|(_ & ? & _)]; [by rewrite depth_make|lia].
    + destruct (tasks m !! k) as [t|] eqn:Hk;
        [|by eapply Forall_impl; [exact Ht|]].
      destruct (Forall_lookup_1 _ _ _ _ Ht Hk) as [Hd Hp].
      destruct (resume_in_scope t (state m) Hd Hp) as [_ Ht'].
      destruct (resume t (state m)) as [s' [t'|]]; cbn in *.
      * apply Forall_insert; [by eapply Forall_impl; [exact Ht|]|].
        apply Hf. destruct (Ht' t' eq_refl) as [-> ?]. done.
      * apply Forall_delete. by eapply Forall_impl; [exact Ht|].
    + case_bool_decide; cbn in *; by eapply Forall_impl; [exact Ht|].
Qed.

Lemma run_scope_kept events m : scope_kept m -> scope_kept (run events m).
Proof.
  revert m. induction events as [|ev events IH]; intros m Hm; [done|].
  cbn. apply IH. by apply exec_scope_kept.
Qed.

End CrawlScope.

Section CrawlRuns.
Context `{!Externals}.

(** The seed belongs to the domain that the constructor takes from it *)
Lemma seed_in_base_domain config crawler :
  __init__ config = Ok crawler ->
  is_same_domain (start_url crawler) (base_domain crawler) = true.
Proof.
  unfold __init__, _setup_crawler, is_same_domain.
  destruct (urlparse (cfg_start_url config)) as [parsed| |] eqn:Hp; [|done..].
  cbn. destruct (markdown_writer _); cbn; [|done..].
  destruct playwright_crawler; cbn; [|done..].
  intros [= <-]. cbn. rewrite Hp. by rewrite String.eqb_refl.
Qed.

Lemma seeded_scope_kept config crawler :
  __init__ config = Ok crawler ->
  scope_kept {| state := seeded crawler; tasks := [] |}.
Proof.
  intros Hinit. destruct (init_spec _ _ Hinit) as (_ & _ & _ & _ & _ & Hq & _).
  split; [|constructor]. cbn. rewrite Hq. cbn.
  constructor; [by left|constructor].
Qed.

(** X1. Whatever is in the queue besides the seed is an http(s) link found
    on a handled page, at depth 1 or more *)
Theorem queued_links_are_http config crawler events r :
  __init__ config = Ok crawler ->
  r ∈ request_queue
        (state (run events {| state := seeded crawler; tasks := [] |})) ->
  r = Request.make (start_url crawler) 0
  \/ (is_http (Request.url r) = true /\ (1 <= Request.depth r)%Z).
Proof.
  intros Hinit Hr.
  set (m0 := {| state := seeded crawler; tasks := [] |}) in *.
  destruct (run_scope_kept events m0 (seeded_scope_kept _ _ Hinit)) as [Hq _].
  pose proof (run_same_config events m0) as (Hs & _).
  rewrite Forall_forall in Hq. destruct (Hq r Hr) as [->|(? & ? & _)].
  - left. by rewrite Hs.
  - by right.
Qed.

(** X2. Unless external links are followed, every queued request is for a
    URL of the base domain *)
Theorem queued_links_are_internal config crawler events r :
  __init__ config = Ok crawler ->
  follow_external crawler = false ->
  r ∈ request_queue
        (state (run events {| state := seeded crawler; tasks := [] |})) ->
  is_same_domain (Request.url r) (base_domain crawler) = true.
Proof.
  intros Hinit Hf Hr.
  set (m0 := {| state := seeded crawler; tasks := [] |}) in *.
  destruct (run_scope_kept events m0 (seeded_scope_kept _ _ Hinit)) as [Hq _].
  pose proof (run_same_config events m0) as (Hs & _ & _ & Hfe & _ & Hb).
  cbn in Hs, Hfe, Hb.
  rewrite Forall_forall in Hq. destruct (Hq r Hr) as [->|(_ & _ & Hin)].
  - rewrite Hs. cbn. by apply (seed_in_base_domain config).
  - rewrite <- Hb. apply Hin. by rewrite Hfe.
Qed.

(** *** What a run never undoes *)



(** *** Distinct pages *)

Lemma size_insert_visited (u : string) (V : gset string) :
  (size ({[ u ]} ∪ V) <= S (size V))%nat.
Proof.
  destruct (decide (u ∈ V)) as [Hin|Hout].
  - rewrite (subseteq_union_1_L {[ u ]} V) by (by apply singleton_subseteq_l).
    lia.
  - rewrite size_union by (by apply disjoint_singleton_l).
    rewrite size_singleton. lia.
Qed.

Lemma exec_visited_counted m ev :
  (Z.of_nat (size (visited_urls (state m))) <= page_count (state m))%Z ->
  (Z.of_nat (size (visited_urls (state (exec m ev))))
   <= page_count (state (exec m ev)))%Z.
Proof.
  intros Hm. destruct ev as [context|k|context error]; cbn.
  - case_bool_decide; [|done..].
    pose proof (begin_request_spec context (state m)) as (_ & _ & Hc & _).
    pose proof (size_insert_visited (Request.url (request context))
                  (visited_urls (state m))) as Hsz.
    destruct (begin_request context (state m)) as [s' [t|]]; cbn in *;
      destruct Hc as [(_ & -> & -> & _)|(_ & -> & ->)]; lia.
  - destruct (tasks m !! k) as [t|]; [|done..].
    pose proof (resume_spec t (state m)) as ((_ & Hv & Hp & _) & _).
    destruct (resume t (state m)) as [s' [t'|]]; cbn in *;
      rewrite Hv, Hp; done.
  - case_bool_decide; done.
Qed.

Lemma run_visited_counted events m :
  (Z.of_nat (size (visited_urls (state m))) <= page_count (state m))%Z ->
  (Z.of_nat (size (visited_urls (state (run events m))))
   <= page_count (state (run events m)))%Z.
Proof.
  revert m. induction events as [|ev events IH]; intros m Hm; [done|].
  cbn. apply IH. by apply exec_visited_counted.
Qed.

(** X4. The distinct URLs marked visited are never more than the pages
    counted, and so never more than [max_pages] *)
Theorem visited_urls_within_max_pages config crawler events :
  __init__ config = Ok crawler ->
  (0 <= max_pages crawler)%Z ->
  let s := state (run events {| state := seeded crawler; tasks := [] |}) in
  (Z.of_nat (size (visited_urls s)) <= page_count s)%Z
  /\ (Z.of_nat (size (visited_urls s)) <= max_pages crawler)%Z.
Proof.
  intros Hinit Hmax s.
  destruct (init_spec _ _ Hinit) as (_ & _ & _ & Hv & Hp & _).
  set (m0 := {| state := seeded crawler; tasks := [] |}) in *.
  assert (Z.of_nat (size (visited_urls s)) <= page_count s)%Z as Hsz.
  { apply run_visited_counted. cbn. rewrite Hv, Hp, size_empty. lia. }
  split; [done|].
  pose proof (run_same_config events m0) as (_ & _ & Hm & _).
  pose proof (run_within_page_limit events m0) as Hinv.
  unfold within_page_limit in Hinv. cbn in Hinv, Hm.
  fold s in Hinv, Hm. rewrite <- Hm. etrans; [apply Hsz|]. apply Hinv. lia.
Qed.

(** *** Once the limit is reached *)

Lemma same_but_log_trans s1 s2 s3 :
  same_but_log s1 s2 -> same_but_log s2 s3 -> same_but_log s1 s3.
Proof.
  intros (Hc1 & Hv1 & Hp1 & Hq1) (Hc2 & Hv2 & Hp2 & Hq2).
  split; [by eapply same_config_trans|].
  rewrite Hv2, Hp2, Hq2. done.
Qed.

Lemma exec_after_limit m ev :
  tasks m = [] ->
  (max_pages (state m) <= page_count (state m))%Z ->
  tasks (exec m ev) = [] /\ same_but_log (state m) (state (exec m ev)).
Proof.
  intros Ht Hmax. destruct ev as [context|k|context error]; cbn.
  - case_bool_decide; [|split; [done|apply same_but_log_refl]].
    rewrite begin_request_unfold. cbn zeta.
    destruct (Z.geb_spec (page_count (state m)) (max_pages (state m)));
      [|lia].
    cbn. rewrite Ht. split; [done|]. repeat split.
  - rewrite Ht. cbn. split; [done|apply same_but_log_refl].
  - case_bool_decide; cbn; (split; [done|]);
      [repeat split|apply same_but_log_refl].
Qed.

Lemma run_after_limit events m :
  tasks m = [] ->
  (max_pages (state m) <= page_count (state m))%Z ->
  tasks (run events m) = []
  /\ same_but_log (state m) (state (run events m)).
Proof.
  revert m. induction events as [|ev events IH]; intros m Ht Hmax.
  { split; [done|apply same_but_log_refl]. }
  destruct (exec_after_limit m ev Ht Hmax) as [Ht1 Hs1].
  cbn. destruct (IH (exec m ev) Ht1) as [Ht2 Hs2].
  { destruct Hs1 as ((_ & _ & -> & _) & _ & -> & _). done. }
  split; [done|]. by eapply same_but_log_trans.
Qed.

(** X5. Once [max_pages] pages are counted and no handler is in the middle
    of a page, nothing that happens changes the crawler but for its log: no
    page is counted, no URL marked and no request queued *)
Theorem nothing_happens_after_the_limit events m :
  tasks m = [] ->
  (max_pages (state m) <= page_count (state m))%Z ->
  tasks (run events m) = []
  /\ same_but_log (state m) (state (run events m)).
Proof. apply run_after_limit. Qed.

(** X6. With [max_pages] at 0 or below, the crawl handles no page: whatever
    the library does, no page is counted, no URL is marked as visited and
    the queue holds the seed alone *)
Theorem no_page_budget_crawls_nothing config crawler events :
  __init__ config = Ok crawler ->
  (max_pages crawler <= 0)%Z ->
  let s := state (run events {| state := seeded crawler; tasks := [] |}) in
  page_count s = 0%Z /\ visited_urls s = ∅
  /\ request_queue s = [Request.make (start_url crawler) 0].
Proof.
  intros Hinit Hmax s.
  destruct (init_spec _ _ Hinit) as (_ & _ & _ & Hv & Hp & Hq & _).
  destruct (run_after_limit events {| state := seeded crawler; tasks := [] |})
    as (_ & _ & Hv' & Hp' & Hq'); [done|cbn; lia|].
  fold s in Hv', Hp', Hq'. cbn in Hv', Hp', Hq'.
  by rewrite Hv', Hp', Hq', Hv, Hp, Hq.
Qed.

(** *** The log *)

Lemma logged_on_refl s : logged_on s s.
Proof. exists []. by rewrite app_nil_r. Qed.

Lemma logged_on_trans s1 s2 s3 :
  logged_on s1 s2 -> logged_on s2 s3 -> logged_on s1 s3.
Proof.
  intros (m1 & H1 & N1) (m2 & H2 & N2). exists (m1 ++ m2).
  rewrite H2, H1, app_assoc. split; [done|].
  unfold crawling_numbers in *. by rewrite omap_app, N1, N2.
Qed.

Lemma enqueue_link_log context d l s :
  log (fst (enqueue_link context d l s)) = log s.
Proof.
  by destruct (enqueue_link_admits context d l s) as [->|(-> & _)].
Qed.

Lemma numbered_logged_on s s' :
  page_count s' = page_count s ->
  logged_on s s' -> numbered s -> numbered s'.
Proof.
  intros Hp (more & Hl & Hn) (H0 & Hs). split; [by rewrite Hp|].
  unfold crawling_numbers in *.
  by rewrite Hl, omap_app, Hn, app_nil_r, Hp.
Qed.

Lemma numbered_counted url s : numbered s -> numbered (counted url s).
Proof.
  intros (H0 & Hs). split; cbn; [lia|].
  unfold crawling_numbers in *. rewrite omap_app, Hs. cbn.
  replace (Z.to_nat (page_count s + 1)) with (S (Z.to_nat (page_count s)))
    by lia.
  rewrite seq_S, fmap_app. cbn. do 2 f_equal. lia.
Qed.

Lemma begin_request_numbered context s :
  numbered s -> numbered (fst (begin_request context s)).
Proof.
  intros Hs. rewrite begin_request_unfold. cbn zeta.
  destruct (page_count s >=? max_pages s)%Z; cbn.
  { eapply numbered_logged_on; [| |exact Hs]; [done|]. by eexists [_]. }
  pose proof (render_and_save_state context
                (counted (Request.url (request context)) s)) as Hst.
  apply (numbered_counted (Request.url (request context))) in Hs.
  destruct (render_and_save context _) as [s1 [links|e|?]]; cbn in Hst;
    subst s1.
  - destruct (_ >=? _)%Z; [done|]. by destruct links.
  - eapply numbered_logged_on; [| |exact Hs]; [done|]. by eexists [_].
  - done.
Qed.

Lemma resume_numbered t s : numbered s -> numbered (fst (resume t s)).
Proof.
  intros Hs. unfold resume. destruct (pending t) as [|l links]; [done|].
  pose proof (enqueue_link_log (context t)
                (Request.depth (request (context t))) l s) as Hl.
  pose proof (enqueue_link_enqueued (context t)
                (Request.depth (request (context t))) l s)
    as (_ & _ & Hp & _).
  destruct (enqueue_link _ _ l s) as [s1 [[]|e|?]]; cbn in *.
  - assert (numbered s1).
    { eapply numbered_logged_on; [exact Hp| |exact Hs].
      exists []. by rewrite app_nil_r. }
    by destruct links.
  - eapply numbered_logged_on; [| |exact Hs]; [exact Hp|].
    exists [error_processing (Request.url (request (context t))) e].
    cbn. by rewrite Hl.
  - eapply numbered_logged_on; [exact Hp| |exact Hs].
    exists []. by rewrite app_nil_r, Hl.
Qed.

Lemma exec_numbered m ev :
  numbered (state m) -> numbered (state (exec m ev)).
Proof.
  intros Hm. destruct ev as [context|k|context error]; cbn.
  - case_bool_decide; [|done..].
    pose proof (begin_request_numbered context _ Hm).
    by destruct (begin_request context (state m)) as [s' [t|]].
  - destruct (tasks m !! k) as [t|]; [|done..].
    pose proof (resume_numbered t _ Hm).
    by destruct (resume t (state m)) as [s' [t'|]].
  - case_bool_decide; [|done..]. cbn.
    eapply numbered_logged_on; [| |exact Hm]; [done|]. by eexists [_].
Qed.

Lemma run_numbered events m :
  numbered (state m) -> numbered (state (run events m)).
Proof.
  revert m. induction events as [|ev events IH]; intros m Hm; [done|].
  cbn. apply IH. by apply exec_numbered.
Qed.

(** X7. The "Crawling [n/max]" records of the log number the handled pages
    1, 2, ... in the order they were handled, up to [page_count]: none is
    skipped and none is used twice, however the handlers interleave *)
Theorem crawled_pages_are_numbered_in_order config crawler events :
  __init__ config = Ok crawler ->
  let s := state (run events {| state := seeded crawler; tasks := [] |}) in
  crawling_numbers (log s) = Z.of_nat <$> seq 1 (Z.to_nat (page_count s)).
Proof.
  intros Hinit s.
  destruct (init_spec _ _ Hinit) as (_ & _ & _ & _ & Hp & _ & Hl).
  apply run_numbered. split; cbn; [lia|]. by rewrite Hl, Hp.
Qed.

(** *** One page *)







(** X9. A page at [max_depth] or deeper is counted and saved like any other,
    but none of its links is queued *)
Theorem pages_at_max_depth_queue_nothing context s :
  (max_depth s <= Request.depth (request context))%Z ->
  request_queue (fst (_handle_request context s)) = request_queue s.
Proof.
  intros Hd. rewrite handle_request_unfold. cbn zeta.
  destruct (_ >=? _)%Z; [done|].
  pose proof (render_and_save_state context
                (counted (Request.url (request context)) s)) as Hst.
  destruct (render_and_save context _) as [s1 [links|e|?]]; cbn in Hst;
    [|done..].
  unfold try_.
  rewrite enqueue_links_at_max_depth; [done|]. done.
Qed.

(** *** The enqueue loop *)

Lemma enqueue_loop_app context d before after s :
  enqueue_loop context d (before ++ after) s =
  match enqueue_loop context d before s with
  | (s1, Ok _) => enqueue_loop context d after s1
  | (s1, Raise e) => (s1, Raise e)
  | (s1, RaiseBase b) => (s1, RaiseBase b)
  end.
Proof.
  revert s. induction before as [|l before IH]; intros s; [done|].
  cbn [app enqueue_loop]. unfold_action.
  destruct (enqueue_link context d l s) as [s1 [[]|e|?]]; [|done..].
  apply IH.
Qed.

(** X10. When the library refuses a link that the loop would queue, the loop
    stops there: the links before it stay queued, the refused link and all
    the links after it on the page are not queued *)
Theorem enqueue_stops_at_refused_link context d before l after s s1 e :
  enqueue_loop context d before s = (s1, Ok tt) ->
  (Link.url l ∉ visited_urls s) ->
  is_http (Link.url l) = true ->
  Link.is_external l && negb (follow_external s) = false ->
  add_requests context (Request.make (Link.url l) (d + 1)) = Raise e ->
  enqueue_loop context d (before ++ l :: after) s = (s1, Raise e).
Proof.
  intros Hb Hv Hh Hx Ha. rewrite enqueue_loop_app, Hb.
  pose proof (enqueue_loop_enqueued context d before s) as Hen.
  rewrite Hb in Hen. destruct Hen as ((_ & _ & _ & Hf & _) & Hv1 & _).
  cbn in Hf, Hv1.
  cbn [enqueue_loop]. unfold enqueue_link. unfold_action.
  rewrite Hv1, Hf. rewrite bool_decide_false by done.
  rewrite Hx. unfold is_http in Hh. rewrite Hh. cbn. by rewrite Ha.
Qed.

(** *** The whole pipeline *)




End CrawlRuns.

(** ** What is read off a page *)

Section Extraction.
Context `{!Externals}.

Lemma process_links_spec base_domain current_url found links :
  process_links base_domain current_url found = Ok links ->
  Forall2 (fun a l =>
             urljoin current_url a.1 = Ok (Link.url l)
             /\ Link.text l = a.2
             /\ Link.is_external l
                = negb (is_same_domain (Link.url l) base_domain))
    (List.filter (fun a => negb (a.1 =? "")) found) links.
Proof.
  revert links. induction found as [|[href text] found IH]; intros links.
  { intros [= <-]. constructor. }
  cbn. destruct (href =? ""); cbn; [apply IH|].
  unfold mbind, outcome_bind.
  destruct (urljoin current_url href) as [u| |] eqn:Hu; [|done..].
  destruct (process_links _ _ found) as [ls| |]; [|done..].
  intros [= <-]. constructor; [done|]. by apply IH.
Qed.

(** X12. [_extract_links] drops the anchors whose [href] is empty and keeps
    the others in the order of the page: each with its text, its URL joined
    to the URL of the page, and flagged external exactly when
    [is_same_domain] does not accept that URL for the base domain. The
    crawler is not changed *)
Theorem extracted_links_follow_the_anchors page current_url s links :
  snd (_extract_links page current_url s) = Ok links ->
  fst (_extract_links page current_url s) = s
  /\ exists found,
       anchors page = Ok found
       /\ Forall2 (fun a l =>
                     urljoin current_url a.1 = Ok (Link.url l)
                     /\ Link.text l = a.2
                     /\ Link.is_external l
                        = negb (is_same_domain (Link.url l) (base_domain s)))
            (List.filter (fun a => negb (a.1 =? "")) found) links.
Proof.
  unfold _extract_links. unfold_action.
  destruct (anchors page) as [found| |]; [|done..]. cbn.
  destruct (process_links _ _ found) as [ls| |] eqn:Hl; [|done..].
  cbn. intros [= <-]. split; [done|]. exists found. split; [done|].
  by apply process_links_spec.
Qed.

Lemma join_all_spec current_url urls joined :
  join_all current_url urls = Ok joined ->
  Forall2 (fun u u' => urljoin current_url u = Ok u') urls joined.
Proof.
  revert joined. induction urls as [|u urls IH]; intros joined.
  { intros [= <-]. constructor. }
  cbn. unfold mbind, outcome_bind.
  destruct (urljoin current_url u) as [u'| |] eqn:Hu; [|done..].
  destruct (join_all _ urls) as [us| |]; [|done..].
  intros [= <-]. constructor; [done|]. by apply IH.
Qed.

Lemma join_assets_spec current_url found assets :
  join_assets current_url found = Ok assets ->
  Forall2 (fun f a =>
             a.1 = f.1
             /\ Forall2 (fun u u' => urljoin current_url u = Ok u') f.2 a.2)
    found assets.
Proof.
  revert assets. induction found as [|[ty urls] found IH]; intros assets.
  { intros [= <-]. constructor. }
  cbn. unfold mbind, outcome_bind.
  destruct (join_all current_url urls) as [us| |] eqn:Hu; [|done..].
  destruct (join_assets _ found) as [r| |]; [|done..].
  intros [= <-]. constructor; [|by apply IH].
  split; [done|]. by apply join_all_spec.
Qed.

(** X13. [_extract_assets] keeps the asset types, their order, and for each
    type its URLs in their order, each one joined to the URL of the page;
    the crawler is not changed *)
Theorem extracted_assets_keep_their_types page current_url s assets :
  snd (_extract_assets page current_url s) = Ok assets ->
  fst (_extract_assets page current_url s) = s
  /\ exists found,
       asset_urls page = Ok found
       /\ Forall2 (fun f a =>
                     a.1 = f.1
                     /\ Forall2 (fun u u' => urljoin current_url u = Ok u')
                          f.2 a.2)
            found assets.
Proof.
  unfold _extract_assets. unfold_action.
  destruct (asset_urls page) as [found| |]; [|done..]. cbn.
  destruct (join_assets _ found) as [r| |] eqn:Hj; [|done..].
  cbn. intros [= <-]. split; [done|]. exists found. split; [done|].
  by apply join_assets_spec.
Qed.

End Extraction.

(** ** URLs *)

(** *** What is appended to a URL *)

Lemma lstrip_append_stop P a c b :
  P c = false -> lstrip P (a +:+ String c b) = lstrip P a +:+ String c b.
Proof.
  intros Hc. induction a as [|x a IH]; cbn.
  - by rewrite Hc.
  - by destruct (P x).
Qed.

Lemma remove_char_append c a b :
  replace (String c "") "" (a +:+ b)
  = replace (String c "") "" a +:+ replace (String c "") "" b.
Proof.
  unfold replace. induction a as [|x a IH]; cbn; [done|].
  destruct (ascii_dec c x) as [<-|Hx]; cbn; rewrite ?prefix_empty;
    [done|by rewrite IH].
Qed.

Lemma remove_char_keep c x b :
  c <> x ->
  replace (String c "") "" (String x b)
  = String x (replace (String c "") "" b).
Proof.
  intros Hx. unfold replace. cbn.
  destruct (ascii_dec c x) as [?|_]; [done|]. by cbn.
Qed.

Lemma remove_unsafe_append a b :
  remove_unsafe (a +:+ b) = remove_unsafe a +:+ remove_unsafe b.
Proof.
  unfold remove_unsafe, TAB, CR, LF. by rewrite !remove_char_append.
Qed.

Lemma remove_unsafe_keep c b :
  c0_control_or_space c = false ->
  remove_unsafe (String c b) = String c (remove_unsafe b).
Proof.
  intros Hc. unfold remove_unsafe, TAB, CR, LF.
  by rewrite !remove_char_keep by (by intros <-).
Qed.

Lemma remove_unsafe_forall P x :
  forall_chars P x = true -> forall_chars P (remove_unsafe x) = true.
Proof.
  intros Hx. unfold remove_unsafe, TAB, CR, LF.
  by apply (remove_char_spec P), (remove_char_spec P), (remove_char_spec P).
Qed.

Lemma clean_append c x f :
  c0_control_or_space c = false ->
  clean (x +:+ String c f) = clean x +:+ String c (remove_unsafe f).
Proof.
  intros Hc. unfold clean. fold (remove_unsafe (lstrip c0_control_or_space x)).
  fold (remove_unsafe (lstrip c0_control_or_space (x +:+ String c f))).
  by rewrite lstrip_append_stop, remove_unsafe_append, remove_unsafe_keep.
Qed.

Lemma clean_forall P x :
  forall_chars P x = true -> forall_chars P (clean x) = true.
Proof.
  intros Hx. unfold clean. fold (remove_unsafe (lstrip c0_control_or_space x)).
  destruct (lstrip_spec c0_control_or_space x) as (n & -> & _).
  by apply remove_unsafe_forall, forall_chars_drop.
Qed.

Lemma find_append_some c a b i :
  find c a = Some i -> find c (a +:+ b) = Some i.
Proof.
  revert i. induction a as [|x a IH]; intros i; cbn; [done|].
  destruct (Ascii.eqb x c); [done|].
  destruct (find c a) as [k|]; cbn; [|done..].
  intros [= <-]. by rewrite (IH k).
Qed.

Lemma find_append_none c a b :
  find c a = None ->
  find c (a +:+ b) = Nat.add (String.length a) <$> find c b.
Proof.
  induction a as [|x a IH]; cbn.
  - intros _. by destruct (find c b).
  - destruct (Ascii.eqb x c); [done|].
    destruct (find c a) as [k|]; cbn; [done|]. intros _.
    rewrite IH by done. by destruct (find c b).
Qed.

Lemma find_some_lt c a i : find c a = Some i -> (i < String.length a)%nat.
Proof.
  revert i. induction a as [|x a IH]; intros i; cbn; [done|].
  destruct (Ascii.eqb x c); [intros [= <-]; lia|].
  destruct (find c a) as [k|]; cbn; [|done..].
  intros [= <-]. specialize (IH k eq_refl). lia.
Qed.

Lemma take_append_le n a b :
  (n <= String.length a)%nat -> take n (a +:+ b) = take n a.
Proof.
  revert n. induction a as [|x a IH]; intros [|n]; cbn; try done; try lia.
  intros Hn. rewrite IH; [done|lia].
Qed.

Lemma take_append_ge n a b :
  take (String.length a + n) (a +:+ b) = a +:+ take n b.
Proof. induction a as [|x a IH]; cbn; [done|]. by rewrite IH. Qed.

Lemma span_append_delim P a c b :
  P c = true ->
  span P (a +:+ String c b) = ((span P a).1, (span P a).2 +:+ String c b).
Proof.
  intros Hc. induction a as [|x a IH]; cbn.
  - by rewrite Hc.
  - destruct (P x); [done|]. rewrite IH. by destruct (span P a).
Qed.

(** A character that cannot be part of a scheme, after a URL, leaves
    the scheme of the URL as it is *)
Lemma split_scheme_append c y g :
  scheme_char c = false -> c <> ":"%char ->
  split_scheme (y +:+ String c g)
  = ((split_scheme y).1, (split_scheme y).2 +:+ String c g).
Proof.
  intros Hc Hcolon. unfold split_scheme.
  destruct (find ":" y) as [i|] eqn:Hf.
  - rewrite (find_append_some _ _ _ _ Hf). destruct i as [|i]; [done|].
    pose proof (find_some_lt _ _ _ Hf).
    rewrite take_append_le, drop_append_le by lia.
    replace (String.get 0 (y +:+ String c g)) with (String.get 0 y)
      by (by destruct y).
    by destruct (_ && _).
  - rewrite find_append_none by done. cbn [find].
    apply Ascii.eqb_neq in Hcolon. rewrite Hcolon.
    destruct (find ":" g) as [k|]; cbn [fmap option_fmap option_map];
      [|done].
    rewrite Nat.add_succ_r.
    replace (S (String.length y + k)) with (String.length y + S k)%nat by lia.
    rewrite take_append_ge, forall_chars_append. cbn [take forall_chars].
    rewrite Hc. cbn [andb].
    by rewrite !andb_false_r.
Qed.

Lemma split_at_append c a b :
  lacks c a = true ->
  split_at c (a +:+ b) = (a +:+ (split_at c b).1, (split_at c b).2).
Proof.
  intros Ha. unfold split_at. rewrite !contains_lacks, lacks_append, Ha.
  cbn [andb]. destruct (lacks c b) eqn:Hb; [done|]. cbn [negb].
  destruct (span_spec (fun x => Ascii.eqb x c) b) as (Hs & Hh & Ht).
  destruct (span (fun x => Ascii.eqb x c) b) as [h t]. cbn [fst snd] in *.
  destruct Ht as [->|Ht].
  { rewrite append_nil_r in Hs. subst h. unfold lacks in Hb. congruence. }
  destruct t as [|x t]; [done|]. cbn in Ht. apply Ascii.eqb_eq in Ht as ->.
  subst b. rewrite <- append_assoc.
  rewrite !partition_append; [done|done|].
  by rewrite lacks_append, Ha.
Qed.

Lemma lower_lacks c s :
  is_lower c = false -> lacks c s = true -> lacks c (lower s) = true.
Proof.
  intros Hc. apply lower_forall_chars. intros x Hx.
  destruct (Ascii.eqb (lower_char x) c) eqn:He; [|done..].
  apply Ascii.eqb_eq in He. subst c. unfold lower_char in *.
  destruct (is_upper x) eqn:Hu; [|by rewrite Ascii.eqb_refl in Hx].
  exfalso. revert Hu Hc. clear.
  by destruct x as [[] [] [] [] [] [] [] []].
Qed.

Lemma rstrip_append_self c a : rstrip c (a +:+ String c "") = rstrip c a.
Proof.
  induction a as [|x a IH]; cbn.
  - by rewrite Ascii.eqb_refl.
  - by rewrite IH.
Qed.

Section Tails.
Context `{!Externals}.

Lemma split_netloc_append c r g :
  is_delim c = true -> c <> "/"%char ->
  split_netloc (r +:+ String c g)
  = ('(n, rest) ← split_netloc r; Ok (n, rest +:+ String c g)).
Proof.
  intros Hd Hs. apply Ascii.eqb_neq in Hs.
  unfold split_netloc. destruct r as [|a [|b t]].
  - cbn. rewrite Hs. done.
  - cbn. rewrite Hs. by destruct (Ascii.eqb a "/").
  - cbn [String.append].
    change (take 2 (String a (String b (t +:+ String c g))))
      with (String a (String b "")).
    change (take 2 (String a (String b t))) with (String a (String b "")).
    destruct (String a (String b "") =? "//"); [|done..].
    rewrite !splitnetloc_span, span_append_delim by done.
    destruct (span is_delim t) as [n rest]. cbn [fst snd].
    destruct (_ || _); [done|].
    by destruct (if contains "[" n && contains "]" n
                 then _check_bracketed_netloc n else Ok tt).
Qed.

(** [urlsplit] on a URL without ["?"] and ["#"], and on the same URL
    with a query or a fragment appended *)
Lemma urlsplit_tail c x t :
  c = "?"%char \/ c = "#"%char ->
  lacks "?" x = true -> lacks "#" x = true ->
  urlsplit (x +:+ String c t)
  = ('(s, n, u, _, _) ← urlsplit x;
     let '(t, fr) :=
       split_at "#" (String c (remove_unsafe t)) in
     let '(_, q) := split_at "?" t in
     Ok (s, n, u, q, fr)).
Proof.
  intros Hc Hq Hf. rewrite !urlsplit_unfold. cbn zeta.
  rewrite clean_append, split_scheme_append
    by (by destruct Hc as [->| ->]).
  apply clean_forall in Hq, Hf.
  apply (split_scheme_rest _ (clean x)) in Hq, Hf.
  destruct (split_scheme (clean x)) as [s r]. cbn [fst snd] in *.
  rewrite split_netloc_append by (by destruct Hc as [->| ->]).
  destruct (split_netloc r) as [[n rest]|e|?] eqn:Hn; [|done..].
  destruct (split_netloc_forall _ _ _ _ Hn Hq) as [_ Hq'].
  destruct (split_netloc_forall _ _ _ _ Hn Hf) as [_ Hf'].
  cbn [mbind outcome_bind].
  rewrite (split_at_lacks "#" rest), (split_at_lacks "?" rest) by done.
  rewrite (split_at_append "#" rest) by done.
  set (tl := remove_unsafe t).
  destruct Hc as [->| ->].
  - (* a query, and maybe a fragment in it *)
    assert (exists q, (split_at "#" (String "?" tl)).1 = String "?" q
                      /\ split_at "?" (String "?" q) = ("", q))
      as (q & Hq1 & Hq2).
    { pose proof (split_at_append "#" "?" tl eq_refl) as Ha.
      cbn [String.append] in Ha. rewrite Ha. cbn [fst]. eexists.
      split; [done|]. apply (split_at_found "?" ""). done. }
    destruct (split_at "#" (String "?" tl)) as [t1 fr]. cbn [fst snd] in *.
    subst t1. rewrite split_at_found by done. rewrite Hq2.
    by destruct (_checknetloc n).
  - pose proof (split_at_found "#" "" tl eq_refl) as Ha.
    cbn [String.append] in Ha. rewrite Ha. cbn [fst snd].
    rewrite append_nil_r, (split_at_lacks "?" rest) by done.
    change (split_at "?" "") with ("", "").
    by destruct (_checknetloc n).
Qed.

Lemma urlparse_lacks_query x p :
  lacks "?" x = true -> lacks "#" x = true ->
  urlparse x = Ok p -> query p = "".
Proof.
  intros Hq Hf. rewrite urlparse_unfold, urlsplit_unfold. cbn zeta.
  apply clean_forall in Hq, Hf.
  apply (split_scheme_rest _ (clean x)) in Hq, Hf.
  destruct (split_scheme (clean x)) as [s r]. cbn [fst snd] in *.
  destruct (split_netloc r) as [[n rest]|e|?] eqn:Hn; [|done..].
  destruct (split_netloc_forall _ _ _ _ Hn Hq) as [_ Hq'].
  destruct (split_netloc_forall _ _ _ _ Hn Hf) as [_ Hf'].
  cbn [mbind outcome_bind].
  rewrite (split_at_lacks "#" rest), (split_at_lacks "?" rest) by done.
  destruct (_checknetloc n); [|done..]. unfold mbind, outcome_bind.
  destruct (if mem s uses_params && contains ";" rest
            then _splitparams rest else (rest, "")).
  by intros [= <-].
Qed.

(** ... [urlparse] finds the same scheme, netloc, path and parameters,
    or raises the same exception *)
Lemma urlparse_tail_lacks c x t :
  c = "?"%char \/ c = "#"%char ->
  lacks "?" x = true -> lacks "#" x = true ->
  urlparse (x +:+ String c t)
  = (p ← urlparse x;
     Ok {| scheme := scheme p; netloc := netloc p; path := path p;
           params := params p;
           query :=
             (split_at "?"
                (split_at "#" (String c (remove_unsafe t))).1).2;
           fragment := (split_at "#" (String c (remove_unsafe t))).2 |}).
Proof.
  intros Hc Hq Hf. rewrite !urlparse_unfold, urlsplit_tail by done.
  destruct (urlsplit x) as [[[[[s n] p] q] fr]| |]; [|done..].
  unfold mbind, outcome_bind.
  destruct (split_at "#" (String c (remove_unsafe t))) as [t1 fr1].
  cbn [fst snd].
  destruct (split_at "?" t1) as [? q1]. cbn [fst snd].
  by destruct (if mem s uses_params && contains ";" p
               then _splitparams p else (p, "")).
Qed.

Lemma split_at_first c s t :
  (split_at c (s +:+ String c t)).1 = (split_at c s).1.
Proof.
  destruct (span_spec (fun x => Ascii.eqb x c) s) as (Hs & Hh & Ht).
  destruct (span (fun x => Ascii.eqb x c) s) as [h tl]. cbn [fst snd] in *.
  destruct Ht as [->|Ht].
  { rewrite append_nil_r in Hs. subst h.
    by rewrite split_at_found, split_at_lacks. }
  destruct tl as [|x tl]; [done|]. cbn in Ht. apply Ascii.eqb_eq in Ht as ->.
  subst s. rewrite append_assoc. cbn [String.append].
  by rewrite !split_at_found.
Qed.

(** [urlparse] on a URL and on the same URL with more appended to its
    query or to its fragment *)
Lemma urlparse_tail c u t :
  c = "?"%char \/ c = "#"%char ->
  match urlparse u, urlparse (u +:+ String c t) with
  | Ok p, Ok p' =>
      scheme p' = scheme p /\ netloc p' = netloc p /\ path p' = path p
      /\ params p' = params p
      /\ (c = "#"%char -> query p' = query p)
  | Raise e, Raise e' => e' = e
  | RaiseBase b, RaiseBase b' => b' = b
  | _, _ => False
  end.
Proof.
  intros Hc.
  set (P := fun x => Ascii.eqb x "?" || Ascii.eqb x "#").
  destruct (span_spec P u) as (Hu & Ha & Ht).
  destruct (span P u) as [a t0]. cbn [fst snd] in *.
  assert (lacks "?" a = true /\ lacks "#" a = true) as [Hq Hf].
  { split; (eapply forall_chars_impl; [|exact Ha]); unfold P; cbn;
      intros x Hx; by destruct (Ascii.eqb x "?"), (Ascii.eqb x "#"). }
  destruct Ht as [->|Ht].
  { rewrite append_nil_r in Hu. subst a.
    rewrite (urlparse_tail_lacks c u t Hc Hq Hf).
    pose proof (urlparse_lacks_query u) as Hquery.
    destruct (urlparse u) as [p| |]; [|done..]. cbn.
    split_and!; try done. intros ->. rewrite (Hquery p) by done.
    pose proof (split_at_found "#" "" (remove_unsafe t) eq_refl) as H0.
    cbn [String.append] in H0. by rewrite H0. }
  destruct t0 as [|d b]; [done|]. cbn in Ht.
  assert (d = "?"%char \/ d = "#"%char) as Hd.
  { unfold P in Ht.
    apply orb_true_iff in Ht as [?%Ascii.eqb_eq|?%Ascii.eqb_eq]; auto. }
  subst u. rewrite append_assoc. cbn [String.append].
  rewrite (urlparse_tail_lacks d a b Hd Hq Hf),
    (urlparse_tail_lacks d a (b +:+ String c t) Hd Hq Hf).
  destruct (urlparse a) as [pa| |]; [|done..]. cbn.
  split_and!; try done. intros ->.
  rewrite remove_unsafe_append, remove_unsafe_keep by done.
  change (String d (remove_unsafe b +:+ String "#" (remove_unsafe t)))
    with (String d (remove_unsafe b) +:+ String "#" (remove_unsafe t)).
  by rewrite split_at_first.
Qed.

(** X14. [normalize_url] drops the fragment: for ASCII strings (on which
    [lower] is [str.lower]), what follows a ["#"] at the end of a URL makes
    no difference to the result, nor to whether there is one *)
Theorem normalize_url_ignores_fragment u f :
  isascii u = true -> isascii f = true ->
  normalize_url (u +:+ "#" +:+ f) = normalize_url u.
Proof.
  intros _ _. rewrite !normalize_url_unfold, lower_append.
  pose proof (urlparse_tail "#" (lower u) (lower f) (or_intror eq_refl))
    as Hp.
  change (lower ("#" +:+ f)) with (String "#" (lower f)).
  destruct (urlparse (lower u)) as [p|e|?],
    (urlparse (lower u +:+ String "#" (lower f))) as [p'|e'|?];
    try done; [|by subst..].
  destruct Hp as (Hs & Hn & Hpa & Hpar & Hq). specialize (Hq eq_refl). cbn.
  rewrite (port_netloc p p' Hn).
  destruct (port p) as [po| |]; [|done..]. cbn.
  unfold norm_netloc, norm_path, hostname.
  by rewrite Hs, Hn, Hpa, Hpar, Hq.
Qed.

(** X17. Neither the query nor the fragment makes a difference to
    [is_valid_url], [is_same_domain] and [get_domain]: they give the same
    for a URL and for that URL with ["?"] or ["#"] and anything else
    appended *)
Theorem query_and_fragment_are_ignored u t domain :
  let with_query := u +:+ "?" +:+ t in
  let with_fragment := u +:+ "#" +:+ t in
  (is_valid_url with_query = is_valid_url u
   /\ is_same_domain with_query domain = is_same_domain u domain
   /\ get_domain with_query = get_domain u)
  /\ (is_valid_url with_fragment = is_valid_url u
      /\ is_same_domain with_fragment domain = is_same_domain u domain
      /\ get_domain with_fragment = get_domain u).
Proof.
  assert (forall c, c = "?"%char \/ c = "#"%char ->
            is_valid_url (u +:+ String c t) = is_valid_url u
            /\ is_same_domain (u +:+ String c t) domain
               = is_same_domain u domain
            /\ get_domain (u +:+ String c t) = get_domain u) as Hc.
  { intros c Hc. unfold is_valid_url, is_same_domain, get_domain.
    pose proof (urlparse_tail c u t Hc) as Hp.
    destruct (urlparse u) as [p|e|?],
      (urlparse (u +:+ String c t)) as [p'|e'|?]; try done.
    by destruct Hp as (-> & -> & _). }
  split; [apply (Hc "?"%char)|apply (Hc "#"%char)]; auto.
Qed.

(** X20. [is_crawlable] looks at the path only: for ASCII strings, a query
    or a fragment appended to a URL makes no difference to the result, nor
    to whether there is one *)
Theorem is_crawlable_ignores_query_and_fragment u t :
  isascii u = true -> isascii t = true ->
  is_crawlable (u +:+ "?" +:+ t) = is_crawlable u
  /\ is_crawlable (u +:+ "#" +:+ t) = is_crawlable u.
Proof.
  intros _ _.
  assert (forall c, c = "?"%char \/ c = "#"%char ->
            is_crawlable (u +:+ String c t) = is_crawlable u) as Hc.
  { intros c Hc. unfold is_crawlable. rewrite lower_append.
    assert (lower (String c t) = String c (lower t)) as ->.
    { cbn. unfold lower_char. by destruct Hc as [->| ->]. }
    pose proof (urlparse_tail c (lower u) (lower t) Hc) as Hp.
    destruct (urlparse (lower u)) as [p|e|?],
      (urlparse (lower u +:+ String c (lower t))) as [p'|e'|?];
      try done; cbn; [|by subst..].
    by destruct Hp as (_ & _ & -> & _). }
  split; [apply (Hc "?"%char)|apply (Hc "#"%char)]; auto.
Qed.

(** *** The trailing slash *)

Lemma split_netloc_slash r :
  split_netloc (r +:+ "/")
  = ('(n, rest) ← split_netloc r;
     Ok (n, if r =? "/" then "" else rest +:+ "/")).
Proof.
  unfold split_netloc. destruct r as [|a [|b t]].
  - done.
  - destruct (ascii_dec a "/") as [->|Ha]; [done|].
    apply Ascii.eqb_neq in Ha. cbn. by rewrite Ha.
  - cbn [String.append].
    change (take 2 (String a (String b (t +:+ "/"))))
      with (String a (String b "")).
    change (take 2 (String a (String b t))) with (String a (String b "")).
    assert ((String a (String b t) =? "/") = false) as ->.
    { cbn. by destruct (Ascii.eqb a "/"). }
    destruct (String a (String b "") =? "//"); [|done..].
    rewrite !splitnetloc_span, (span_append_delim is_delim t "/" "") by done.
    destruct (span is_delim t) as [n rest]. cbn [fst snd].
    destruct (_ || _); [done|].
    by destruct (if contains "[" n && contains "]" n
                 then _check_bracketed_netloc n else Ok tt).
Qed.

(** X15. [normalize_url] gives the same for an ASCII URL and for that URL
    with a slash appended, provided the slash is appended to the path: the
    URL has no query, no fragment and no [";"] *)
Theorem normalize_url_ignores_trailing_slash u :
  isascii u = true ->
  lacks "?" u = true -> lacks "#" u = true -> lacks ";" u = true ->
  normalize_url (u +:+ "/") = normalize_url u.
Proof.
  intros _ Hq Hf Hs.
  apply lower_lacks in Hq, Hf, Hs; try done.
  rewrite !normalize_url_unfold, lower_append.
  change (lower "/") with "/". set (x := lower u) in *. clearbody x.
  rewrite !urlparse_unfold, !urlsplit_unfold. cbn zeta.
  rewrite (clean_append "/" x "") by done.
  change (remove_unsafe "") with "".
  rewrite split_scheme_append by done.
  apply clean_forall in Hq, Hf, Hs.
  apply (split_scheme_rest _ (clean x)) in Hq, Hf, Hs.
  destruct (split_scheme (clean x)) as [s r]. cbn [fst snd] in *.
  rewrite split_netloc_slash.
  destruct (split_netloc r) as [[n rest]|e|?] eqn:Hn; [|done..].
  destruct (split_netloc_forall _ _ _ _ Hn Hq) as [_ Hq'].
  destruct (split_netloc_forall _ _ _ _ Hn Hf) as [_ Hf'].
  destruct (split_netloc_forall _ _ _ _ Hn Hs) as [_ Hs'].
  cbn [mbind outcome_bind].
  set (rest' := if r =? "/" then "" else rest +:+ "/").
  assert (lacks "?" rest' = true /\ lacks "#" rest' = true
          /\ lacks ";" rest' = true
          /\ rstrip "/" rest' = rstrip "/" rest) as (Hq2 & Hf2 & Hs2 & Hr).
  { unfold rest'. destruct (r =? "/") eqn:Hr.
    - apply String.eqb_eq in Hr as ->. split_and!; try done.
      unfold split_netloc in Hn. cbn in Hn. by injection Hn as <- <-.
    - fold (lacks "?" rest) in Hq'. fold (lacks "#" rest) in Hf'.
      fold (lacks ";" rest) in Hs'.
      rewrite !lacks_append, Hq', Hf', Hs'. split_and!; try done.
      apply rstrip_append_self. }
  clearbody rest'.
  rewrite (split_at_lacks "#" rest'), (split_at_lacks "?" rest'),
    (split_at_lacks "#" rest), (split_at_lacks "?" rest) by done.
  destruct (_checknetloc n); [|done..]. unfold mbind, outcome_bind.
  rewrite !contains_lacks, Hs2. fold (lacks ";" rest) in Hs'. rewrite Hs'.
  rewrite andb_false_r.
  unfold port, norm_netloc, norm_path, hostname. cbn [netloc scheme path].
  by rewrite Hr.
Qed.

End Tails.

(** *** Absolute URLs *)

Lemma host_char_netloc c : host_char c = true -> netloc_char c = true.
Proof. by destruct c as [[] [] [] [] [] [] [] []]. Qed.

Lemma lower_char_host c : host_char c = true -> host_char (lower_char c) = true.
Proof. by destruct c as [[] [] [] [] [] [] [] []]. Qed.

Lemma lower_char_delim c : is_delim c = true -> lower_char c = c.
Proof. by destruct c as [[] [] [] [] [] [] [] []]. Qed.

Lemma delim_not_c0 c : is_delim c = true -> c0_control_or_space c = false.
Proof. by destruct c as [[] [] [] [] [] [] [] []]. Qed.

Lemma scheme_char_not_c0 c :
  scheme_char c = true -> negb (c0_control_or_space c) = true.
Proof. by destruct c as [[] [] [] [] [] [] [] []]. Qed.

Lemma remove_unsafe_id x :
  forall_chars (fun c => negb (c0_control_or_space c)) x = true ->
  remove_unsafe x = x.
Proof.
  intros Hx. unfold remove_unsafe, TAB, CR, LF.
  assert (forall c, c0_control_or_space c = true -> lacks c x = true) as Hl.
  { intros c Hc. eapply forall_chars_impl; [|exact Hx]. cbn. intros a Ha.
    destruct (Ascii.eqb a c) eqn:He; [|done..].
    apply Ascii.eqb_eq in He as ->. by rewrite Hc in Ha. }
  destruct (remove_char_spec is_ascii "009" x) as (_ & _ & H1 & _).
  destruct (remove_char_spec is_ascii "013" x) as (_ & _ & H2 & _).
  destruct (remove_char_spec is_ascii "010" x) as (_ & _ & H3 & _).
  cbn zeta in *. rewrite H1, H2, H3; [done|by apply Hl..].
Qed.

Lemma netloc_char_spec n :
  forall_chars netloc_char n = true ->
  isascii n = true
  /\ forall_chars (fun c => negb (c0_control_or_space c)) n = true
  /\ lacks "/" n = true /\ lacks "?" n = true /\ lacks "#" n = true
  /\ lacks "[" n = true /\ lacks "]" n = true.
Proof.
  intros Hn. unfold isascii, lacks.
  split_and!; (eapply forall_chars_impl; [|exact Hn]); clear; intros c;
    unfold netloc_char, is_delim;
    intros Hc; repeat (apply andb_true_iff in Hc as [Hc ?]); try done;
    destruct (Ascii.eqb c "/"), (Ascii.eqb c "?"), (Ascii.eqb c "#"); done.
Qed.

(** The scheme of a URL that begins with a scheme name and a colon *)
Lemma split_scheme_found_any s rest :
  head_is is_alpha s = true -> forall_chars scheme_char s = true ->
  split_scheme (s +:+ String ":" rest) = (lower s, rest).
Proof.
  intros Hh Hs. unfold split_scheme.
  rewrite find_append
    by (eapply forall_chars_impl; [apply scheme_char_not_colon | exact Hs]).
  destruct s as [|x s]; [done|]. cbn [String.length].
  rewrite head_is_get by done.
  rewrite (head_is_append _ (String x s)) by done.
  change (S (String.length s)) with (String.length (String x s)).
  by rewrite take_append_length, Hs, drop_append_cons.
Qed.

(** The scheme that [urlsplit] finds, when it finds one, is what
    precedes the first colon *)
Lemma split_scheme_shape url s r :
  split_scheme url = (s, r) -> s <> "" ->
  exists s', url = s' +:+ String ":" r /\ s = lower s' /\ s' <> "".
Proof.
  unfold split_scheme. destruct (find ":" url) as [[|i]|] eqn:Hf;
    try (by intros [= <- <-]).
  destruct (_ && _); [|by intros [= <- <-]].
  intros [= <- <-] Hne. exists (take (S i) url).
  split_and!; [by apply find_spec|done|].
  by destruct url.
Qed.

Lemma parse_rest_netloc s n n' rest :
  scheme (parse_rest s n rest) = s /\ netloc (parse_rest s n rest) = n
  /\ path (parse_rest s n' rest) = path (parse_rest s n rest)
  /\ params (parse_rest s n' rest) = params (parse_rest s n rest)
  /\ query (parse_rest s n' rest) = query (parse_rest s n rest).
Proof.
  unfold parse_rest. destruct (split_at "#" rest) as [u f].
  destruct (split_at "?" u) as [u' q].
  by destruct (if mem s uses_params && contains ";" u'
               then _splitparams u' else (u', "")).
Qed.

Section Absolute.
Context `{!Externals}.

Lemma split_netloc_found_end n :
  lacks "/" n = true -> lacks "?" n = true -> lacks "#" n = true ->
  lacks "[" n = true -> lacks "]" n = true ->
  split_netloc ("//" +:+ n) = Ok (n, "").
Proof.
  intros H1 H2 H3 Hb1 Hb2. unfold split_netloc.
  cbn [String.append take String.eqb Ascii.eqb Bool.eqb].
  change (("/" =? "/")%char) with true. cbn [String.eqb andb].
  rewrite splitnetloc_span, span_all by (by apply lacks_is_delim).
  by rewrite !contains_lacks, Hb1, Hb2.
Qed.

(** [urlparse] on a scheme name, ["://"], a netloc and a rest that is
    empty or begins with a delimiter *)
Lemma urlparse_absolute s n rest :
  head_is is_alpha s = true -> forall_chars scheme_char s = true ->
  forall_chars netloc_char n = true ->
  rest = "" \/ head_is is_delim rest = true ->
  urlparse (s +:+ "://" +:+ n +:+ rest)
  = Ok (parse_rest (lower s) n (remove_unsafe rest)).
Proof.
  intros Hh Hs Hn Hrest.
  destruct (netloc_char_spec n Hn) as (Ha & Hc & H1 & H2 & H3 & Hb1 & Hb2).
  rewrite urlparse_unfold, urlsplit_unfold. cbn zeta.
  assert (clean (s +:+ "://" +:+ n +:+ rest)
          = s +:+ String ":" ("//" +:+ n +:+ remove_unsafe rest)) as ->.
  { unfold clean.
    fold (remove_unsafe
            (lstrip c0_control_or_space (s +:+ "://" +:+ n +:+ rest))).
    rewrite lstrip_head.
    2:{ destruct s as [|x s]; [done|]. cbn in *. by apply alpha_not_c0. }
    rewrite !remove_unsafe_append, (remove_unsafe_id n) by done.
    rewrite remove_unsafe_id; [done|].
    eapply forall_chars_impl; [apply scheme_char_not_c0|exact Hs]. }
  rewrite split_scheme_found_any by done.
  assert (split_netloc ("//" +:+ n +:+ remove_unsafe rest)
          = Ok (n, remove_unsafe rest)) as ->.
  { destruct Hrest as [->|Hd].
    - change (remove_unsafe "") with "". rewrite append_nil_r.
      by apply split_netloc_found_end.
    - apply split_netloc_found; try done.
      destruct rest as [|d rest]; [done|]. cbn in Hd.
      by rewrite remove_unsafe_keep by (by apply delim_not_c0). }
  cbn [mbind outcome_bind]. unfold parse_rest.
  destruct (split_at "#" (remove_unsafe rest)) as [u f].
  destruct (split_at "?" u) as [u' q].
  unfold _checknetloc. rewrite Ha, orb_true_r.
  unfold mbind, outcome_bind.
  by destruct (if mem (lower s) uses_params && contains ";" u'
               then _splitparams u' else (u', "")).
Qed.

(** X18. A scheme name, ["://"], a non-empty netloc of ordinary characters
    and then nothing or a path, a query or a fragment: such a URL is valid
    for [is_valid_url], and its domain is that netloc *)
Theorem absolute_urls_are_valid s n rest :
  head_is is_alpha s = true -> forall_chars scheme_char s = true ->
  n <> "" -> forall_chars netloc_char n = true ->
  rest = "" \/ head_is is_delim rest = true ->
  is_valid_url (s +:+ "://" +:+ n +:+ rest) = true
  /\ get_domain (s +:+ "://" +:+ n +:+ rest) = Some n.
Proof.
  intros Hh Hs Hne Hn Hrest. unfold is_valid_url, get_domain.
  rewrite urlparse_absolute by done.
  destruct (parse_rest_netloc (lower s) n n (remove_unsafe rest))
    as (-> & -> & _).
  split; [|done..]. apply eqb_empty_false in Hne as ->.
  destruct s as [|x s]; [done|]. done.
Qed.

(** X19. What [is_valid_url] accepts begins, after [urlsplit] has removed
    leading blanks, tabs and line breaks, with a scheme, ["://"] and a
    non-empty netloc, which is the domain that [get_domain] returns: a
    relative URL, or one without a host, is not valid *)
Theorem valid_urls_have_scheme_and_netloc u :
  is_valid_url u = true ->
  exists s n rest,
    clean u = s +:+ "://" +:+ n +:+ rest
    /\ s <> "" /\ n <> "" /\ get_domain u = Some n.
Proof.
  unfold is_valid_url, get_domain.
  rewrite urlparse_unfold, urlsplit_unfold. cbn zeta.
  destruct (split_scheme (clean u)) as [s r] eqn:Hsch.
  destruct (split_netloc r) as [[n rest]|e|?] eqn:Hn; [|done..].
  cbn [mbind outcome_bind].
  destruct (split_at "#" rest) as [u1 f]. destruct (split_at "?" u1) as [u2 q].
  destruct (_checknetloc n); [|done..]. unfold mbind, outcome_bind.
  destruct (if mem s uses_params && contains ";" u2
            then _splitparams u2 else (u2, "")) as [pa par].
  cbn [scheme netloc].
  intros [Hs Hne]%andb_true_iff.
  apply negb_true_iff, eqb_empty_false in Hs, Hne.
  destruct (split_scheme_shape _ _ _ Hsch Hs) as (s' & Hu & _ & Hs').
  destruct (split_netloc_spec r n rest Hn) as [[-> _]|(Hr & _)]; [done|].
  exists s', n, rest. split_and!; try done.
  rewrite Hu, Hr. reflexivity.
Qed.

(** *** The default port *)

Lemma host_char_spec h :
  forall_chars host_char h = true ->
  forall_chars netloc_char h = true
  /\ lacks "@" h = true /\ lacks ":" h = true /\ lacks "[" h = true
  /\ lacks "%" h = true.
Proof.
  intros Hh. unfold lacks.
  split_and!; (eapply forall_chars_impl; [|exact Hh]); clear; intros c;
    by destruct c as [[] [] [] [] [] [] [] []].
Qed.

Lemma lower_head_delim rest :
  rest = "" \/ head_is is_delim rest = true ->
  lower rest = "" \/ head_is is_delim (lower rest) = true.
Proof.
  intros [->|Hd]; [by left|]. right.
  destruct rest as [|d rest]; [done|]. cbn in *.
  by rewrite lower_char_delim.
Qed.

(** [normalize_url] on a URL with the default port of its scheme after
    a host name, and on the same URL without the port *)
Lemma default_port_dropped s pt po h rest :
  (s = "http" /\ pt = "80" /\ po = 80%N)
  \/ (s = "https" /\ pt = "443" /\ po = 443%N) ->
  h <> "" -> forall_chars host_char h = true ->
  rest = "" \/ head_is is_delim rest = true ->
  normalize_url (s +:+ "://" +:+ (h +:+ String ":" pt) +:+ rest)
  = normalize_url (s +:+ "://" +:+ h +:+ rest).
Proof.
  intros Hs Hne Hh Hrest.
  assert (lower s = s /\ lower pt = pt /\ head_is is_alpha s = true
          /\ forall_chars scheme_char s = true
          /\ forall_chars netloc_char (String ":" pt) = true
          /\ isdigit pt && isascii pt = true /\ int pt = po
          /\ (pt =? "") = false /\ (po <=? 65535)%N = true
          /\ (bool_decide (Some po = Some 80%N) && (s =? "http")
              || bool_decide (Some po = Some 443%N) && (s =? "https")) = true)
    as (Hls & Hlp & Hsa & Hsc & Hpn & Hpd & Hpi & Hpe & Hpr & Hdef).
  { by destruct Hs as [(-> & -> & ->)|(-> & -> & ->)]. }
  rewrite !normalize_url_unfold, !lower_append.
  change (lower "://") with "://". cbn [lower].
  change (lower_char ":") with ":"%char. rewrite Hls, Hlp.
  apply (lower_forall_chars _ _ lower_char_host) in Hh.
  assert (lower h <> "") as Hne' by (by destruct h).
  apply lower_head_delim in Hrest.
  assert (lower (lower h) = lower h) as Hlh by apply lower_idem.
  set (h' := lower h) in *. set (r' := lower rest) in *.
  clearbody h' r'.
  destruct (host_char_spec h' Hh) as (Hn' & Hat & Hco & Hbr & Hpc).
  rewrite !urlparse_absolute; try done.
  2:{ by rewrite forall_chars_append, Hn', Hpn. }
  rewrite Hls. cbn [mbind outcome_bind].
  destruct (parse_rest_netloc s (h' +:+ String ":" pt) h' (remove_unsafe r'))
    as (Hs1 & Hn1 & _).
  destruct (parse_rest_netloc s h' (h' +:+ String ":" pt) (remove_unsafe r'))
    as (Hs2 & Hn2 & Hpa & Hpar & Hq).
  set (p1 := parse_rest s (h' +:+ String ":" pt) (remove_unsafe r')) in *.
  set (p2 := parse_rest s h' (remove_unsafe r')) in *. clearbody p1 p2.
  assert (_hostinfo (netloc p1) = (h', Some pt)) as Hi1.
  { rewrite Hn1. unfold _hostinfo.
    rewrite rpartition_lacks.
    2:{ rewrite lacks_append, Hat.
        by destruct Hs as [(_ & -> & _)|(_ & -> & _)]. }
    rewrite partition_lacks.
    2:{ rewrite lacks_append, Hbr.
        by destruct Hs as [(_ & -> & _)|(_ & -> & _)]. }
    rewrite partition_append by done. by rewrite Hpe. }
  assert (_hostinfo (netloc p2) = (h', None)) as Hi2.
  { rewrite Hn2. by apply hostinfo_plain_host. }
  assert (forall p, fst (_hostinfo (netloc p)) = h' -> hostname p = Some h')
    as Hhost.
  { intros p Hp. unfold hostname. rewrite Hp.
    apply eqb_empty_false in Hne' as ->.
    rewrite partition_lacks by done. by rewrite Hlh, !append_nil_r. }
  unfold port. rewrite Hi1, Hi2. cbn [snd]. rewrite Hpd, Hpi, Hpr.
  cbn [mbind outcome_bind]. unfold norm_netloc.
  rewrite !Hhost by (by rewrite ?Hi1, ?Hi2).
  assert (norm_path p1 = norm_path p2) as ->.
  { unfold norm_path. by rewrite Hpa. }
  rewrite Hs1, Hs2, Hn2, Hpar, Hq. f_equal. f_equal.
  destruct Hs as [(-> & _ & ->)|(-> & _ & ->)]; done.
Qed.

(** X16. [normalize_url] removes the default port after a host name: with
    ASCII strings, ["http://host:80..."] gives what ["http://host..."]
    gives, and ["https://host:443..."] what ["https://host..."] gives, where
    the host is made of letters, digits, dots and hyphens and is followed by
    nothing or by a path, a query or a fragment *)
Theorem normalize_url_ignores_default_port h rest :
  h <> "" -> forall_chars host_char h = true ->
  isascii rest = true ->
  rest = "" \/ head_is is_delim rest = true ->
  normalize_url ("http://" +:+ h +:+ ":80" +:+ rest)
  = normalize_url ("http://" +:+ h +:+ rest)
  /\ normalize_url ("https://" +:+ h +:+ ":443" +:+ rest)
     = normalize_url ("https://" +:+ h +:+ rest).
Proof.
  intros Hne Hh _ Hrest. split.
  - pose proof (default_port_dropped "http" "80" 80 h rest) as Hd.
    rewrite append_assoc in Hd. apply Hd; auto.
  - pose proof (default_port_dropped "https" "443" 443 h rest) as Hd.
    rewrite append_assoc in Hd. apply Hd; auto.
Qed.

(** *** File extensions *)

Lemma lower_char_netloc c :
  netloc_char c = true -> netloc_char (lower_char c) = true.
Proof. by destruct c as [[] [] [] [] [] [] [] []]. Qed.

Lemma parse_rest_path s n rest :
  lacks "?" rest = true -> lacks "#" rest = true -> lacks ";" rest = true ->
  path (parse_rest s n rest) = rest.
Proof.
  intros Hq Hf Hs. unfold parse_rest.
  rewrite (split_at_lacks "#" rest), (split_at_lacks "?" rest) by done.
  by rewrite contains_lacks, Hs, andb_false_r.
Qed.

(** X21. [is_crawlable] on a scheme, ["://"], a netloc and a path: the
    answer is read off the end of the path, in lower case and without tabs
    and line breaks; the scheme and the netloc play no part *)
Theorem is_crawlable_by_extension s n pa :
  head_is is_alpha s = true -> forall_chars scheme_char s = true ->
  forall_chars netloc_char n = true ->
  isascii pa = true ->
  pa = "" \/ head_is (fun c => Ascii.eqb c "/") pa = true ->
  lacks "?" pa = true -> lacks "#" pa = true -> lacks ";" pa = true ->
  is_crawlable (s +:+ "://" +:+ n +:+ pa)
  = Ok (no_skipped_extension (remove_unsafe (lower pa)) skip_extensions).
Proof.
  intros Hh Hs Hn _ Hpa Hq Hf Hsc. unfold is_crawlable.
  rewrite !lower_append. change (lower "://") with "://".
  apply lower_lacks in Hq, Hf, Hsc; try done.
  rewrite urlparse_absolute.
  - cbn [mbind outcome_bind]. f_equal. f_equal.
    apply parse_rest_path; by apply remove_unsafe_forall.
  - destruct s as [|x s]; [done|]. cbn in *. by apply lower_char_alpha.
  - by apply lower_forall_chars; [apply lower_char_scheme|].
  - by apply lower_forall_chars; [apply lower_char_netloc|].
  - apply lower_head_delim. destruct Hpa as [->|Hpa]; [by left|right].
    eapply head_is_impl; [|exact Hpa]. intros c Hc. unfold is_delim.
    by rewrite Hc.
Qed.

End Absolute.

(** ** The properties at concrete inputs *)

Lemma queued_links_are_http_witness :
  Request.make "https://example.com/a/" 1
  = Request.make (start_url example_crawler) 0
  \/ (is_http (Request.url (Request.make "https://example.com/a/" 1)) = true
      /\ (1 <= Request.depth (Request.make "https://example.com/a/" 1))%Z).
Proof.
  apply (@queued_links_are_http absolute_hrefs example_config example_crawler
           example_events).
  - vm_compute. reflexivity.
  - apply (bool_decide_unpack _). vm_compute. exact I.
Defined.

Lemma queued_links_are_internal_witness :
  @is_same_domain absolute_hrefs
    (Request.url (Request.make "https://example.com/a/" 1))
    (base_domain example_crawler) = true.
Proof.
  apply (@queued_links_are_internal absolute_hrefs example_config
           example_crawler example_events).
  - vm_compute. reflexivity.
  - reflexivity.
  - apply (bool_decide_unpack _). vm_compute. exact I.
Defined.

Lemma visited_urls_within_max_pages_witness :
  let s := state (@run absolute_hrefs example_events
                    {| state := seeded example_crawler; tasks := [] |}) in
  (Z.of_nat (size (visited_urls s)) <= page_count s)%Z
  /\ (Z.of_nat (size (visited_urls s)) <= max_pages example_crawler)%Z.
Proof.
  apply (@visited_urls_within_max_pages absolute_hrefs example_config).
  - vm_compute. reflexivity.
  - cbn. lia.
Defined.

Lemma nothing_happens_after_the_limit_witness :
  tasks (@run absolute_hrefs example_events
           {| state := spent_crawler; tasks := [] |}) = []
  /\ same_but_log spent_crawler
       (state (@run absolute_hrefs example_events
                 {| state := spent_crawler; tasks := [] |})).
Proof.
  apply (@nothing_happens_after_the_limit absolute_hrefs example_events
           {| state := spent_crawler; tasks := [] |}).
  - reflexivity.
  - cbn. lia.
Defined.

Lemma no_page_budget_crawls_nothing_witness :
  let s := state (@run absolute_hrefs example_events
                    {| state := seeded no_budget_crawler; tasks := [] |}) in
  page_count s = 0%Z /\ visited_urls s = ∅
  /\ request_queue s = [Request.make (start_url no_budget_crawler) 0].
Proof.
  apply (@no_page_budget_crawls_nothing absolute_hrefs no_budget_config).
  - vm_compute. reflexivity.
  - cbn. lia.
Defined.

Lemma crawled_pages_are_numbered_in_order_witness :
  let s := state (@run absolute_hrefs example_events
                    {| state := seeded example_crawler; tasks := [] |}) in
  crawling_numbers (log s) = Z.of_nat <$> seq 1 (Z.to_nat (page_count s)).
Proof.
  apply (@crawled_pages_are_numbered_in_order absolute_hrefs example_config).
  vm_compute. reflexivity.
Defined.

Lemma pages_at_max_depth_queue_nothing_witness :
  request_queue
    (fst (@_handle_request absolute_hrefs
            (example_context "https://example.com/a" 1) example_crawler))
  = request_queue example_crawler.
Proof.
  apply (@pages_at_max_depth_queue_nothing absolute_hrefs).
  apply Z.leb_le. vm_compute. reflexivity.
Defined.

Lemma enqueue_stops_at_refused_link_witness :
  enqueue_loop refusing_context 0
    ([internal_link "https://example.com/a"]
     ++ internal_link "https://example.com/b"
        :: [internal_link "https://example.com/c"])
    example_crawler
  = (set_request_queue [Request.make "https://example.com/a" 1]
       example_crawler,
     Raise (Exception "queue closed")).
Proof.
  apply enqueue_stops_at_refused_link.
  - vm_compute. reflexivity.
  - apply (bool_decide_unpack _). vm_compute. exact I.
  - reflexivity.
  - reflexivity.
  - reflexivity.
Defined.


Lemma extracted_links_follow_the_anchors_witness :
  fst (@_extract_links absolute_hrefs page_with_assets
         "https://example.com/" example_crawler) = example_crawler
  /\ exists found,
       anchors page_with_assets = Ok found
       /\ Forall2 (fun a l =>
                     @urljoin absolute_hrefs "https://example.com/" a.1
                     = Ok (Link.url l)
                     /\ Link.text l = a.2
                     /\ Link.is_external l
                        = negb (@is_same_domain absolute_hrefs (Link.url l)
                                  (base_domain example_crawler)))
            (List.filter (fun a => negb (a.1 =? "")) found)
            [{| Link.url := "https://example.com/a"; Link.text := "a";
                Link.is_external := false |}].
Proof.
  apply (@extracted_links_follow_the_anchors absolute_hrefs).
  vm_compute. reflexivity.
Defined.

Lemma extracted_assets_keep_their_types_witness :
  fst (@_extract_assets absolute_hrefs page_with_assets
         "https://example.com/" example_crawler) = example_crawler
  /\ exists found,
       asset_urls page_with_assets = Ok found
       /\ Forall2 (fun f a =>
                     a.1 = f.1
                     /\ Forall2 (fun u u' =>
                                   @urljoin absolute_hrefs
                                     "https://example.com/" u = Ok u')
                          f.2 a.2)
            found
            [("css", ["https://example.com/s.css"]);
             ("js", []);
             ("images", ["https://example.com/1.png";
                         "https://example.com/2.png"])].
Proof.
  apply (@extracted_assets_keep_their_types absolute_hrefs).
  vm_compute. reflexivity.
Defined.

Lemma normalize_url_ignores_fragment_witness :
  @normalize_url absolute_hrefs ("http://example.com/a" +:+ "#" +:+ "top")
  = @normalize_url absolute_hrefs "http://example.com/a".
Proof.
  apply (@normalize_url_ignores_fragment absolute_hrefs); reflexivity.
Defined.

Lemma is_crawlable_ignores_query_and_fragment_witness :
  @is_crawlable absolute_hrefs
    ("http://example.com/a.pdf" +:+ "?" +:+ "download=1")
  = @is_crawlable absolute_hrefs "http://example.com/a.pdf"
  /\ @is_crawlable absolute_hrefs
       ("http://example.com/a.pdf" +:+ "#" +:+ "download=1")
     = @is_crawlable absolute_hrefs "http://example.com/a.pdf".
Proof.
  apply (@is_crawlable_ignores_query_and_fragment absolute_hrefs);
    reflexivity.
Defined.

Lemma normalize_url_ignores_trailing_slash_witness :
  @normalize_url absolute_hrefs ("http://example.com/a" +:+ "/")
  = @normalize_url absolute_hrefs "http://example.com/a".
Proof.
  apply (@normalize_url_ignores_trailing_slash absolute_hrefs); reflexivity.
Defined.

Lemma absolute_urls_are_valid_witness :
  @is_valid_url absolute_hrefs
    ("HTTPS" +:+ "://" +:+ "example.com:8080" +:+ "/a?x=1") = true
  /\ @get_domain absolute_hrefs
       ("HTTPS" +:+ "://" +:+ "example.com:8080" +:+ "/a?x=1")
     = Some "example.com:8080".
Proof.
  apply (@absolute_urls_are_valid absolute_hrefs).
  - reflexivity.
  - reflexivity.
  - discriminate.
  - reflexivity.
  - right. reflexivity.
Defined.

Lemma valid_urls_have_scheme_and_netloc_witness :
  exists s n rest,
    clean " https://example.com/a" = s +:+ "://" +:+ n +:+ rest
    /\ s <> "" /\ n <> ""
    /\ @get_domain absolute_hrefs " https://example.com/a" = Some n.
Proof.
  apply (@valid_urls_have_scheme_and_netloc absolute_hrefs).
  vm_compute. reflexivity.
Defined.

Lemma normalize_url_ignores_default_port_witness :
  @normalize_url absolute_hrefs
    ("http://" +:+ "Example.com" +:+ ":80" +:+ "/a")
  = @normalize_url absolute_hrefs ("http://" +:+ "Example.com" +:+ "/a")
  /\ @normalize_url absolute_hrefs
       ("https://" +:+ "Example.com" +:+ ":443" +:+ "/a")
     = @normalize_url absolute_hrefs ("https://" +:+ "Example.com" +:+ "/a").
Proof.
  apply (@normalize_url_ignores_default_port absolute_hrefs).
  - discriminate.
  - reflexivity.
  - reflexivity.
  - right. reflexivity.
Defined.

Lemma is_crawlable_by_extension_witness :
  @is_crawlable absolute_hrefs
    ("https" +:+ "://" +:+ "example.com" +:+ "/files/Report.PDF")
  = Ok (no_skipped_extension (remove_unsafe (lower "/files/Report.PDF"))
          skip_extensions).
Proof.
  apply (@is_crawlable_by_extension absolute_hrefs).
  - reflexivity.
  - reflexivity.
  - reflexivity.
  - reflexivity.
  - right. reflexivity.
  - reflexivity.
  - reflexivity.
  - reflexivity.
Defined.
